(** * Semi-monthly budget: date clamp, paycheck assigner, aggregator, persistence

    A shallow embedding of the budgeting application's logic
    ([clampDay], [assignToPaycheck], the per-paycheck totals of
    [SemiMonthlyBudgetApp], [loadState] / [saveState], the import handler and
    the add-expense path) together with the properties stated for it.

    Conventions.
    - Years, month indices and the day fields of the state are JavaScript
      numbers that hold integers; they are modelled as [Z].
    - What [clampDay] computes with is a number that holds an integer or is
      [NaN] (the month length of an Invalid Date): a [dayNumber].
      Comparisons with [NaN] are false, and [Math.min] and [Math.max] of
      [NaN] are [NaN].
    - Monetary amounts are JavaScript numbers, i.e. IEEE-754 binary64 values;
      they are modelled by Rocq's primitive [float], whose [+] rounds exactly
      as the JavaScript [+] does.
    - A string is the UTF-8 encoding of the JavaScript string (a surrogate
      that stands alone is written in three bytes like any other code
      unit).
    - A function that can fall off its end returns [option]: [None] is the
      JavaScript [undefined].
    - Built-ins of the platform that the program only calls ([JSON.parse],
      [JSON.stringify], [Number]) are parameters of the sections that use
      them. *)

From Stdlib Require Import ZArith QArith Lia List String Ascii Bool Floats Permutation.
From stdpp Require Import base option gmap strings.
Import ListNotations.

Local Open Scope Z_scope.

(* ------------------------------------------------------------------------- *)
(** ** Day numbers: integers and [NaN] *)
(* ------------------------------------------------------------------------- *)

Inductive dayNumber : Type :=
| NaN
| Day (n : Z).

Module DayNumber.

(** [Math.max(a, b)] and [Math.min(a, b)]. *)
Definition Math_max (a b : dayNumber) : dayNumber :=
  match a, b with
  | Day x, Day y => Day (Z.max x y)
  | _, _ => NaN
  end.

Definition Math_min (a b : dayNumber) : dayNumber :=
  match a, b with
  | Day x, Day y => Day (Z.min x y)
  | _, _ => NaN
  end.

(** [a < b], [a <= b] and [a === b]; [b > a] is [a < b]. *)
Definition ltb (a b : dayNumber) : bool :=
  match a, b with
  | Day x, Day y => x <? y
  | _, _ => false
  end.

Definition leb (a b : dayNumber) : bool :=
  match a, b with
  | Day x, Day y => x <=? y
  | _, _ => false
  end.

Definition eqb (a b : dayNumber) : bool :=
  match a, b with
  | Day x, Day y => x =? y
  | _, _ => false
  end.

(** The comparisons as propositions. *)
Definition lt (a b : dayNumber) : Prop := ltb a b = true.
Definition le (a b : dayNumber) : Prop := leb a b = true.

(** [ToLength]: the length an array is given ([NaN] and negative lengths
    give the empty array). *)
Definition ToLength (a : dayNumber) : nat :=
  match a with
  | Day n => Z.to_nat n
  | NaN => 0%nat
  end.

End DayNumber.

(* ------------------------------------------------------------------------- *)
(** ** Calendar: [new Date(year, monthIndex, 1)] and date-fns' [getDaysInMonth] *)
(* ------------------------------------------------------------------------- *)

Module DateFns.

(** The local calendar fields of a valid JavaScript [Date]. *)
Record Date : Type := mkDate
  { getFullYear : Z;
    getMonth : Z;      (* 0 .. 11 *)
    getDate : Z }.

(** ECMAScript's [MakeDay(year, month, date)]: the number of days from
    1 January 1970 to the given day of the proleptic Gregorian calendar.  A
    month outside 0..11 carries into the year, and day 0 of a month is the
    last day of the month before. *)
Definition MakeDay (year month date : Z) : Z :=
  let ym := year + month / 12 in
  let mn := month mod 12 in
  let y := if mn <=? 1 then ym - 1 else ym in
  let era := y / 400 in
  let yoe := y mod 400 in
  let mp := (mn + 10) mod 12 in
  let doy := (153 * mp + 2) / 5 + date - 1 in
  let doe := yoe * 365 + yoe / 4 - yoe / 100 + doy in
  era * 146097 + doe - 719468.

(** A [Date] holds a time within 100,000,000 days of 1 January 1970. *)
Definition maxDay : Z := 100000000.

(** [TimeClip], on the day number of a local time: [None] is [NaN], the time
    value of an Invalid Date.  The two end days themselves (20 April -271821
    and 13 September 275760) are within the range or not by the local time
    zone; they are never the first or the last day of a month, the only days
    that are built here, and are counted as outside. *)
Definition TimeClip (day : Z) : option Z :=
  if (- maxDay <? day) && (day <? maxDay) then Some day else None.

(** [new Date(year, monthIndex, day)] for integer arguments: a year in
    0..99 means 1900 + year, a month index outside 0..11 carries into the
    year, and the result is an Invalid Date ([None]) when the day lies
    outside the range of [Date].  The program only builds the first of a
    month, so the carry of the day is not modelled. *)
Definition new_Date (year monthIndex day : Z) : option Date :=
  let yr := if (0 <=? year) && (year <=? 99) then 1900 + year else year in
  match TimeClip (MakeDay yr monthIndex day) with
  | Some _ => Some (mkDate (yr + monthIndex / 12) (monthIndex mod 12) day)
  | None => None
  end.

(** Proleptic Gregorian leap years, as the [Date] object counts them. *)
Definition isLeapYear (y : Z) : bool :=
  (y mod 4 =? 0) && (negb (y mod 100 =? 0) || (y mod 400 =? 0)).

(** date-fns: the number of days in the month of the given date, which it
    reads off the last day of that month
    ([setFullYear(year, monthIndex + 1, 0)], then [getDate()]); [NaN] for an
    Invalid Date, and when that last day is outside the range of [Date]. *)
Definition getDaysInMonth (date : option Date) : dayNumber :=
  match date with
  | None => NaN
  | Some d =>
      match TimeClip (MakeDay (getFullYear d) (getMonth d + 1) 0) with
      | Some _ =>
          Day (match getMonth d with
               | 1 => if isLeapYear (getFullYear d) then 29 else 28
               | 3 | 5 | 8 | 10 => 30
               | _ => 31
               end)
      | None => NaN
      end
  end.

End DateFns.

(** The month length the program works with:
    [getDaysInMonth(new Date(year, monthIndex, 1))]. *)
Definition daysInMonth (year monthIndex : Z) : dayNumber :=
  DateFns.getDaysInMonth (DateFns.new_Date year monthIndex 1).

(* ------------------------------------------------------------------------- *)
(** ** Utilities: [clampDay] and [assignToPaycheck] *)
(* ------------------------------------------------------------------------- *)

(** [function clampDay(day, year, monthIndex)]:
    [Math.min(Math.max(1, day), dim)]. *)
Definition clampDay (day : dayNumber) (year monthIndex : Z) : dayNumber :=
  let dim := DateFns.getDaysInMonth (DateFns.new_Date year monthIndex 1) in
  DayNumber.Math_min (DayNumber.Math_max (Day 1) day) dim.

(** [function assignToPaycheck(dueDay, p1, p2, year, monthIndex)].  The two
    [if] statements are kept as written; when neither fires the function
    returns [undefined]. *)
Definition assignToPaycheck (dueDay p1 p2 : dayNumber) (year monthIndex : Z)
  : option Z :=
  let d1 := clampDay p1 year monthIndex in
  let d2 := clampDay p2 year monthIndex in
  let first := DayNumber.Math_min d1 d2 in
  let second := DayNumber.Math_max d1 d2 in
  if DayNumber.ltb first dueDay && DayNumber.leb dueDay second then Some 1
  else if DayNumber.ltb second dueDay || DayNumber.leb dueDay first then Some 2
  else None.

(* ------------------------------------------------------------------------- *)
(** ** Data model ([Expense], [IncomeConfig], [BudgetState]) *)
(* ------------------------------------------------------------------------- *)

(** [Expense]: [amount] is a JavaScript number; [dueDay] is a number that
    holds an integer (the add-expense form only lets integers through). *)
Record Expense : Type := mkExpense
  { id : string;
    name : string;
    amount : float;
    dueDay : Z;
    category : string }.

Record IncomeConfig : Type := mkIncomeConfig
  { paycheckDays : Z * Z;
    netPerPaycheck : float;
    extras : float }.

Record BudgetState : Type := mkBudgetState
  { income : IncomeConfig;
    expenses : list Expense }.

(* ------------------------------------------------------------------------- *)
(** ** JavaScript numbers *)
(* ------------------------------------------------------------------------- *)

(** [Number.isFinite]: neither [NaN] nor an infinity. *)
Definition Number_isFinite (x : float) : bool :=
  match Prim2SF x with
  | S754_zero _ | S754_finite _ _ _ => true
  | S754_infinity _ | S754_nan => false
  end.

(** The integer a finite binary64 value denotes, when it denotes one:
    [m * 2^e] with [e >= 0], or [m / 2^(-e)] when that division is exact. *)
Definition integerValue (x : float) : option Z :=
  match Prim2SF x with
  | S754_zero _ => Some 0
  | S754_finite s m e =>
      if 0 <=? e then Some (cond_Zopp s (Z.pos m * 2 ^ e))
      else if Z.pos m mod 2 ^ (- e) =? 0
           then Some (cond_Zopp s (Z.pos m / 2 ^ (- e)))
           else None
  | S754_infinity _ | S754_nan => None
  end.

(** [Number.isInteger]. *)
Definition Number_isInteger (x : float) : bool :=
  match integerValue x with Some _ => true | None => false end.

(** The binary64 value nearest to an integer (exact below 2^53). *)
Definition Z_to_float (z : Z) : float :=
  SF2Prim (binary_normalize prec emax z 0 false).

(** The rational a finite binary64 value denotes (0 for the others). *)
Definition float_to_Q (x : float) : Q :=
  match Prim2SF x with
  | S754_finite s m e => (inject_Z (cond_Zopp s (Z.pos m)) * Qpower 2 e)%Q
  | _ => 0%Q
  end.

(* ------------------------------------------------------------------------- *)
(** ** Aggregator: the computations of [SemiMonthlyBudgetApp] *)
(* ------------------------------------------------------------------------- *)

(** [paycheckDaysClamped]: both paydays clamped to the viewed month. *)
Definition paycheckDaysClamped (inc : IncomeConfig) (year monthIndex : Z)
  : dayNumber * dayNumber :=
  (clampDay (Day (fst (paycheckDays inc))) year monthIndex,
   clampDay (Day (snd (paycheckDays inc))) year monthIndex).

(** An element of [assigned]: [{ ...e, paycheck: ... }]. *)
Record AssignedExpense : Type := mkAssigned
  { expense : Expense;
    paycheck : option Z }.

(** [assigned]: every expense with the paycheck that [assignToPaycheck]
    gives to [e.dueDay]; the due day is passed as stored. *)
Definition assigned (exps : list Expense) (inc : IncomeConfig)
    (year monthIndex : Z) : list AssignedExpense :=
  let pdc := paycheckDaysClamped inc year monthIndex in
  List.map
    (fun e => mkAssigned e
       (assignToPaycheck (Day (dueDay e)) (fst pdc) (snd pdc) year monthIndex))
    exps.

(** [e.paycheck === n]. *)
Definition paycheck_is (n : Z) (e : AssignedExpense) : bool :=
  match paycheck e with
  | Some k => k =? n
  | None => false
  end.

Definition p1Items (asg : list AssignedExpense) : list AssignedExpense :=
  List.filter (paycheck_is 1) asg.

Definition p2Items (asg : list AssignedExpense) : list AssignedExpense :=
  List.filter (paycheck_is 2) asg.

(** [items.reduce((s, e) => s + e.amount, 0)], in binary64 arithmetic. *)
Definition reduceAmounts (items : list AssignedExpense) : float :=
  List.fold_left (fun s e => (s + amount (expense e))%float) items 0%float.

Definition p1Total (asg : list AssignedExpense) : float :=
  reduceAmounts (p1Items asg).

Definition p2Total (asg : list AssignedExpense) : float :=
  reduceAmounts (p2Items asg).

(** [p1Income] and [p2Income]: the same expression twice. *)
Definition p1Income (inc : IncomeConfig) : float :=
  (netPerPaycheck inc
   + (if 0 <? extras inc then extras inc / 2 else 0))%float.

Definition p2Income (inc : IncomeConfig) : float :=
  (netPerPaycheck inc
   + (if 0 <? extras inc then extras inc / 2 else 0))%float.

(** [addExpense] and [deleteExpense], as state updates. *)
Definition addExpense (exp : Expense) (s : BudgetState) : BudgetState :=
  mkBudgetState (income s) (expenses s ++ [exp]).

Definition deleteExpense (i : string) (s : BudgetState) : BudgetState :=
  mkBudgetState (income s)
    (List.filter (fun e => negb (String.eqb (id e) i)) (expenses s)).

(* ------------------------------------------------------------------------- *)
(** ** JavaScript values, as [JSON.parse] produces and the program inspects them *)
(* ------------------------------------------------------------------------- *)

#[local] Set Warnings "-register-all".
Inductive value : Type :=
| VUndefined
| VNull
| VBool (b : bool)
| VNumber (x : float)
| VString (s : string)
| VArray (items : list value)
| VObject (props : list (string * value)).

(** ToBoolean. *)
Definition truthy (v : value) : bool :=
  match v with
  | VUndefined | VNull => false
  | VBool b => b
  | VNumber x =>
      match Prim2SF x with
      | S754_zero _ | S754_nan => false
      | _ => true
      end
  | VString s => negb (String.eqb s "")
  | VArray _ | VObject _ => true
  end.

Definition Array_isArray (v : value) : bool :=
  match v with
  | VArray _ => true
  | _ => false
  end.

(** The own property [key] of an object literal, [undefined] when absent. *)
Fixpoint lookupProp (key : string) (props : list (string * value)) : value :=
  match props with
  | [] => VUndefined
  | (k, v) :: rest => if String.eqb k key then v else lookupProp key rest
  end.

(** [v.key] for a property name that no prototype defines (the program reads
    [income] and [expenses]): [None] is the TypeError raised on [null] and
    [undefined]; primitives and arrays have no such property. *)
Definition getProp (v : value) (key : string) : option value :=
  match v with
  | VUndefined | VNull => None
  | VObject props => Some (lookupProp key props)
  | _ => Some VUndefined
  end.

(** The object a well-typed state is in memory: keys in the order the
    program's object literals write them. *)
Definition Expense_toValue (e : Expense) : value :=
  VObject [ ("id", VString (id e));
            ("name", VString (name e));
            ("amount", VNumber (amount e));
            ("dueDay", VNumber (Z_to_float (dueDay e)));
            ("category", VString (category e)) ]%string.

Definition IncomeConfig_toValue (i : IncomeConfig) : value :=
  VObject [ ("paycheckDays",
             VArray [ VNumber (Z_to_float (fst (paycheckDays i)));
                      VNumber (Z_to_float (snd (paycheckDays i))) ]);
            ("netPerPaycheck", VNumber (netPerPaycheck i));
            ("extras", VNumber (extras i)) ]%string.

Definition BudgetState_toValue (s : BudgetState) : value :=
  VObject [ ("income", IncomeConfig_toValue (income s));
            ("expenses", VArray (List.map Expense_toValue (expenses s))) ]%string.

(* ------------------------------------------------------------------------- *)
(** ** Effects: the browser's store, [Math.random], [alert], exceptions *)
(* ------------------------------------------------------------------------- *)

(** What the program can observe of the browser.  [randomIds n] is the string
    that the [n]-th coming call of [uid()] draws from [Math.random]. *)
Record World : Type := mkWorld
  { localStorage : gmap string string;
    randomIds : nat -> string;
    alerts : list string }.

(** A statement either completes with a value or throws an error, of which
    the program only ever reads the message. *)
Inductive completion (A : Type) : Type :=
| Normal (a : A)
| Throw (message : string).
Arguments Normal {A} a.
Arguments Throw {A} message.

Definition JS (A : Type) : Type := World -> completion A * World.

Definition ret {A} (a : A) : JS A := fun w => (Normal a, w).

Definition bind {A B} (m : JS A) (k : A -> JS B) : JS B :=
  fun w =>
    match m w with
    | (Normal a, w') => k a w'
    | (Throw e, w') => (Throw e, w')
    end.

Definition throw {A} (message : string) : JS A := fun w => (Throw message, w).

(** [try { body } catch (err) { handler }], [err.message] being passed on. *)
Definition try_catch {A} (body : JS A) (handler : string -> JS A) : JS A :=
  fun w =>
    match body w with
    | (Normal a, w') => (Normal a, w')
    | (Throw e, w') => handler e w'
    end.

(** Lifts a pure computation that may throw. *)
Definition lift {A} (c : completion A) : JS A := fun w => (c, w).

Declare Scope js_scope.
Delimit Scope js_scope with js.
Notation "x <- m ;; k" := (bind m (fun x => k))
  (at level 100, m at next level, right associativity) : js_scope.
Notation "m ;;; k" := (bind m (fun _ => k))
  (at level 100, right associativity) : js_scope.

Definition localStorage_getItem (key : string) : JS (option string) :=
  fun w => (Normal (localStorage w !! key), w).

(** [localStorage.setItem]; the storage quota is not modelled. *)
Definition localStorage_setItem (key text : string) : JS unit :=
  fun w => (Normal tt,
            mkWorld (<[key := text]> (localStorage w)) (randomIds w) (alerts w)).

Definition alert (message : string) : JS unit :=
  fun w => (Normal tt,
            mkWorld (localStorage w) (randomIds w) (alerts w ++ [message])).

(** [uid()]: [Math.random().toString(36).slice(2, 9)]; one draw per call. *)
Definition uid : JS string :=
  fun w => (Normal (randomIds w 0%nat),
            mkWorld (localStorage w) (fun n => randomIds w (S n)) (alerts w)).

Definition STORAGE_KEY : string := "semiMonthlyBudget.v1".

(* ------------------------------------------------------------------------- *)
(** ** Persistence adapter and import *)
(* ------------------------------------------------------------------------- *)

Local Open Scope js_scope.

(** [!raw] for the result of [getItem]: [null] and the empty string. *)
Definition falsy_text (raw : option string) : bool :=
  match raw with
  | None => true
  | Some s => String.eqb s ""
  end.

(** One entry of the default dataset: [{ id: uid(), name, amount, dueDay,
    category }]. *)
Definition defaultExpense (nm : string) (amt : float) (day : Z) (cat : string)
  : JS Expense :=
  i <- uid ;; ret (mkExpense i nm amt day cat).

(** The object literal of the [catch] branch of [loadState], its seven
    [uid()] calls made in the order written. *)
Definition defaultState : JS value :=
  e1 <- defaultExpense "Rent" 10000 1 "fixed" ;;
  e2 <- defaultExpense "Electric" 2500 6 "fixed" ;;
  e3 <- defaultExpense "Water" 600 10 "fixed" ;;
  e4 <- defaultExpense "Groceries" 6000 18 "variable" ;;
  e5 <- defaultExpense "Mobile Plan" 999 20 "fixed" ;;
  e6 <- defaultExpense "Debt Snowball" 3000 25 "debt" ;;
  e7 <- defaultExpense "Emergency Fund" 2000 30 "savings" ;;
  ret (BudgetState_toValue
         (mkBudgetState (mkIncomeConfig (1, 16) 20000 0)
                        [e1; e2; e3; e4; e5; e6; e7])).

Section Persistence.

(** The platform's codec.  [JSON_parse] throws a SyntaxError (with some
    message) on text that is not JSON. *)
Variable JSON_parse : string -> completion value.
Variable JSON_stringify : value -> string.

(** [parsed.key], raising the TypeError of a read on [null]. *)
Definition readProp (v : value) (key : string) : JS value :=
  match getProp v key with
  | Some x => ret x
  | None => throw "Cannot read properties of null"
  end.

(** [function loadState()]. *)
Definition loadState : JS value :=
  try_catch
    (raw <- localStorage_getItem STORAGE_KEY ;;
     if falsy_text raw then throw "empty" else
     parsed <- lift (JSON_parse (default "" raw)) ;;
     inc <- readProp parsed "income" ;;
     if negb (truthy inc) then throw "invalid" else
     exps <- readProp parsed "expenses" ;;
     if negb (Array_isArray exps) then throw "invalid" else
     ret parsed)
    (fun _ => defaultState).

(** [function saveState(state)]. *)
Definition saveState (state : value) : JS unit :=
  localStorage_setItem STORAGE_KEY (JSON_stringify state).

(** [onImport], the file being read at once: [file] is the text of
    [e.target.files?.[0]], and the result is the component's state after
    the handler ([setState(parsed)] or no change). *)
Definition onImport (file : option string) (state : value) : JS value :=
  match file with
  | None => ret state
  | Some text =>
      try_catch
        (parsed <- lift (JSON_parse text) ;;
         if negb (truthy parsed) then throw "Invalid file" else
         inc <- readProp parsed "income" ;;
         if negb (truthy inc) then throw "Invalid file" else
         exps <- readProp parsed "expenses" ;;
         if negb (Array_isArray exps) then throw "Invalid file" else
         ret parsed)
        (fun message =>
           alert ("Import failed: "
                  +:+ (if String.eqb message "" then "Invalid file" else message)) ;;;
           ret state)
  end.

End Persistence.

(* ------------------------------------------------------------------------- *)
(** ** The add-expense path ([AddExpenseDialog.submit], [addExpense]) *)
(* ------------------------------------------------------------------------- *)

(** The characters that [String.prototype.trim] removes are ECMAScript's
    WhiteSpace and LineTerminator code points: U+0009 to U+000D, U+0020,
    U+00A0, U+1680, U+2000 to U+200A, U+2028, U+2029, U+202F, U+205F, U+3000
    and U+FEFF.  In UTF-8 they take one, two or three bytes. *)
Definition isWhiteSpace (c : ascii) : bool :=
  let n := nat_of_ascii c in
  ((9 <=? n) && (n <=? 13))%nat || (n =? 32)%nat.

Definition isWhiteSpace2 (c1 c2 : ascii) : bool :=
  ((nat_of_ascii c1 =? 194) && (nat_of_ascii c2 =? 160))%nat.

Definition isWhiteSpace3 (c1 c2 c3 : ascii) : bool :=
  let n1 := nat_of_ascii c1 in
  let n2 := nat_of_ascii c2 in
  let n3 := nat_of_ascii c3 in
  ((n1 =? 225) && (n2 =? 154) && (n3 =? 128)
   || (n1 =? 226) && (n2 =? 128)
      && ((128 <=? n3) && (n3 <=? 138) || (n3 =? 168) || (n3 =? 169)
          || (n3 =? 175))
   || (n1 =? 226) && (n2 =? 129) && (n3 =? 159)
   || (n1 =? 227) && (n2 =? 128) && (n3 =? 128)
   || (n1 =? 239) && (n2 =? 187) && (n3 =? 191))%nat.

(** The text after its first character, when that is white space. *)
Definition afterWhiteSpace (s : string) : option string :=
  match s with
  | String c1 r1 =>
      if isWhiteSpace c1 then Some r1
      else match r1 with
           | String c2 r2 =>
               if isWhiteSpace2 c1 c2 then Some r2
               else match r2 with
                    | String c3 r3 =>
                        if isWhiteSpace3 c1 c2 c3 then Some r3 else None
                    | EmptyString => None
                    end
           | EmptyString => None
           end
  | EmptyString => None
  end.

(** The text consists of white space only. *)
Fixpoint allWhiteSpace (s : string) : bool :=
  match s with
  | EmptyString => true
  | String c1 r1 =>
      if isWhiteSpace c1 then allWhiteSpace r1
      else match r1 with
           | String c2 r2 =>
               if isWhiteSpace2 c1 c2 then allWhiteSpace r2
               else match r2 with
                    | String c3 r3 =>
                        isWhiteSpace3 c1 c2 c3 && allWhiteSpace r3
                    | EmptyString => false
                    end
           | EmptyString => false
           end
  end.

Fixpoint trimStart (s : string) : string :=
  match s with
  | EmptyString => EmptyString
  | String c1 r1 =>
      if isWhiteSpace c1 then trimStart r1
      else match r1 with
           | String c2 r2 =>
               if isWhiteSpace2 c1 c2 then trimStart r2
               else match r2 with
                    | String c3 r3 =>
                        if isWhiteSpace3 c1 c2 c3 then trimStart r3 else s
                    | EmptyString => s
                    end
           | EmptyString => s
           end
  end.

Fixpoint trimEnd (s : string) : string :=
  match s with
  | EmptyString => EmptyString
  | String c rest =>
      if allWhiteSpace s then EmptyString else String c (trimEnd rest)
  end.

Definition trim (s : string) : string := trimEnd (trimStart s).

Module AddExpenseDialog.

(** The dialog's state hooks. *)
Record State : Type := mkState
  { open : bool;
    name : string;
    amount : string;
    dueDay : string;
    category : string }.

(** After [reset(); setOpen(false)]. *)
Definition cleared : State := mkState false "" "" "1" "fixed".

Section Submit.

(** The platform's [Number(text)]. *)
Variable Number : string -> float.

(** [function submit()]: the dialog's state afterwards and the expense
    handed to [onAdd], if any. *)
Definition submit (st : State) : JS (State * option Expense) :=
  let n := trim (name st) in
  let a := Number (amount st) in
  let d := Number (dueDay st) in
  if String.eqb n "" || negb (Number_isFinite a) || (a <=? 0)%float
     || negb (Number_isInteger d)
  then ret (st, None)
  else
    i <- uid ;;
    ret (cleared, Some (mkExpense i n a (default 0 (integerValue d)) (category st))).

End Submit.

End AddExpenseDialog.

(** Clicking Save: [submit] with [onAdd] wired to [addExpense]. *)
Definition saveClicked (Number : string -> float)
    (st : AddExpenseDialog.State) (s : BudgetState)
  : JS (AddExpenseDialog.State * BudgetState) :=
  r <- AddExpenseDialog.submit Number st ;;
  ret (fst r, match snd r with
              | Some exp => addExpense exp s
              | None => s
              end).

Local Close Scope js_scope.

(* ------------------------------------------------------------------------- *)
(** ** A text codec for JSON documents *)
(* ------------------------------------------------------------------------- *)

(** An executable codec in the format of [JSON.stringify] (no white space)
    with which the codec parameters of the persistence adapter can be
    instantiated.  Numbers are written with their exact decimal expansion
    and read back exactly when the decimal is a binary64 value, with one
    rounding otherwise; strings escape the quote and the backslash only. *)
Module JsonText.

Definition quote : ascii := "034"%char.
Definition backslash : ascii := "092"%char.

Fixpoint escape (s : string) : string :=
  match s with
  | EmptyString => EmptyString
  | String c rest =>
      if Ascii.eqb c quote || Ascii.eqb c backslash
      then String backslash (String c (escape rest))
      else String c (escape rest)
  end.

Definition print_string (s : string) : string :=
  String quote (escape s +:+ String quote EmptyString).

(** The character of the digit [d], for [d] in 0..9. *)
Definition digit (d : Z) : ascii := ascii_of_nat (48 + Z.to_nat d).

(** The last [k] decimal digits of [n], put before [tail]. *)
Fixpoint fixed_digits (k : nat) (n : Z) (tail : string) : string :=
  match k with
  | O => tail
  | S k' => fixed_digits k' (n / 10) (String (digit (n mod 10)) tail)
  end.

(** The decimal digits of [n >= 0], put before [tail]; [fuel] bounds their
    number. *)
Fixpoint digits (fuel : nat) (n : Z) (tail : string) : string :=
  match fuel with
  | O => tail
  | S f =>
      let tail' := String (digit (n mod 10)) tail in
      if n <? 10 then tail' else digits f (n / 10) tail'
  end.

Definition natural (n : Z) : string :=
  digits (S (Z.to_nat (Z.log2 n))) n EmptyString.

Definition decimal (z : Z) : string :=
  if z <? 0 then String "-" (natural (- z)) else natural z.

(** [m] as an odd number times a power of two: the odd number and the
    exponent. *)
Fixpoint odd_part (m : positive) : positive * Z :=
  match m with
  | xO p => let '(q, t) := odd_part p in (q, t + 1)
  | _ => (m, 0)
  end.

(** A finite number is [q * 2^e] with [q] odd: an integer, or
    [q * 5^(-e) / 10^(-e)], which is written with [-e] digits after the
    point. *)
Definition print_number (x : float) : string :=
  match Prim2SF x with
  | S754_zero _ => "0"
  | S754_finite s m e0 =>
      let '(q, t) := odd_part m in
      let e := e0 + t in
      (if s then "-" else "") +:+
      (if 0 <=? e then natural (Z.pos q * 2 ^ e)
       else natural (Z.pos q * 5 ^ (- e) / 10 ^ (- e)) +:+ "." +:+
            fixed_digits (Z.to_nat (- e)) (Z.pos q * 5 ^ (- e) mod 10 ^ (- e))
              EmptyString)
  | S754_infinity _ | S754_nan => "null"
  end.

Definition join (parts : list string) : string := String.concat "," parts.

(** One member of an object, [undefined] members being left out. *)
Definition print_member (k : string) (x : value) (text : string) : list string :=
  match x with
  | VUndefined => []
  | _ => [print_string k +:+ ":" +:+ text]
  end.

(** [JSON.stringify] on values: [undefined] members are left out of objects
    and written [null] in arrays. *)
Fixpoint print_value (v : value) : string :=
  match v with
  | VUndefined | VNull => "null"
  | VBool b => if b then "true" else "false"
  | VNumber x => print_number x
  | VString s => print_string s
  | VArray items => "[" +:+ join (List.map print_value items) +:+ "]"
  | VObject props =>
      "{" +:+ join (List.flat_map
                      (fun kv => print_member (fst kv) (snd kv) (print_value (snd kv)))
                      props) +:+ "}"
  end.

Definition isDigit (c : ascii) : bool :=
  let n := nat_of_ascii c in ((48 <=? n) && (n <=? 57))%nat.

(** Reads digits: the number read so far, how many were read, the rest. *)
Fixpoint read_digits (s : string) (acc : Z) (count : nat) : Z * nat * string :=
  match s with
  | String c rest =>
      if isDigit c
      then read_digits rest (10 * acc + Z.of_nat (nat_of_ascii c - 48)) (S count)
      else (acc, count, s)
  | EmptyString => (acc, count, s)
  end.

(** The binary64 value nearest to [n / 10^k], by one rounding of a quotient
    that carries a sticky bit. *)
Definition round_decimal (negative : bool) (n : Z) (k : nat) : float :=
  let shift := 1200 + 4 * Z.of_nat k in
  let scaled := n * 2 ^ shift in
  let q := scaled / 10 ^ Z.of_nat k in
  let sticky := if scaled mod 10 ^ Z.of_nat k =? 0 then 0 else 1 in
  SF2Prim (binary_normalize prec emax
             (cond_Zopp negative (2 * q + sticky)) (- (shift + 1)) false).

(** The binary64 value that is [N * 2^E] exactly, for [N > 0], when there
    is one: its mantissa at the exponent [e] of its magnitude is then an
    integer. *)
Definition binary64_at (negative : bool) (N E : Z) : option float :=
  let e := fexp prec emax (Z.log2 N + 1 + E) in
  let mantissa :=
    if E <=? e
    then (if N mod 2 ^ (e - E) =? 0 then N / 2 ^ (e - E) else 0)
    else N * 2 ^ (E - e) in
  match mantissa with
  | Z.pos m =>
      if valid_binary (S754_finite negative m e)
      then Some (SF2Prim (S754_finite negative m e))
      else None
  | _ => None
  end.

(** The binary64 value that is [n / 10^k] exactly, when there is one:
    [n / 10^k] is then [N / 2^k] for an integer [N]. *)
Definition exact_binary64 (negative : bool) (n : Z) (k : nat) : option float :=
  if n mod 5 ^ Z.of_nat k =? 0
  then binary64_at negative (n / 5 ^ Z.of_nat k) (- Z.of_nat k)
  else None.

(** The value of the decimal [n / 10^k], negated when [negative]. *)
Definition of_decimal (negative : bool) (n : Z) (k : nat) : float :=
  if n =? 0 then (if negative then (-0)%float else 0%float)
  else match exact_binary64 negative n k with
       | Some x => x
       | None => round_decimal negative n k
       end.

Definition read_number (s : string) : option (float * string) :=
  let '(negative, s1) :=
    match s with
    | String c rest => if Ascii.eqb c "-" then (true, rest) else (false, s)
    | EmptyString => (false, s)
    end in
  let '(whole, count, s2) := read_digits s1 0 0 in
  match count with
  | O => None
  | S _ =>
      match s2 with
      | String c rest =>
          if Ascii.eqb c "." then
            let '(all, places, s3) := read_digits rest whole 0 in
            match places with
            | O => None
            | S _ => Some (of_decimal negative all places, s3)
            end
          else Some (of_decimal negative whole 0, s2)
      | EmptyString => Some (of_decimal negative whole 0, s2)
      end
  end.

(** The characters of a string literal after its opening quote. *)
Fixpoint read_string (s : string) : option (string * string) :=
  match s with
  | EmptyString => None
  | String c rest =>
      if Ascii.eqb c quote then Some (EmptyString, rest)
      else if Ascii.eqb c backslash then
        match rest with
        | String c' rest' =>
            match read_string rest' with
            | Some (body, tail) => Some (String c' body, tail)
            | None => None
            end
        | EmptyString => None
        end
      else
        match read_string rest with
        | Some (body, tail) => Some (String c body, tail)
        | None => None
        end
  end.

(** [s] without its prefix [word], when it starts with it. *)
Fixpoint after_word (word s : string) : option string :=
  match word, s with
  | EmptyString, _ => Some s
  | String a word', String b s' =>
      if Ascii.eqb a b then after_word word' s' else None
  | String _ _, EmptyString => None
  end.

Fixpoint read_value (fuel : nat) (s : string) : option (value * string) :=
  match fuel with
  | O => None
  | S f =>
      match s with
      | EmptyString => None
      | String c rest =>
          if Ascii.eqb c quote then
            match read_string rest with
            | Some (body, tail) => Some (VString body, tail)
            | None => None
            end
          else if Ascii.eqb c "[" then
            match rest with
            | String c' rest' =>
                if Ascii.eqb c' "]" then Some (VArray [], rest')
                else match read_elements f rest with
                     | Some (items, tail) => Some (VArray items, tail)
                     | None => None
                     end
            | EmptyString => None
            end
          else if Ascii.eqb c "{" then
            match rest with
            | String c' rest' =>
                if Ascii.eqb c' "}" then Some (VObject [], rest')
                else match read_members f rest with
                     | Some (props, tail) => Some (VObject props, tail)
                     | None => None
                     end
            | EmptyString => None
            end
          else if Ascii.eqb c "n" then
            match after_word "ull" rest with
            | Some tail => Some (VNull, tail)
            | None => None
            end
          else if Ascii.eqb c "t" then
            match after_word "rue" rest with
            | Some tail => Some (VBool true, tail)
            | None => None
            end
          else if Ascii.eqb c "f" then
            match after_word "alse" rest with
            | Some tail => Some (VBool false, tail)
            | None => None
            end
          else
            match read_number s with
            | Some (x, tail) => Some (VNumber x, tail)
            | None => None
            end
      end
  end
with read_elements (fuel : nat) (s : string) : option (list value * string) :=
  match fuel with
  | O => None
  | S f =>
      match read_value f s with
      | Some (v, String c rest) =>
          if Ascii.eqb c "," then
            match read_elements f rest with
            | Some (vs, tail) => Some (v :: vs, tail)
            | None => None
            end
          else if Ascii.eqb c "]" then Some ([v], rest)
          else None
      | _ => None
      end
  end
with read_members (fuel : nat) (s : string) : option (list (string * value) * string) :=
  match fuel with
  | O => None
  | S f =>
      match s with
      | String c rest =>
          if Ascii.eqb c quote then
            match read_string rest with
            | Some (key, String c' rest') =>
                if Ascii.eqb c' ":" then
                  match read_value f rest' with
                  | Some (v, String c'' rest'') =>
                      if Ascii.eqb c'' "," then
                        match read_members f rest'' with
                        | Some (kvs, tail) => Some ((key, v) :: kvs, tail)
                        | None => None
                        end
                      else if Ascii.eqb c'' "}" then Some ([(key, v)], rest'')
                      else None
                  | _ => None
                  end
                else None
            | _ => None
            end
          else None
      | EmptyString => None
      end
  end.

Definition JSON_stringify (v : value) : string := print_value v.

(** [JSON.parse]: the whole text must be one value. *)
Definition JSON_parse (text : string) : completion value :=
  match read_value (S (String.length text)) text with
  | Some (v, EmptyString) => Normal v
  | _ => Throw "Unexpected token in JSON"
  end.

End JsonText.

(* ------------------------------------------------------------------------- *)
(** ** Vocabulary of the statements *)
(* ------------------------------------------------------------------------- *)

(** The definitions of this part are not in the program: they name what the
    properties below speak about. *)

(** *** Sums of amounts *)

(** The sum of all amounts, reduced the way the program reduces its totals
    ([expenses.reduce((s, e) => s + e.amount, 0)]). *)
Definition sumOfAmounts (exps : list Expense) : float :=
  List.fold_left (fun s e => (s + amount e)%float) exps 0%float.

(** The sum of all amounts as a number, without rounding. *)
Definition exactSum (exps : list Expense) : Q :=
  List.fold_right (fun e acc => (float_to_Q (amount e) + acc)%Q) 0%Q exps.

Definition exactSumOf (items : list AssignedExpense) : Q :=
  exactSum (List.map expense items).

(** The binary64 addition [x + y] is finite and did not round. *)
Definition exact_add (x y : float) : Prop :=
  Number_isFinite (x + y)%float = true /\
  (float_to_Q (x + y)%float == float_to_Q x + float_to_Q y)%Q.

(** No addition of [items.reduce((s, e) => s + e.amount, acc)] rounds. *)
Fixpoint exact_reduce (acc : float) (items : list AssignedExpense) : Prop :=
  match items with
  | [] => True
  | e :: rest =>
      exact_add acc (amount (expense e))
      /\ exact_reduce (acc + amount (expense e))%float rest
  end.

(** *** Documents and worlds *)

(** The shape both [loadState] and [onImport] ask of a parsed document: a
    truthy [income] and an array [expenses] ([null] has neither). *)
Definition hasRequiredShape (v : value) : bool :=
  match getProp v "income", getProp v "expenses" with
  | Some inc, Some exps => truthy inc && Array_isArray exps
  | _, _ => false
  end.

(** The default dataset, given the ids that the seven [uid()] calls draw. *)
Definition defaultDataset (ids : nat -> string) : BudgetState :=
  mkBudgetState (mkIncomeConfig (1, 16) 20000 0)
    [ mkExpense (ids 0%nat) "Rent" 10000 1 "fixed";
      mkExpense (ids 1%nat) "Electric" 2500 6 "fixed";
      mkExpense (ids 2%nat) "Water" 600 10 "fixed";
      mkExpense (ids 3%nat) "Groceries" 6000 18 "variable";
      mkExpense (ids 4%nat) "Mobile Plan" 999 20 "fixed";
      mkExpense (ids 5%nat) "Debt Snowball" 3000 25 "debt";
      mkExpense (ids 6%nat) "Emergency Fund" 2000 30 "savings" ].

(** The world after [n] draws of [uid()]. *)
Definition afterDraws (n : nat) (w : World) : World :=
  mkWorld (localStorage w) (fun k => randomIds w (n + k)%nat) (alerts w).

(** The world after [alert(message)]. *)
Definition afterAlert (message : string) (w : World) : World :=
  mkWorld (localStorage w) (randomIds w) (alerts w ++ [message]).

(** The world after [localStorage.setItem(STORAGE_KEY, text)]. *)
Definition afterStore (text : string) (w : World) : World :=
  mkWorld (<[STORAGE_KEY := text]> (localStorage w)) (randomIds w) (alerts w).

(** *** The expense collection *)

(** The invariant of the expense collection: positive amounts, due days in
    1..31, pairwise distinct ids. *)
Definition expenseInvariant (exps : list Expense) : Prop :=
  Forall (fun e => (0 <? amount e)%float = true /\ 1 <= dueDay e <= 31) exps /\
  List.NoDup (List.map id exps).

(** *** What JSON keeps of a value *)

(** What JSON keeps of a number: a finite number (zero without its sign),
    and [null] for the others. *)
Definition jsonNumber (x : float) : value :=
  match Prim2SF x with
  | S754_zero _ => VNumber 0
  | S754_finite _ _ _ => VNumber x
  | S754_infinity _ | S754_nan => VNull
  end.

(** What JSON keeps of a value: [undefined] members of objects are left
    out, and [undefined] elements of arrays become [null]. *)
Definition jsonMember (k : string) (x image : value) : list (string * value) :=
  match x with
  | VUndefined => []
  | _ => [(k, image)]
  end.

Fixpoint jsonImage (v : value) : value :=
  match v with
  | VUndefined => VNull
  | VNumber x => jsonNumber x
  | VArray items => VArray (List.map jsonImage items)
  | VObject props =>
      VObject (List.flat_map
                 (fun kv => jsonMember (fst kv) (snd kv) (jsonImage (snd kv)))
                 props)
  | _ => v
  end.

(** A number that JSON writes and reads back unchanged: finite, and not
    the negative zero. *)
Definition storable (x : float) : bool :=
  match Prim2SF x with
  | S754_zero s => negb s
  | S754_finite _ _ _ => true
  | S754_infinity _ | S754_nan => false
  end.

(** All numbers of a state are of that kind. *)
Definition storableState (s : BudgetState) : Prop :=
  (storable (Z_to_float (fst (paycheckDays (income s)))) = true /\
   storable (Z_to_float (snd (paycheckDays (income s)))) = true /\
   storable (netPerPaycheck (income s)) = true /\
   storable (extras (income s)) = true) /\
  List.Forall
    (fun e => storable (amount e) = true /\
              storable (Z_to_float (dueDay e)) = true)
    (expenses s).

(** *** Concrete instances, for the examples *)

(** [Number(text)] on plain decimal literals ([NaN] on any other text). *)
Definition decimalNumber (text : string) : float :=
  match JsonText.read_number text with
  | Some (x, EmptyString) => x
  | _ => nan
  end.

(** A browser with an empty store, whose [uid()] draws 0, 1, 2, ... *)
Definition freshWorld : World :=
  mkWorld ∅ (fun n => JsonText.decimal (Z.of_nat n)) [].

(** A browser whose every [uid()] draws the same string. *)
Definition stuckWorld (i : string) : World :=
  mkWorld ∅ (fun _ => i) [].

(** A small well-formed state. *)
Definition sampleState : BudgetState :=
  mkBudgetState (mkIncomeConfig (15, 30) 18000 500)
    [ mkExpense "k3x9p1a" "Rent" 10000 1 "fixed";
      mkExpense "b7q2m4z" "Internet" (29995 / 10)%float 20 "variable" ].

(** A state of the right shape that satisfies the invariant of the
    collection and holds an infinite amount (as an imported file can bring
    in with a literal beyond the binary64 range). *)
Definition overflowState : BudgetState :=
  mkBudgetState (mkIncomeConfig (1, 16) 20000 0)
    [ mkExpense "k3x9p1a" "Rent" infinity 1 "fixed" ].

(** The expenses of the rounding example: 999.99 due on day 5, 2500.1 on
    day 20 and 3000.7 on day 25. *)
Definition roundingExpenses : list Expense :=
  [ mkExpense "a" "Mobile Plan" (99999 / 100)%float 5 "fixed";
    mkExpense "b" "Electric" (25001 / 10)%float 20 "fixed";
    mkExpense "c" "Debt Snowball" (30007 / 10)%float 25 "debt" ].

(* ------------------------------------------------------------------------- *)
(** ** Properties of the calendar and of the two utilities *)
(* ------------------------------------------------------------------------- *)

(** Evaluates the arithmetic of closed numerals in the goal. *)
Ltac ground_arith :=
  repeat match goal with
  | |- context [Z.modulo (Zpos ?a) (Zpos ?b)] =>
      let v := eval vm_compute in (Z.modulo (Zpos a) (Zpos b)) in
      change (Z.modulo (Zpos a) (Zpos b)) with v
  | |- context [Z.modulo 0 (Zpos ?b)] => change (Z.modulo 0 (Zpos b)) with 0
  | |- context [Z.div (Zpos ?a) (Zpos ?b)] =>
      let v := eval vm_compute in (Z.div (Zpos a) (Zpos b)) in
      change (Z.div (Zpos a) (Zpos b)) with v
  | |- context [Z.div 0 (Zpos ?b)] => change (Z.div 0 (Zpos b)) with 0
  | |- context [Z.add (Zpos ?a) (Zpos ?b)] =>
      let v := eval vm_compute in (Z.add (Zpos a) (Zpos b)) in
      change (Z.add (Zpos a) (Zpos b)) with v
  | |- context [Z.add 0 (Zpos ?b)] => change (Z.add 0 (Zpos b)) with (Zpos b)
  | |- context [Z.mul (Zpos ?a) (Zpos ?b)] =>
      let v := eval vm_compute in (Z.mul (Zpos a) (Zpos b)) in
      change (Z.mul (Zpos a) (Zpos b)) with v
  | |- context [Z.mul (Zpos ?a) 0] => change (Z.mul (Zpos a) 0) with 0
  | |- context [Z.leb (Zpos ?a) (Zpos ?b)] =>
      let v := eval vm_compute in (Z.leb (Zpos a) (Zpos b)) in
      change (Z.leb (Zpos a) (Zpos b)) with v
  | |- context [Z.leb 0 (Zpos ?b)] => change (Z.leb 0 (Zpos b)) with true
  end.

(** The month table of [getDaysInMonth] is what the day numbers give: the
    last day of a month is as many days after its first as the table says. *)
Lemma MakeDay_month_length (y m : Z) :
  0 <= m <= 11 ->
  DateFns.MakeDay y (m + 1) 0 - DateFns.MakeDay y m 1 + 1
  = match m with
    | 1 => if DateFns.isLeapYear y then 29 else 28
    | 3 | 5 | 8 | 10 => 30
    | _ => 31
    end.
Proof.
  intros Hm.
  assert (Hc : m = 0 \/ m = 1 \/ m = 2 \/ m = 3 \/ m = 4 \/ m = 5 \/ m = 6
               \/ m = 7 \/ m = 8 \/ m = 9 \/ m = 10 \/ m = 11) by lia.
  unfold DateFns.isLeapYear.
  repeat (destruct Hc as [-> | Hc]); try subst m;
    unfold DateFns.MakeDay; cbv zeta; ground_arith; cbv iota;
    try (Z.div_mod_to_equations; lia).
  destruct (Z.eqb_spec (y mod 4) 0), (Z.eqb_spec (y mod 100) 0),
    (Z.eqb_spec (y mod 400) 0); cbn [andb orb negb];
    Z.div_mod_to_equations; lia.
Qed.

(** The months of the calendar, counted from January of year 0; a year in
    0..99 stands for 1900 + year. *)
Definition monthCount (year monthIndex : Z) : Z :=
  12 * (if (0 <=? year) && (year <=? 99) then 1900 + year else year)
  + monthIndex.

(** The months that a [Date] can hold from their first to their last day:
    May -271821 to August 275760. *)
Definition validMonth (year monthIndex : Z) : Prop :=
  -271821 * 12 + 4 <= monthCount year monthIndex <= 275760 * 12 + 7.

Lemma MakeDay_in_range (yr m : Z) :
  (- DateFns.maxDay < DateFns.MakeDay yr m 1
   <-> -271821 * 12 + 4 <= 12 * yr + m) /\
  (DateFns.MakeDay yr m 1 < DateFns.maxDay -> 12 * yr + m <= 275760 * 12 + 8) /\
  (12 * yr + m <= 275760 * 12 + 7 -> DateFns.MakeDay yr m 1 < DateFns.maxDay) /\
  (DateFns.MakeDay (yr + m / 12) (m mod 12 + 1) 0 < DateFns.maxDay
   <-> 12 * yr + m <= 275760 * 12 + 7) /\
  (-271821 * 12 + 4 <= 12 * yr + m ->
   - DateFns.maxDay < DateFns.MakeDay (yr + m / 12) (m mod 12 + 1) 0).
Proof.
  unfold DateFns.MakeDay, DateFns.maxDay. cbv zeta.
  destruct (Z.leb_spec (m mod 12) 1), (Z.leb_spec ((m mod 12 + 1) mod 12) 1);
    repeat split; Z.div_mod_to_equations; lia.
Qed.

Lemma TimeClip_cases (day : Z) :
  (DateFns.TimeClip day = Some day /\ - DateFns.maxDay < day < DateFns.maxDay) \/
  (DateFns.TimeClip day = None /\ ~ - DateFns.maxDay < day < DateFns.maxDay).
Proof.
  unfold DateFns.TimeClip.
  destruct (Z.ltb_spec (- DateFns.maxDay) day), (Z.ltb_spec day DateFns.maxDay);
    cbn [andb]; [left | right | right | right]; (split; [reflexivity | lia]).
Qed.

(** The month length is a number of days, 28 to 31, exactly on the months
    that a [Date] can hold, and [NaN] on all others. *)
Lemma daysInMonth_cases (year monthIndex : Z) :
  (validMonth year monthIndex /\
   exists dim, daysInMonth year monthIndex = Day dim /\ 28 <= dim <= 31) \/
  (~ validMonth year monthIndex /\ daysInMonth year monthIndex = NaN).
Proof.
  unfold validMonth, monthCount, daysInMonth, DateFns.new_Date.
  set (yr := if (0 <=? year) && (year <=? 99) then 1900 + year else year).
  destruct (MakeDay_in_range yr monthIndex) as (Hlo & Hhi1 & Hhi2 & Hlast & Hlast').
  destruct (TimeClip_cases (DateFns.MakeDay yr monthIndex 1))
    as [[-> Hfirst] | [-> Hfirst]].
  - cbn [DateFns.getDaysInMonth DateFns.getFullYear DateFns.getMonth].
    destruct (TimeClip_cases
                (DateFns.MakeDay (yr + monthIndex / 12) (monthIndex mod 12 + 1) 0))
      as [[-> Hend] | [-> Hend]].
    + left. split; [split; [apply Hlo | apply Hlast]; lia |].
      eexists. split; [reflexivity |].
      pose proof (Z.mod_pos_bound monthIndex 12 ltac:(lia)) as Hm.
      destruct (monthIndex mod 12) as [| p | p]; try lia.
      repeat (destruct p as [p | p |]; try lia).
      destruct (DateFns.isLeapYear _); lia.
    + right. split; [| reflexivity].
      intros [Hv1 Hv2]. apply Hend. split; [apply Hlast' | apply Hlast]; lia.
  - right. split; [| reflexivity].
    intros [Hv1 Hv2]. apply Hfirst. split; [apply Hlo | apply Hhi2]; lia.
Qed.

Lemma daysInMonth_range (year monthIndex dim : Z) :
  daysInMonth year monthIndex = Day dim -> 28 <= dim <= 31.
Proof.
  intros Hdim.
  destruct (daysInMonth_cases year monthIndex)
    as [(_ & d & Hd & Hrange) | (_ & Hnan)]; congruence.
Qed.

Lemma daysInMonth_valid (year monthIndex : Z) :
  validMonth year monthIndex <-> daysInMonth year monthIndex <> NaN.
Proof.
  destruct (daysInMonth_cases year monthIndex)
    as [(Hv & d & Hd & _) | (Hv & Hnan)].
  - rewrite Hd. split; [discriminate | intros _; exact Hv].
  - rewrite Hnan. split; [contradiction | congruence].
Qed.

Lemma clampDay_unfold (day : dayNumber) (year monthIndex : Z) :
  clampDay day year monthIndex
  = DayNumber.Math_min (DayNumber.Math_max (Day 1) day)
      (daysInMonth year monthIndex).
Proof. reflexivity. Qed.

(** [clampDay] on a month of [dim] days. *)
Lemma clampDay_Day (d year monthIndex dim : Z) :
  daysInMonth year monthIndex = Day dim ->
  clampDay (Day d) year monthIndex = Day (Z.min (Z.max 1 d) dim).
Proof. intros Hdim. rewrite clampDay_unfold, Hdim. reflexivity. Qed.

(** [clampDay] of [NaN], and on a month without a length. *)
Lemma clampDay_NaN (day : dayNumber) (year monthIndex : Z) :
  day = NaN \/ daysInMonth year monthIndex = NaN ->
  clampDay day year monthIndex = NaN.
Proof.
  rewrite clampDay_unfold. intros [-> | ->]; [reflexivity |].
  destruct day; reflexivity.
Qed.

Lemma clampDay_range (d year monthIndex dim : Z) :
  daysInMonth year monthIndex = Day dim ->
  exists r, clampDay (Day d) year monthIndex = Day r /\ 1 <= r <= dim.
Proof.
  intros Hdim. pose proof (daysInMonth_range _ _ _ Hdim).
  rewrite (clampDay_Day d _ _ dim Hdim). eexists. split; [reflexivity | lia].
Qed.

Lemma clampDay_fixes (d year monthIndex dim : Z) :
  daysInMonth year monthIndex = Day dim ->
  1 <= d <= dim ->
  clampDay (Day d) year monthIndex = Day d.
Proof.
  intros Hdim Hd. rewrite (clampDay_Day d _ _ dim Hdim). f_equal. lia.
Qed.

Lemma clampDay_idempotent (day : dayNumber) (year monthIndex : Z) :
  clampDay (clampDay day year monthIndex) year monthIndex
  = clampDay day year monthIndex.
Proof.
  destruct (daysInMonth year monthIndex) as [| dim] eqn:Hdim.
  - rewrite !(clampDay_NaN _ year monthIndex) by (right; exact Hdim).
    reflexivity.
  - destruct day as [| d]; [rewrite !clampDay_NaN by (left; reflexivity); reflexivity |].
    pose proof (daysInMonth_range _ _ _ Hdim).
    rewrite (clampDay_Day d _ _ dim Hdim), (clampDay_Day _ _ _ dim Hdim).
    f_equal. lia.
Qed.

(** A day of the viewed month: [1 <= p <= daysInMonth(year, monthIndex)],
    which no number satisfies when the month length is [NaN]. *)
Definition dayOfMonth (p year monthIndex : Z) : Prop :=
  1 <= p /\ DayNumber.le (Day p) (daysInMonth year monthIndex).

Lemma dayOfMonth_Day (p year monthIndex : Z) :
  dayOfMonth p year monthIndex ->
  exists dim, daysInMonth year monthIndex = Day dim /\ 1 <= p <= dim.
Proof.
  unfold dayOfMonth, DayNumber.le. intros [H1 H2].
  destruct (daysInMonth year monthIndex) as [| dim]; [discriminate H2 |].
  exists dim. split; [reflexivity |]. simpl in H2. lia.
Qed.

(** What [assignToPaycheck] computes, in terms of the clamped paydays: a
    label when the due day and both clamped paydays are numbers, and
    [undefined] when one of them is [NaN]. *)
Lemma assignToPaycheck_spec (dueDay p1 p2 : dayNumber) (year monthIndex : Z) :
  assignToPaycheck dueDay p1 p2 year monthIndex
  = match dueDay, clampDay p1 year monthIndex, clampDay p2 year monthIndex with
    | Day d, Day a, Day b =>
        if (Z.min a b <? d) && (d <=? Z.max a b) then Some 1 else Some 2
    | _, _, _ => None
    end.
Proof.
  unfold assignToPaycheck.
  destruct (clampDay p1 year monthIndex) as [| a],
    (clampDay p2 year monthIndex) as [| b], dueDay as [| d];
    try reflexivity.
  cbn [DayNumber.Math_min DayNumber.Math_max DayNumber.ltb DayNumber.leb].
  destruct (Z.ltb_spec (Z.min a b) d), (Z.leb_spec d (Z.max a b));
    cbn [andb]; try reflexivity.
  - destruct (Z.ltb_spec (Z.max a b) d); [reflexivity | lia].
  - destruct (Z.ltb_spec (Z.max a b) d), (Z.leb_spec d (Z.min a b));
      cbn [orb]; solve [reflexivity | lia].
  - destruct (Z.ltb_spec (Z.max a b) d); [reflexivity | lia].
Qed.

(** On a month that has no length every due day is left without a label. *)
Lemma assignToPaycheck_NaN (dueDay p1 p2 : dayNumber) (year monthIndex : Z) :
  daysInMonth year monthIndex = NaN ->
  assignToPaycheck dueDay p1 p2 year monthIndex = None.
Proof.
  intros Hnan. rewrite assignToPaycheck_spec.
  rewrite (clampDay_NaN p1) by (right; exact Hnan).
  destruct dueDay; reflexivity.
Qed.

(** On a month of [dim] days the label is decided by the interval of the
    clamped paydays. *)
Lemma assignToPaycheck_Day (d p1 p2 year monthIndex dim : Z) :
  daysInMonth year monthIndex = Day dim ->
  let first := Z.min (Z.min (Z.max 1 p1) dim) (Z.min (Z.max 1 p2) dim) in
  let second := Z.max (Z.min (Z.max 1 p1) dim) (Z.min (Z.max 1 p2) dim) in
  (first < d <= second /\
   assignToPaycheck (Day d) (Day p1) (Day p2) year monthIndex = Some 1) \/
  (~ first < d <= second /\
   assignToPaycheck (Day d) (Day p1) (Day p2) year monthIndex = Some 2).
Proof.
  intros Hdim first second. rewrite assignToPaycheck_spec.
  rewrite (clampDay_Day p1 _ _ dim Hdim), (clampDay_Day p2 _ _ dim Hdim).
  fold first second.
  destruct (Z.ltb_spec first d), (Z.leb_spec d second); cbn [andb];
    [left | right | right | right]; (split; [lia | reflexivity]).
Qed.

(** The paycheck of the default Rent entry: due on the first payday, it
    falls to paycheck 2. *)
Example assignToPaycheck_rent :
  assignToPaycheck (Day 1) (Day 1) (Day 16) 2025 0 = Some 2.
Proof. reflexivity. Qed.

(** A payday that already lies in the month is left alone by the clamp that
    [assignToPaycheck] applies once more. *)
Lemma assignToPaycheck_clamped (dueDay p1 p2 year monthIndex : Z) :
  dayOfMonth p1 year monthIndex ->
  dayOfMonth p2 year monthIndex ->
  (Z.min p1 p2 < dueDay <= Z.max p1 p2 /\
   assignToPaycheck (Day dueDay) (Day p1) (Day p2) year monthIndex = Some 1) \/
  (~ Z.min p1 p2 < dueDay <= Z.max p1 p2 /\
   assignToPaycheck (Day dueDay) (Day p1) (Day p2) year monthIndex = Some 2).
Proof.
  intros H1 H2.
  destruct (dayOfMonth_Day _ _ _ H1) as (dim & Hdim & Hp1).
  destruct (dayOfMonth_Day _ _ _ H2) as (dim' & Hdim' & Hp2).
  assert (dim' = dim) by congruence. subst dim'.
  pose proof (assignToPaycheck_Day dueDay p1 p2 year monthIndex dim Hdim) as H.
  cbv zeta in H.
  replace (Z.min (Z.max 1 p1) dim) with p1 in H by lia.
  replace (Z.min (Z.max 1 p2) dim) with p2 in H by lia.
  exact H.
Qed.

(** C1.  For a due day in 1..31 and paydays that lie in the viewed month,
    [assignToPaycheck] returns one of the labels 1 and 2 (never [undefined]),
    and it returns 1 exactly when [first < dueDay <= second], where [first]
    and [second] are the smaller and the larger payday. *)
Theorem assignToPaycheck_one_label_iff (dueDay p1 p2 year monthIndex : Z) :
  1 <= dueDay <= 31 ->
  dayOfMonth p1 year monthIndex ->
  dayOfMonth p2 year monthIndex ->
  let first := Z.min p1 p2 in
  let second := Z.max p1 p2 in
  (assignToPaycheck (Day dueDay) (Day p1) (Day p2) year monthIndex = Some 1 \/
   assignToPaycheck (Day dueDay) (Day p1) (Day p2) year monthIndex = Some 2) /\
  (assignToPaycheck (Day dueDay) (Day p1) (Day p2) year monthIndex = Some 1 <->
   first < dueDay /\ dueDay <= second).
Proof.
  intros _ H1 H2 first second.
  destruct (assignToPaycheck_clamped dueDay p1 p2 year monthIndex H1 H2)
    as [[Hin Heq] | [Hout Heq]]; rewrite Heq; subst first second.
  - split; [left; reflexivity | split; [intros _; exact Hin | reflexivity]].
  - split; [right; reflexivity |].
    split; [discriminate | intros Hin; contradiction].
Qed.

Lemma assignToPaycheck_one_label_iff_witness :
  (1 <= 10 <= 31 /\ dayOfMonth 1 2025 0 /\ dayOfMonth 16 2025 0) /\
  (assignToPaycheck (Day 10) (Day 1) (Day 16) 2025 0 = Some 1 \/
   assignToPaycheck (Day 10) (Day 1) (Day 16) 2025 0 = Some 2) /\
  (assignToPaycheck (Day 10) (Day 1) (Day 16) 2025 0 = Some 1 <->
   Z.min 1 16 < 10 /\ 10 <= Z.max 1 16).
Proof.
  assert (H : 1 <= 10 <= 31 /\ dayOfMonth 1 2025 0 /\ dayOfMonth 16 2025 0).
  { split; [lia |]. split; (split; [lia | reflexivity]). }
  split; [exact H |].
  destruct H as (Hd & H1 & H2).
  exact (assignToPaycheck_one_label_iff 10 1 16 2025 0 Hd H1 H2).
Defined.

(** C2, as stated, fails when both paydays fall on the same day: the later
    payday gets label 2, not 1, because period 1, [(first, second]], is
    then empty. *)
Lemma assignToPaycheck_equal_paydays_counterexample :
  dayOfMonth 15 2025 0 /\
  ~ (assignToPaycheck (Day (Z.min 15 15)) (Day 15) (Day 15) 2025 0 = Some 2 /\
     assignToPaycheck (Day (Z.max 15 15)) (Day 15) (Day 15) 2025 0 = Some 1).
Proof.
  split.
  - split; [lia | reflexivity].
  - intros [_ H]. vm_compute in H. discriminate H.
Qed.

(** C2, amended.  For paydays that lie in the viewed month, the earlier
    payday itself always gets label 2; the later payday gets label 1 when the
    two paydays differ, and label 2 when they coincide. *)
Theorem assignToPaycheck_boundaries (p1 p2 year monthIndex : Z) :
  dayOfMonth p1 year monthIndex ->
  dayOfMonth p2 year monthIndex ->
  let first := Z.min p1 p2 in
  let second := Z.max p1 p2 in
  assignToPaycheck (Day first) (Day p1) (Day p2) year monthIndex = Some 2 /\
  (p1 <> p2 ->
   assignToPaycheck (Day second) (Day p1) (Day p2) year monthIndex = Some 1) /\
  (p1 = p2 ->
   assignToPaycheck (Day second) (Day p1) (Day p2) year monthIndex = Some 2).
Proof.
  intros H1 H2 first second. subst first second.
  repeat split.
  - destruct (assignToPaycheck_clamped (Z.min p1 p2) p1 p2 year monthIndex H1 H2)
      as [[Hin _] | [_ Heq]]; [lia | exact Heq].
  - intros Hne.
    destruct (assignToPaycheck_clamped (Z.max p1 p2) p1 p2 year monthIndex H1 H2)
      as [[_ Heq] | [Hout _]]; [exact Heq | lia].
  - intros Heq.
    destruct (assignToPaycheck_clamped (Z.max p1 p2) p1 p2 year monthIndex H1 H2)
      as [[Hin _] | [_ Heq']]; [lia | exact Heq'].
Qed.

Lemma assignToPaycheck_boundaries_witness :
  (dayOfMonth 16 2024 1 /\ dayOfMonth 1 2024 1) /\
  assignToPaycheck (Day (Z.min 16 1)) (Day 16) (Day 1) 2024 1 = Some 2 /\
  (16 <> 1 ->
   assignToPaycheck (Day (Z.max 16 1)) (Day 16) (Day 1) 2024 1 = Some 1) /\
  (16 = 1 ->
   assignToPaycheck (Day (Z.max 16 1)) (Day 16) (Day 1) 2024 1 = Some 2).
Proof.
  assert (H : dayOfMonth 16 2024 1 /\ dayOfMonth 1 2024 1).
  { split; (split; [lia | reflexivity]). }
  split; [exact H |].
  destruct H as (H1 & H2).
  exact (assignToPaycheck_boundaries 16 1 2024 1 H1 H2).
Defined.

(** C5, as stated, fails for the years that a [Date] cannot hold: the View
    Year field takes 300000, the date of that January is an Invalid Date,
    the month has no length, and [clampDay] returns [NaN], which is not a day
    from 1 on. *)
Lemma clampDay_invalid_date_counterexample :
  daysInMonth 300000 0 = NaN /\
  clampDay (Day 15) 300000 0 = NaN /\
  ~ (DayNumber.le (Day 1) (clampDay (Day 15) 300000 0) /\
     DayNumber.le (clampDay (Day 15) 300000 0) (daysInMonth 300000 0)).
Proof.
  split; [reflexivity |]. split; [reflexivity |].
  intros [H _]. vm_compute in H. discriminate H.
Qed.

(** C5, amended.  On the months that a [Date] can hold (May -271821 to
    August 275760, month indices outside 0..11 carrying into the year and
    the years 0..99 standing for 1900..1999) the month has a length of 28 to
    31 days and [clampDay(d, year, monthIndex)] is
    [max(1, min(d, daysInMonth(year, monthIndex)))] for every integer [d]:
    it lies in [1 .. daysInMonth], and it is [d] itself when [d] already
    lies there.  On every other month the length and [clampDay] are [NaN]. *)
Theorem clampDay_max_min (d year monthIndex : Z) :
  (validMonth year monthIndex ->
   exists dim,
     daysInMonth year monthIndex = Day dim /\ 28 <= dim <= 31 /\
     clampDay (Day d) year monthIndex = Day (Z.max 1 (Z.min d dim)) /\
     (exists r, clampDay (Day d) year monthIndex = Day r /\ 1 <= r <= dim) /\
     (1 <= d <= dim -> clampDay (Day d) year monthIndex = Day d)) /\
  (~ validMonth year monthIndex ->
   daysInMonth year monthIndex = NaN /\ clampDay (Day d) year monthIndex = NaN).
Proof.
  destruct (daysInMonth_cases year monthIndex)
    as [(Hv & dim & Hdim & Hrange) | (Hv & Hnan)]; split;
    try (intros; contradiction).
  - intros _. exists dim. split; [exact Hdim |]. split; [exact Hrange |].
    split; [rewrite (clampDay_Day d _ _ dim Hdim); f_equal; lia |].
    split; [apply clampDay_range; exact Hdim |].
    apply clampDay_fixes. exact Hdim.
  - intros _. split; [exact Hnan | apply clampDay_NaN; right; exact Hnan].
Qed.

Lemma clampDay_max_min_witness :
  (validMonth 2024 1 /\ ~ validMonth 300000 0) /\
  (exists dim,
     daysInMonth 2024 1 = Day dim /\ 28 <= dim <= 31 /\
     clampDay (Day 31) 2024 1 = Day (Z.max 1 (Z.min 31 dim)) /\
     (exists r, clampDay (Day 31) 2024 1 = Day r /\ 1 <= r <= dim) /\
     (1 <= 31 <= dim -> clampDay (Day 31) 2024 1 = Day 31)) /\
  daysInMonth 300000 0 = NaN /\ clampDay (Day 31) 300000 0 = NaN.
Proof.
  assert (H : validMonth 2024 1 /\ ~ validMonth 300000 0).
  { unfold validMonth. vm_compute. split; [split; discriminate |].
    intros [_ H]. apply H. reflexivity. }
  split; [exact H |]. destruct H as [Hv Hnv].
  split.
  - exact (proj1 (clampDay_max_min 31 2024 1) Hv).
  - exact (proj2 (clampDay_max_min 31 300000 0) Hnv).
Defined.

Lemma assignToPaycheck_preclamp (dueDay p1 p2 : dayNumber) (year monthIndex : Z) :
  assignToPaycheck dueDay (clampDay p1 year monthIndex)
    (clampDay p2 year monthIndex) year monthIndex
  = assignToPaycheck dueDay p1 p2 year monthIndex.
Proof.
  unfold assignToPaycheck. rewrite !clampDay_idempotent. reflexivity.
Qed.

Lemma Math_min_comm (a b : dayNumber) :
  DayNumber.Math_min a b = DayNumber.Math_min b a.
Proof. destruct a, b; try reflexivity. simpl. f_equal. apply Z.min_comm. Qed.

Lemma Math_max_comm (a b : dayNumber) :
  DayNumber.Math_max a b = DayNumber.Math_max b a.
Proof. destruct a, b; try reflexivity. simpl. f_equal. apply Z.max_comm. Qed.

Lemma assignToPaycheck_swap (dueDay p1 p2 : dayNumber) (year monthIndex : Z) :
  assignToPaycheck dueDay p2 p1 year monthIndex
  = assignToPaycheck dueDay p1 p2 year monthIndex.
Proof.
  unfold assignToPaycheck.
  rewrite (Math_min_comm (clampDay p2 year monthIndex)),
          (Math_max_comm (clampDay p2 year monthIndex)).
  reflexivity.
Qed.

(** C10.  [assignToPaycheck] gives the same answer when its paydays are
    clamped beforehand and when they are swapped, for all integers (and for
    [NaN]). *)
Theorem assignToPaycheck_preclamp_swap (dueDay p1 p2 : dayNumber)
    (year monthIndex : Z) :
  assignToPaycheck dueDay p1 p2 year monthIndex
  = assignToPaycheck dueDay (clampDay p1 year monthIndex)
      (clampDay p2 year monthIndex) year monthIndex /\
  assignToPaycheck dueDay p1 p2 year monthIndex
  = assignToPaycheck dueDay p2 p1 year monthIndex.
Proof.
  split; symmetry.
  - apply assignToPaycheck_preclamp.
  - apply assignToPaycheck_swap.
Qed.

(* ------------------------------------------------------------------------- *)
(** ** Properties of the aggregator *)
(* ------------------------------------------------------------------------- *)

(** The paycheck of one element of [assigned]. *)
Lemma assigned_paycheck (exps : list Expense) (inc : IncomeConfig)
    (year monthIndex : Z) :
  List.map paycheck (assigned exps inc year monthIndex)
  = List.map
      (fun e => assignToPaycheck (Day (dueDay e)) (Day (fst (paycheckDays inc)))
                  (Day (snd (paycheckDays inc))) year monthIndex)
      exps.
Proof.
  unfold assigned, paycheckDaysClamped. rewrite List.map_map. simpl.
  apply List.map_ext. intros e.
  apply assignToPaycheck_preclamp.
Qed.

Lemma assigned_expense (exps : list Expense) (inc : IncomeConfig)
    (year monthIndex : Z) :
  List.map expense (assigned exps inc year monthIndex) = exps.
Proof.
  unfold assigned. rewrite List.map_map. simpl. apply List.map_id.
Qed.

(** The label of an element of [assigned]. *)
Lemma assigned_label (inc : IncomeConfig) (year monthIndex : Z) (e : Expense) :
  assignToPaycheck (Day (dueDay e))
    (fst (paycheckDaysClamped inc year monthIndex))
    (snd (paycheckDaysClamped inc year monthIndex)) year monthIndex
  = assignToPaycheck (Day (dueDay e)) (Day (fst (paycheckDays inc)))
      (Day (snd (paycheckDays inc))) year monthIndex.
Proof. apply assignToPaycheck_preclamp. Qed.

(** On a month that has a length, every element of [assigned] carries
    label 1 or label 2. *)
Lemma assigned_labelled (exps : list Expense) (inc : IncomeConfig)
    (year monthIndex : Z) :
  daysInMonth year monthIndex <> NaN ->
  Forall (fun a => paycheck a = Some 1 \/ paycheck a = Some 2)
         (assigned exps inc year monthIndex).
Proof.
  intros Hvalid.
  destruct (daysInMonth year monthIndex) as [| dim] eqn:Hdim; [contradiction |].
  unfold assigned. apply List.Forall_forall. intros a Ha.
  apply List.in_map_iff in Ha. destruct Ha as (e & <- & _).
  cbn [paycheck]. rewrite assigned_label.
  destruct (assignToPaycheck_Day (dueDay e) (fst (paycheckDays inc))
              (snd (paycheckDays inc)) year monthIndex dim Hdim)
    as [[_ H] | [_ H]]; rewrite H; [left | right]; reflexivity.
Qed.

(** On a month that has no length, no element of [assigned] carries a
    label. *)
Lemma assigned_unlabelled (exps : list Expense) (inc : IncomeConfig)
    (year monthIndex : Z) :
  daysInMonth year monthIndex = NaN ->
  Forall (fun a => paycheck a = None) (assigned exps inc year monthIndex).
Proof.
  intros Hnan. unfold assigned. apply List.Forall_forall. intros a Ha.
  apply List.in_map_iff in Ha. destruct Ha as (e & <- & _).
  cbn [paycheck]. apply assignToPaycheck_NaN. exact Hnan.
Qed.

(** C3, as stated, fails: with paydays (1, 16) in February 2023 the expense
    due on day 30 is put under paycheck 2. *)
Lemma assigned_february_due30_counterexample :
  daysInMonth 2023 1 = Day 28 /\
  ~ (List.map paycheck
       (assigned [mkExpense "e1" "Emergency Fund" 2000 30 "savings"]
                 (mkIncomeConfig (1, 16) 20000 0) 2023 1)
     = [Some 1]).
Proof.
  split; [reflexivity |].
  intros H. vm_compute in H. discriminate H.
Qed.

(** C3, amended.  With paydays (1, 16) in a 28-day February, an expense due
    on day 30 is assigned to paycheck 2; day 28, to which 30 clamps, gets
    paycheck 2 as well, since neither lies in (1, 16]. *)
Theorem assigned_february_due30 (year : Z) (e : Expense) (inc : IncomeConfig) :
  daysInMonth year 1 = Day 28 ->
  paycheckDays inc = (1, 16) ->
  dueDay e = 30 ->
  assigned [e] inc year 1 = [mkAssigned e (Some 2)] /\
  clampDay (Day 30) year 1 = Day 28 /\
  assignToPaycheck (clampDay (Day 30) year 1) (Day 1) (Day 16) year 1 = Some 2.
Proof.
  intros Hdim Hpd Hdue.
  assert (Hc : forall d, clampDay (Day d) year 1 = Day (Z.min (Z.max 1 d) 28)).
  { intros d. apply clampDay_Day. exact Hdim. }
  unfold assigned, paycheckDaysClamped. simpl List.map.
  rewrite Hpd, Hdue. cbn [fst snd]. rewrite !Hc.
  rewrite !assignToPaycheck_spec, !Hc. repeat split.
Qed.

Lemma assigned_february_due30_witness :
  (daysInMonth 2023 1 = Day 28 /\
   paycheckDays (mkIncomeConfig (1, 16) 20000 0) = (1, 16) /\
   dueDay (mkExpense "e1" "Emergency Fund" 2000 30 "savings") = 30) /\
  assigned [mkExpense "e1" "Emergency Fund" 2000 30 "savings"]
           (mkIncomeConfig (1, 16) 20000 0) 2023 1
  = [mkAssigned (mkExpense "e1" "Emergency Fund" 2000 30 "savings") (Some 2)] /\
  clampDay (Day 30) 2023 1 = Day 28 /\
  assignToPaycheck (clampDay (Day 30) 2023 1) (Day 1) (Day 16) 2023 1 = Some 2.
Proof.
  split; [repeat split |].
  exact (assigned_february_due30 2023
           (mkExpense "e1" "Emergency Fund" 2000 30 "savings")
           (mkIncomeConfig (1, 16) 20000 0) eq_refl eq_refl eq_refl).
Defined.

(** Extras are split evenly between the two paychecks. *)
Example paycheck_income_with_extras :
  p1Income (mkIncomeConfig (1, 16) 20000 1000) = 20500%float /\
  p2Income (mkIncomeConfig (1, 16) 20000 1000) = 20500%float.
Proof. split; vm_compute; reflexivity. Qed.

(** *** Per-paycheck totals against the sum of all amounts *)

Lemma exact_reduce_value (items : list AssignedExpense) (acc : float) :
  exact_reduce acc items ->
  (float_to_Q
     (List.fold_left (fun s e => (s + amount (expense e))%float) items acc)
   == float_to_Q acc + exactSumOf items)%Q.
Proof.
  revert acc. induction items as [| e rest IH]; intros acc Hex.
  - unfold exactSumOf. simpl. ring.
  - destruct Hex as [[_ Hadd] Hrest]. simpl List.fold_left.
    rewrite (IH _ Hrest), Hadd.
    unfold exactSumOf. simpl. ring.
Qed.

Lemma reduceAmounts_value (items : list AssignedExpense) :
  exact_reduce 0%float items ->
  (float_to_Q (reduceAmounts items) == exactSumOf items)%Q.
Proof.
  intros Hex. unfold reduceAmounts.
  rewrite (exact_reduce_value items 0%float Hex).
  change (float_to_Q 0%float) with 0%Q. ring.
Qed.

Lemma paycheck_is_label (a : AssignedExpense) :
  paycheck a = Some 1 \/ paycheck a = Some 2 ->
  (paycheck_is 1 a = true /\ paycheck_is 2 a = false) \/
  (paycheck_is 1 a = false /\ paycheck_is 2 a = true).
Proof.
  unfold paycheck_is. intros [-> | ->]; [left | right]; split; reflexivity.
Qed.

(** Splitting a list whose elements all carry label 1 or 2. *)
Lemma label_split_permutation (asg : list AssignedExpense) :
  Forall (fun a => paycheck a = Some 1 \/ paycheck a = Some 2) asg ->
  Permutation (p1Items asg ++ p2Items asg) asg.
Proof.
  unfold p1Items, p2Items.
  induction 1 as [| a rest Ha _ IH]; simpl; [constructor |].
  destruct (paycheck_is_label a Ha) as [[-> ->] | [-> ->]].
  - constructor. exact IH.
  - symmetry. apply Permutation_cons_app. symmetry. exact IH.
Qed.

Lemma label_split_exactSum (asg : list AssignedExpense) :
  Forall (fun a => paycheck a = Some 1 \/ paycheck a = Some 2) asg ->
  (exactSumOf (p1Items asg) + exactSumOf (p2Items asg) == exactSumOf asg)%Q.
Proof.
  unfold p1Items, p2Items, exactSumOf.
  induction 1 as [| a rest Ha _ IH]; simpl; [ring |].
  destruct (paycheck_is_label a Ha) as [[-> ->] | [-> ->]]; simpl;
    rewrite <- IH; ring.
Qed.

(** Both tables are empty when no element carries a label. *)
Lemma unlabelled_tables_empty (asg : list AssignedExpense) :
  Forall (fun a => paycheck a = None) asg ->
  p1Items asg = [] /\ p2Items asg = [].
Proof.
  unfold p1Items, p2Items, paycheck_is.
  induction 1 as [| a rest Ha _ [IH1 IH2]]; [split; reflexivity |].
  simpl. rewrite Ha, IH1, IH2. split; reflexivity.
Qed.

(** C4, as stated, fails in the arithmetic the program computes with: with
    paydays (1, 16) and amounts 999.99 (due on day 5), 2500.1 (day 20) and
    3000.7 (day 25), the two per-paycheck totals add up to
    6500.789999999999, which is neither the reduced sum of all amounts
    (6500.79) nor their exact sum. *)
Lemma paycheck_totals_rounding_counterexample :
  let asg := assigned roundingExpenses (mkIncomeConfig (1, 16) 20000 0) 2025 0 in
  (p1Total asg + p2Total asg)%float <> sumOfAmounts roundingExpenses /\
  ~ (float_to_Q (p1Total asg + p2Total asg)%float == exactSum roundingExpenses)%Q.
Proof.
  split.
  - intros H. vm_compute in H.
    apply (f_equal Prim2SF) in H. vm_compute in H. discriminate H.
  - intros H. vm_compute in H. discriminate H.
Qed.

(** C4, amended.  On a month that a [Date] can hold, every expense is put
    under exactly one of the two paychecks, whatever the amounts, due days
    and paydays: each element of [assigned] carries label 1 or label 2 and
    the two lists split [assigned].  When, in addition, no addition of the
    two reductions, nor the addition of the two totals, rounds, the totals
    add up to the sum of all expense amounts. *)
Theorem paycheck_totals_partition (exps : list Expense) (inc : IncomeConfig)
    (year monthIndex : Z) :
  validMonth year monthIndex ->
  let asg := assigned exps inc year monthIndex in
  Forall (fun a => paycheck a = Some 1 \/ paycheck a = Some 2) asg /\
  Permutation (p1Items asg ++ p2Items asg) asg /\
  (exact_reduce 0%float (p1Items asg) ->
   exact_reduce 0%float (p2Items asg) ->
   exact_add (p1Total asg) (p2Total asg) ->
   (float_to_Q (p1Total asg + p2Total asg)%float == exactSum exps)%Q).
Proof.
  intros Hvalid asg.
  pose proof (assigned_labelled exps inc year monthIndex
                (proj1 (daysInMonth_valid year monthIndex) Hvalid)) as Hlab.
  fold asg in Hlab.
  split; [exact Hlab |].
  split; [exact (label_split_permutation asg Hlab) |].
  intros H1 H2 [_ Hadd].
  rewrite Hadd. unfold p1Total, p2Total.
  rewrite (reduceAmounts_value _ H1), (reduceAmounts_value _ H2).
  rewrite (label_split_exactSum asg Hlab).
  unfold exactSumOf, asg. rewrite assigned_expense. reflexivity.
Qed.

Lemma paycheck_totals_partition_witness :
  let inc := mkIncomeConfig (1, 16) 20000 0 in
  let exps := expenses (defaultDataset (randomIds freshWorld)) in
  let asg := assigned exps inc 2025 0 in
  let rounding := assigned roundingExpenses inc 2025 0 in
  validMonth 2025 0 /\
  Permutation (p1Items rounding ++ p2Items rounding) rounding /\
  (exact_reduce 0%float (p1Items asg) /\
   exact_reduce 0%float (p2Items asg) /\
   exact_add (p1Total asg) (p2Total asg)) /\
  (float_to_Q (p1Total asg + p2Total asg)%float == exactSum exps)%Q.
Proof.
  intros inc exps asg rounding.
  assert (Hvalid : validMonth 2025 0).
  { unfold validMonth. vm_compute. split; discriminate. }
  assert (H : exact_reduce 0%float (p1Items asg) /\
              exact_reduce 0%float (p2Items asg) /\
              exact_add (p1Total asg) (p2Total asg)).
  { vm_compute. repeat split. }
  split; [exact Hvalid |].
  split; [exact (proj1 (proj2 (paycheck_totals_partition roundingExpenses inc
                                 2025 0 Hvalid))) |].
  split; [exact H |].
  destruct H as (H1 & H2 & H3).
  exact (proj2 (proj2 (paycheck_totals_partition exps inc 2025 0 Hvalid))
           H1 H2 H3).
Defined.

(* ------------------------------------------------------------------------- *)
(** ** The text codec reads back what it writes *)
(* ------------------------------------------------------------------------- *)

Lemma append_cons (x : ascii) (a b : string) :
  String x a +:+ b = String x (a +:+ b).
Proof. reflexivity. Qed.

Lemma append_assoc (a b c : string) : (a +:+ b) +:+ c = a +:+ (b +:+ c).
Proof.
  induction a as [| x a IH]; [reflexivity |].
  rewrite !append_cons, IH. reflexivity.
Qed.

Lemma append_empty (a : string) : a +:+ EmptyString = a.
Proof.
  induction a as [| x a IH]; [reflexivity |].
  rewrite append_cons, IH. reflexivity.
Qed.

Lemma length_append (a b : string) :
  String.length (a +:+ b) = (String.length a + String.length b)%nat.
Proof.
  induction a as [| x a IH]; [reflexivity |].
  rewrite append_cons. simpl. rewrite IH. reflexivity.
Qed.

(** *** Digits *)

(** The text does not go on with a digit. *)
Definition noDigitAhead (rest : string) : Prop :=
  match rest with
  | String c _ => JsonText.isDigit c = false
  | EmptyString => True
  end.

Lemma digit_read (d : Z) :
  0 <= d <= 9 ->
  JsonText.isDigit (JsonText.digit d) = true /\
  Z.of_nat (nat_of_ascii (JsonText.digit d) - 48) = d /\
  Ascii.eqb (JsonText.digit d) "-" = false.
Proof.
  intros H.
  assert (Hc : d = 0 \/ d = 1 \/ d = 2 \/ d = 3 \/ d = 4 \/ d = 5 \/ d = 6
               \/ d = 7 \/ d = 8 \/ d = 9) by lia.
  repeat (destruct Hc as [-> | Hc]); try subst d; repeat split.
Qed.

Lemma read_digits_stop (rest : string) (acc : Z) (count : nat) :
  noDigitAhead rest -> JsonText.read_digits rest acc count = (acc, count, rest).
Proof.
  destruct rest as [| c r]; simpl; [reflexivity |]. intros ->. reflexivity.
Qed.

Lemma read_digits_digit (d : Z) (tail : string) (acc : Z) (count : nat) :
  0 <= d <= 9 ->
  JsonText.read_digits (String (JsonText.digit d) tail) acc count
  = JsonText.read_digits tail (10 * acc + d) (S count).
Proof.
  intros Hd. destruct (digit_read d Hd) as (H1 & H2 & _).
  cbn [JsonText.read_digits]. rewrite H1, H2. reflexivity.
Qed.

Lemma read_digits_fixed (k : nat) (n : Z) (tail : string) (acc : Z) (count : nat) :
  0 <= n < 10 ^ Z.of_nat k ->
  JsonText.read_digits (JsonText.fixed_digits k n tail) acc count
  = JsonText.read_digits tail (acc * 10 ^ Z.of_nat k + n) (count + k).
Proof.
  revert n tail. induction k as [| k IH]; intros n tail Hn.
  - simpl in *. replace n with 0 by lia.
    rewrite Z.mul_1_r, Z.add_0_r, Nat.add_0_r. reflexivity.
  - cbn [JsonText.fixed_digits].
    rewrite Nat2Z.inj_succ, Z.pow_succ_r in * by lia.
    rewrite IH by (Z.div_mod_to_equations; lia).
    rewrite read_digits_digit by (Z.div_mod_to_equations; lia).
    f_equal; [| lia].
    Z.div_mod_to_equations. lia.
Qed.

Lemma read_digits_digits (f : nat) (n : Z) (tail : string) :
  0 <= n < 10 ^ Z.of_nat (S f) ->
  exists L : nat,
    (1 <= L)%nat /\
    forall acc count,
      JsonText.read_digits (JsonText.digits (S f) n tail) acc count
      = JsonText.read_digits tail (acc * 10 ^ Z.of_nat L + n) (count + L).
Proof.
  revert n tail. induction f as [| f IH]; intros n tail Hn.
  - exists 1%nat. split; [lia |]. intros acc count.
    cbn [JsonText.digits]. change (10 ^ Z.of_nat 1) with 10 in *.
    destruct (Z.ltb_spec n 10); [| lia].
    rewrite read_digits_digit by (Z.div_mod_to_equations; lia).
    f_equal; [| lia]. Z.div_mod_to_equations. lia.
  - cbn [JsonText.digits]. fold (JsonText.digits (S f)).
    destruct (Z.ltb_spec n 10) as [Hlt | Hge].
    + exists 1%nat. split; [lia |]. intros acc count.
      rewrite read_digits_digit by (Z.div_mod_to_equations; lia).
      change (10 ^ Z.of_nat 1) with 10.
      f_equal; [| lia]. Z.div_mod_to_equations. lia.
    + rewrite Nat2Z.inj_succ, Z.pow_succ_r in Hn by lia.
      destruct (IH (n / 10) (String (JsonText.digit (n mod 10)) tail))
        as (L & HL & Hread); [Z.div_mod_to_equations; lia |].
      exists (S L). split; [lia |]. intros acc count.
      rewrite Hread.
      rewrite read_digits_digit by (Z.div_mod_to_equations; lia).
      rewrite Nat2Z.inj_succ, Z.pow_succ_r by lia.
      f_equal; [| lia]. Z.div_mod_to_equations. lia.
Qed.

Lemma digits_tail (f : nat) (n : Z) (t1 t2 : string) :
  JsonText.digits f n t1 +:+ t2 = JsonText.digits f n (t1 +:+ t2).
Proof.
  revert n t1. induction f as [| f IH]; intros n t1; [reflexivity |].
  cbn [JsonText.digits]. destruct (n <? 10); [reflexivity |].
  rewrite IH. reflexivity.
Qed.

Lemma fixed_digits_tail (k : nat) (n : Z) (t1 t2 : string) :
  JsonText.fixed_digits k n t1 +:+ t2 = JsonText.fixed_digits k n (t1 +:+ t2).
Proof.
  revert n t1. induction k as [| k IH]; intros n t1; [reflexivity |].
  cbn [JsonText.fixed_digits]. rewrite IH. reflexivity.
Qed.

Lemma digits_head (f : nat) (n : Z) (tail : string) :
  0 <= n ->
  exists d r, 0 <= d <= 9 /\ JsonText.digits (S f) n tail = String (JsonText.digit d) r.
Proof.
  revert n tail. induction f as [| f IH]; intros n tail Hn.
  - cbn [JsonText.digits]. exists (n mod 10), tail.
    split; [Z.div_mod_to_equations; lia |].
    destruct (n <? 10); reflexivity.
  - cbn [JsonText.digits]. fold (JsonText.digits (S f)).
    destruct (n <? 10).
    + exists (n mod 10), tail. split; [Z.div_mod_to_equations; lia | reflexivity].
    + apply IH. Z.div_mod_to_equations; lia.
Qed.

Lemma natural_fuel (n : Z) : 0 <= n -> n < 10 ^ Z.of_nat (S (Z.to_nat (Z.log2 n))).
Proof.
  intros Hn.
  destruct (Z.eq_dec n 0) as [-> | Hne]; [reflexivity |].
  pose proof (Z.log2_spec n ltac:(lia)) as [_ Hlt].
  pose proof (Z.log2_nonneg n) as Hlog.
  rewrite Nat2Z.inj_succ, Z2Nat.id by lia.
  eapply Z.lt_le_trans; [exact Hlt |].
  apply Z.pow_le_mono_l. lia.
Qed.

(** Reading the digits of a natural number that is followed by [tail]. *)
Lemma read_digits_natural (n : Z) (tail : string) :
  0 <= n ->
  exists L : nat,
    (1 <= L)%nat /\
    forall acc count,
      JsonText.read_digits (JsonText.natural n +:+ tail) acc count
      = JsonText.read_digits tail (acc * 10 ^ Z.of_nat L + n) (count + L).
Proof.
  intros Hn. unfold JsonText.natural. rewrite digits_tail.
  change (EmptyString +:+ tail) with tail.
  apply read_digits_digits. split; [exact Hn | apply natural_fuel; exact Hn].
Qed.

Lemma natural_head (n : Z) (tail : string) :
  0 <= n ->
  exists d r, 0 <= d <= 9 /\ JsonText.natural n +:+ tail = String (JsonText.digit d) r.
Proof.
  intros Hn. unfold JsonText.natural. rewrite digits_tail.
  apply digits_head. exact Hn.
Qed.

(** *** Numbers *)

Lemma odd_part_spec (m : positive) :
  0 <= snd (JsonText.odd_part m) /\
  Z.pos m = Z.pos (fst (JsonText.odd_part m)) * 2 ^ snd (JsonText.odd_part m).
Proof.
  induction m as [p IH | p IH |]; cbn [JsonText.odd_part].
  - simpl. split; [lia | lia].
  - destruct (JsonText.odd_part p) as [q t]. cbn [fst snd] in *.
    destruct IH as [Ht Hp]. split; [lia |].
    rewrite Z.pow_add_r by lia. change (Z.pos p~0) with (2 * Z.pos p). lia.
  - simpl. split; [lia | lia].
Qed.

Lemma digits2_pos_log2 (m : positive) :
  Z.pos (digits2_pos m) = Z.log2 (Z.pos m) + 1.
Proof.
  induction m as [p IH | p IH |]; cbn [digits2_pos]; try reflexivity.
  - rewrite Pos2Z.inj_succ, IH.
    change (Z.pos p~1) with (2 * Z.pos p + 1).
    rewrite Z.log2_succ_double by lia. lia.
  - rewrite Pos2Z.inj_succ, IH.
    change (Z.pos p~0) with (2 * Z.pos p).
    rewrite Z.log2_double by lia. lia.
Qed.

(** The number [N * 2^E] is found again as the binary64 value with the
    mantissa [m] and the exponent [e] that denote it. *)
Lemma binary64_at_valid (s : bool) (m : positive) (e N E : Z) :
  valid_binary (S754_finite s m e) = true ->
  0 < N ->
  (e <= E -> Z.pos m = N * 2 ^ (E - e)) ->
  (E < e -> N = Z.pos m * 2 ^ (e - E)) ->
  JsonText.binary64_at s N E = Some (SF2Prim (S754_finite s m e)).
Proof.
  intros Hvalid HN Hge Hlt.
  assert (Hcanon : fexp prec emax (Z.log2 N + 1 + E) = e).
  { pose proof Hvalid as Hb. cbn [SpecFloat.valid_binary] in Hb.
    unfold bounded, canonical_mantissa in Hb.
    apply andb_prop in Hb. destruct Hb as [Hb _].
    apply Z.eqb_eq in Hb. rewrite digits2_pos_log2 in Hb.
    transitivity (fexp prec emax (Z.log2 (Z.pos m) + 1 + e)); [| exact Hb].
    f_equal.
    destruct (Z_le_gt_dec e E) as [Hle | Hgt].
    - rewrite (Hge Hle), Z.log2_mul_pow2 by lia. lia.
    - rewrite (Hlt ltac:(lia)), Z.log2_mul_pow2 by lia. lia. }
  unfold JsonText.binary64_at. rewrite Hcanon.
  assert (Hm : (if E <=? e
                then (if N mod 2 ^ (e - E) =? 0 then N / 2 ^ (e - E) else 0)
                else N * 2 ^ (E - e)) = Z.pos m).
  { destruct (Z.leb_spec E e) as [Hle | Hgt].
    - destruct (Z.eq_dec E e) as [-> | Hne].
      + rewrite Z.sub_diag in *. change (2 ^ 0) with 1 in *.
        rewrite Z.mod_1_r, Z.div_1_r. simpl. rewrite (Hge ltac:(lia)). lia.
      + rewrite (Hlt ltac:(lia)).
        rewrite Z.mod_mul by (apply Z.pow_nonzero; lia).
        rewrite Z.div_mul by (apply Z.pow_nonzero; lia). reflexivity.
    - symmetry. apply Hge. lia. }
  rewrite Hm, Hvalid. reflexivity.
Qed.

(** The text does not go on the number. *)
Definition numberEnds (rest : string) : Prop :=
  match rest with
  | String c _ => JsonText.isDigit c = false /\ Ascii.eqb c "." = false
  | EmptyString => True
  end.

Lemma numberEnds_noDigit (rest : string) : numberEnds rest -> noDigitAhead rest.
Proof. destruct rest; simpl; tauto. Qed.

Lemma read_number_signed (s : bool) (body : string) :
  (exists d r, 0 <= d <= 9 /\ body = String (JsonText.digit d) r) ->
  JsonText.read_number ((if s then "-" else "") +:+ body)%string
  = let '(whole, count, s2) := JsonText.read_digits body 0 0 in
    match count with
    | O => None
    | S _ =>
        match s2 with
        | String c rest0 =>
            if Ascii.eqb c "." then
              let '(all, places, s3) := JsonText.read_digits rest0 whole 0 in
              match places with
              | O => None
              | S _ => Some (JsonText.of_decimal s all places, s3)
              end
            else Some (JsonText.of_decimal s whole 0, s2)
        | EmptyString => Some (JsonText.of_decimal s whole 0, s2)
        end
    end.
Proof.
  intros (d & r & Hd & ->).
  destruct (digit_read d Hd) as (_ & _ & Hminus).
  unfold JsonText.read_number. destruct s.
  - reflexivity.
  - change ("" +:+ String (JsonText.digit d) r)%string
      with (String (JsonText.digit d) r).
    cbv beta iota. rewrite Hminus. reflexivity.
Qed.

(** Reading a written integer. *)
Lemma read_number_natural (s : bool) (W : Z) (rest : string) :
  0 <= W -> numberEnds rest ->
  JsonText.read_number ((if s then "-" else "") +:+ JsonText.natural W +:+ rest)%string
  = Some (JsonText.of_decimal s W 0, rest).
Proof.
  intros HW Hrest.
  rewrite read_number_signed by (apply natural_head; exact HW).
  destruct (read_digits_natural W rest HW) as (L & HL & Hread).
  rewrite Hread, read_digits_stop by (apply numberEnds_noDigit; exact Hrest).
  rewrite Z.mul_0_l, Z.add_0_l.
  destruct L as [| L]; [lia |]. cbn [Nat.add].
  destruct rest as [| c r]; [reflexivity |].
  destruct Hrest as [_ ->]. reflexivity.
Qed.

(** Reading a written fraction: [n / 10^k] with [k] digits after the
    point. *)
Lemma read_number_fraction (s : bool) (n : Z) (k : nat) (rest : string) :
  0 <= n -> (1 <= k)%nat -> numberEnds rest ->
  JsonText.read_number
    ((if s then "-" else "") +:+ JsonText.natural (n / 10 ^ Z.of_nat k) +:+ "." +:+
     JsonText.fixed_digits k (n mod 10 ^ Z.of_nat k) "" +:+ rest)%string
  = Some (JsonText.of_decimal s n k, rest).
Proof.
  intros Hn Hk Hrest.
  assert (H10 : 0 < 10 ^ Z.of_nat k) by (apply Z.pow_pos_nonneg; lia).
  assert (Hwhole : 0 <= n / 10 ^ Z.of_nat k) by (apply Z.div_pos; lia).
  rewrite read_number_signed by (apply natural_head; exact Hwhole).
  destruct (read_digits_natural (n / 10 ^ Z.of_nat k)
              ("." +:+ JsonText.fixed_digits k (n mod 10 ^ Z.of_nat k) "" +:+ rest)%string
              Hwhole)
    as (L & HL & Hread).
  rewrite Hread.
  change ("." +:+ JsonText.fixed_digits k (n mod 10 ^ Z.of_nat k) "" +:+ rest)%string
    with (String "." (JsonText.fixed_digits k (n mod 10 ^ Z.of_nat k) "" +:+ rest)).
  rewrite read_digits_stop by reflexivity.
  rewrite Z.mul_0_l, Z.add_0_l.
  destruct L as [| L]; [lia |]. cbn [Nat.add].
  change (Ascii.eqb "." ".") with true. cbv iota.
  rewrite fixed_digits_tail. change ("" +:+ rest)%string with rest.
  rewrite read_digits_fixed by (apply Z.mod_pos_bound; exact H10).
  rewrite read_digits_stop by (apply numberEnds_noDigit; exact Hrest).
  replace (n / 10 ^ Z.of_nat k * 10 ^ Z.of_nat k + n mod 10 ^ Z.of_nat k) with n
    by (Z.div_mod_to_equations; lia).
  cbn [Nat.add].
  destruct k as [| k']; [lia |]. reflexivity.
Qed.

(** A finite number is read back as written, zero without its sign. *)
Lemma read_number_print (x : float) (rest : string) :
  Number_isFinite x = true ->
  numberEnds rest ->
  exists y,
    jsonNumber x = VNumber y /\
    JsonText.read_number (JsonText.print_number x +:+ rest) = Some (y, rest).
Proof.
  intros Hfin Hrest.
  pose proof (Prim2SF_valid x) as Hvalid.
  pose proof (SF2Prim_Prim2SF x) as Hback.
  unfold Number_isFinite in Hfin. unfold jsonNumber, JsonText.print_number.
  destruct (Prim2SF x) as [s | s | | s m e0] eqn:Hx; try discriminate.
  - exists 0%float. split; [reflexivity |].
    exact (read_number_natural false 0 rest ltac:(lia) Hrest).
  - exists x. split; [reflexivity |].
    destruct (odd_part_spec m) as [Ht Hm].
    destruct (JsonText.odd_part m) as [q t]. cbn [fst snd] in Ht, Hm.
    set (e := e0 + t).
    rewrite append_assoc.
    destruct (Z.leb_spec 0 e) as [He | He].
    + (* an integer *)
      assert (HW : 0 < Z.pos q * 2 ^ e)
        by (apply Z.mul_pos_pos; [lia | apply Z.pow_pos_nonneg; lia]).
      rewrite read_number_natural by (try exact Hrest; lia).
      f_equal. f_equal.
      unfold JsonText.of_decimal.
      destruct (Z.eqb_spec (Z.pos q * 2 ^ e) 0) as [H0 | _]; [lia |].
      unfold JsonText.exact_binary64.
      change (5 ^ Z.of_nat 0) with 1. rewrite Z.mod_1_r, Z.div_1_r.
      cbn [Z.eqb]. change (- Z.of_nat 0) with 0.
      rewrite (binary64_at_valid s m e0); [exact Hback | exact Hvalid | exact HW | |].
      * intros Hle. rewrite Hm. unfold e.
        rewrite <- Z.mul_assoc, <- Z.pow_add_r by lia. f_equal. f_equal. lia.
      * intros Hlt. rewrite Hm. unfold e.
        rewrite <- Z.mul_assoc, <- Z.pow_add_r by lia. f_equal. f_equal. lia.
    + (* a fraction *)
      set (k := Z.to_nat (- e)).
      assert (Hk : - e = Z.of_nat k) by (unfold k; lia).
      rewrite Hk.
      assert (Hn : 0 < Z.pos q * 5 ^ Z.of_nat k)
        by (apply Z.mul_pos_pos; [lia | apply Z.pow_pos_nonneg; lia]).
      rewrite !append_assoc.
      rewrite read_number_fraction by (try exact Hrest; lia).
      f_equal. f_equal.
      unfold JsonText.of_decimal.
      destruct (Z.eqb_spec (Z.pos q * 5 ^ Z.of_nat k) 0) as [H0 | _]; [lia |].
      unfold JsonText.exact_binary64.
      assert (H5 : 5 ^ Z.of_nat k <> 0) by (apply Z.pow_nonzero; lia).
      rewrite Z.mod_mul, Z.div_mul by exact H5.
      cbn [Z.eqb].
      rewrite (binary64_at_valid s m e0); [exact Hback | exact Hvalid | lia | |].
      * intros Hle. rewrite Hm. f_equal. f_equal. unfold e in Hk. lia.
      * intros Hlt. unfold e in Hk. lia.
Qed.

(** *** Strings *)

Lemma read_string_print (s rest : string) :
  JsonText.read_string (JsonText.escape s +:+ String JsonText.quote rest)
  = Some (s, rest).
Proof.
  induction s as [| c s IH]; [reflexivity |].
  cbn [JsonText.escape].
  destruct (Ascii.eqb c JsonText.quote || Ascii.eqb c JsonText.backslash) eqn:Hc.
  - rewrite !append_cons. cbn [JsonText.read_string].
    change (Ascii.eqb JsonText.backslash JsonText.quote) with false.
    change (Ascii.eqb JsonText.backslash JsonText.backslash) with true.
    cbv iota. rewrite IH. reflexivity.
  - rewrite append_cons. cbn [JsonText.read_string].
    apply orb_false_elim in Hc. destruct Hc as [-> ->].
    rewrite IH. reflexivity.
Qed.

Lemma print_string_append (s rest : string) :
  JsonText.print_string s +:+ rest
  = String JsonText.quote (JsonText.escape s +:+ String JsonText.quote rest).
Proof.
  unfold JsonText.print_string. rewrite append_cons, append_assoc. reflexivity.
Qed.

(** *** Values *)

Lemma value_induction (P : value -> Prop) :
  P VUndefined -> P VNull -> (forall b, P (VBool b)) ->
  (forall x, P (VNumber x)) -> (forall s, P (VString s)) ->
  (forall items, List.Forall P items -> P (VArray items)) ->
  (forall props, List.Forall (fun kv => P (snd kv)) props -> P (VObject props)) ->
  forall v, P v.
Proof.
  intros HU HN HB HX HS HA HO.
  fix IH 1. intros [| | b | x | s | items | props].
  - exact HU.
  - exact HN.
  - apply HB.
  - apply HX.
  - apply HS.
  - apply HA. induction items as [| v rest IHrest]; constructor; [apply IH | exact IHrest].
  - apply HO. induction props as [| [k v] rest IHrest]; constructor; [apply IH | exact IHrest].
Qed.

(** The fuel that reading a written value takes. *)
Definition memberWeight (x : value) (w : nat) : nat :=
  match x with
  | VUndefined => 0%nat
  | _ => S w
  end.

Fixpoint weight (v : value) : nat :=
  match v with
  | VArray items => S (list_sum (List.map (fun x => S (weight x)) items))
  | VObject props =>
      S (list_sum (List.map (fun kv => memberWeight (snd kv) (weight (snd kv)))
                     props))
  | _ => 1%nat
  end.

(** What may follow a value in a document. *)
Definition delimited (rest : string) : Prop :=
  match rest with
  | EmptyString => True
  | String c _ => c = ","%char \/ c = "]"%char \/ c = "}"%char
  end.

Lemma delimited_numberEnds (rest : string) : delimited rest -> numberEnds rest.
Proof.
  destruct rest as [| c r]; simpl; [tauto |].
  intros [-> | [-> | ->]]; split; reflexivity.
Qed.

(** A character that starts a number. *)
Definition startsNumber (c : ascii) : Prop :=
  c = "-"%char \/ exists d, 0 <= d <= 9 /\ c = JsonText.digit d.

Lemma startsNumber_dispatch (c : ascii) :
  startsNumber c ->
  Ascii.eqb c JsonText.quote = false /\ Ascii.eqb c "[" = false /\
  Ascii.eqb c "{" = false /\ Ascii.eqb c "n" = false /\
  Ascii.eqb c "t" = false /\ Ascii.eqb c "f" = false /\
  Ascii.eqb c "]" = false /\ Ascii.eqb c "}" = false.
Proof.
  intros [-> | (d & Hd & ->)]; [repeat split |].
  assert (Hc : d = 0 \/ d = 1 \/ d = 2 \/ d = 3 \/ d = 4 \/ d = 5 \/ d = 6
               \/ d = 7 \/ d = 8 \/ d = 9) by lia.
  repeat (destruct Hc as [-> | Hc]); try subst d; repeat split.
Qed.

Lemma print_number_head (x : float) (rest : string) :
  Number_isFinite x = true ->
  exists c r, JsonText.print_number x +:+ rest = String c r /\ startsNumber c.
Proof.
  unfold Number_isFinite, JsonText.print_number.
  destruct (Prim2SF x) as [s | s | | s m e0]; try discriminate; intros _.
  - exists "0"%char, rest. split; [reflexivity |].
    right. exists 0. split; [lia | reflexivity].
  - destruct (JsonText.odd_part m) as [q t].
    destruct s.
    + eexists _, _. split; [rewrite append_assoc; reflexivity | left; reflexivity].
    + rewrite append_assoc.
      change ("" +:+ ?a)%string with a.
      destruct (Z.leb_spec 0 (e0 + t)) as [He | He].
      * destruct (natural_head (Z.pos q * 2 ^ (e0 + t)) rest) as (d & r & Hd & ->).
        { apply Z.mul_nonneg_nonneg; [lia | apply Z.pow_nonneg; lia]. }
        exists (JsonText.digit d), r. split; [reflexivity |].
        right. exists d. split; [exact Hd | reflexivity].
      * rewrite append_assoc.
        match goal with
        | |- context [JsonText.natural ?n +:+ ?tail] =>
            destruct (natural_head n tail) as (d & r & Hd & ->)
        end.
        { apply Z.div_pos; [| apply Z.pow_pos_nonneg; lia].
          apply Z.mul_nonneg_nonneg; [lia | apply Z.pow_nonneg; lia]. }
        exists (JsonText.digit d), r. split; [reflexivity |].
        right. exists d. split; [exact Hd | reflexivity].
Qed.

(** A written value starts with a character that closes neither an array
    nor an object. *)
Lemma print_value_head (v : value) (rest : string) :
  exists c r,
    JsonText.print_value v +:+ rest = String c r /\
    Ascii.eqb c "]" = false /\ Ascii.eqb c "}" = false.
Proof.
  destruct v as [| | b | x | s | items | props]; cbn [JsonText.print_value].
  - eexists _, _. split; [reflexivity | split; reflexivity].
  - eexists _, _. split; [reflexivity | split; reflexivity].
  - destruct b; eexists _, _; (split; [reflexivity | split; reflexivity]).
  - destruct (Number_isFinite x) eqn:Hfin.
    + destruct (print_number_head x rest Hfin) as (c & r & -> & Hc).
      exists c, r. split; [reflexivity |].
      destruct (startsNumber_dispatch c Hc) as (_ & _ & _ & _ & _ & _ & H1 & H2).
      split; assumption.
    + unfold Number_isFinite in Hfin. unfold JsonText.print_number.
      destruct (Prim2SF x); try discriminate;
        eexists _, _; (split; [reflexivity | split; reflexivity]).
  - rewrite print_string_append.
    eexists _, _. split; [reflexivity | split; reflexivity].
  - rewrite append_assoc. eexists _, _. split; [reflexivity | split; reflexivity].
  - rewrite append_assoc. eexists _, _. split; [reflexivity | split; reflexivity].
Qed.

Lemma join_cons (x : string) (rest : list string) :
  rest <> [] -> JsonText.join (x :: rest) = x +:+ "," +:+ JsonText.join rest.
Proof. destruct rest; [contradiction | reflexivity]. Qed.

Lemma read_elements_step (f : nat) (s : string) :
  JsonText.read_elements (S f) s
  = match JsonText.read_value f s with
    | Some (v, String c rest) =>
        if Ascii.eqb c "," then
          match JsonText.read_elements f rest with
          | Some (vs, tail) => Some (v :: vs, tail)
          | None => None
          end
        else if Ascii.eqb c "]" then Some ([v], rest)
        else None
    | _ => None
    end.
Proof. reflexivity. Qed.

Lemma read_members_step (f : nat) (c : ascii) (rest : string) :
  JsonText.read_members (S f) (String c rest)
  = if Ascii.eqb c JsonText.quote then
      match JsonText.read_string rest with
      | Some (key, String c' rest') =>
          if Ascii.eqb c' ":" then
            match JsonText.read_value f rest' with
            | Some (v, String c'' rest'') =>
                if Ascii.eqb c'' "," then
                  match JsonText.read_members f rest'' with
                  | Some (kvs, tail) => Some ((key, v) :: kvs, tail)
                  | None => None
                  end
                else if Ascii.eqb c'' "}" then Some ([(key, v)], rest'')
                else None
            | _ => None
            end
          else None
      | _ => None
      end
    else None.
Proof. reflexivity. Qed.

Lemma read_value_step (f : nat) (c : ascii) (rest : string) :
  JsonText.read_value (S f) (String c rest)
  = if Ascii.eqb c JsonText.quote then
      match JsonText.read_string rest with
      | Some (body, tail) => Some (VString body, tail)
      | None => None
      end
    else if Ascii.eqb c "[" then
      match rest with
      | String c' rest' =>
          if Ascii.eqb c' "]" then Some (VArray [], rest')
          else match JsonText.read_elements f rest with
               | Some (items, tail) => Some (VArray items, tail)
               | None => None
               end
      | EmptyString => None
      end
    else if Ascii.eqb c "{" then
      match rest with
      | String c' rest' =>
          if Ascii.eqb c' "}" then Some (VObject [], rest')
          else match JsonText.read_members f rest with
               | Some (props, tail) => Some (VObject props, tail)
               | None => None
               end
      | EmptyString => None
      end
    else if Ascii.eqb c "n" then
      match JsonText.after_word "ull" rest with
      | Some tail => Some (VNull, tail)
      | None => None
      end
    else if Ascii.eqb c "t" then
      match JsonText.after_word "rue" rest with
      | Some tail => Some (VBool true, tail)
      | None => None
      end
    else if Ascii.eqb c "f" then
      match JsonText.after_word "alse" rest with
      | Some tail => Some (VBool false, tail)
      | None => None
      end
    else
      match JsonText.read_number (String c rest) with
      | Some (x, tail) => Some (VNumber x, tail)
      | None => None
      end.
Proof. reflexivity. Qed.

(** The elements of an array, after its opening bracket. *)
Lemma read_elements_print (items : list value) :
  items <> [] ->
  List.Forall
    (fun v => forall fuel rest,
       (weight v <= fuel)%nat -> delimited rest ->
       JsonText.read_value fuel (JsonText.print_value v +:+ rest)
       = Some (jsonImage v, rest))
    items ->
  forall fuel rest,
    (list_sum (List.map (fun x => S (weight x)) items) <= fuel)%nat ->
    JsonText.read_elements fuel
      (JsonText.join (List.map JsonText.print_value items) +:+ String "]" rest)
    = Some (List.map jsonImage items, rest).
Proof.
  induction items as [| x items IH]; [contradiction |].
  intros _ Hall fuel rest Hfuel.
  apply List.Forall_cons_iff in Hall. destruct Hall as [Hx Hall].
  cbn [List.map list_sum] in Hfuel.
  destruct fuel as [| f]; [simpl in Hfuel; lia |].
  rewrite read_elements_step.
  destruct items as [| y items].
  - cbn [List.map]. unfold JsonText.join. cbn [String.concat].
    rewrite (Hx f (String "]" rest)); [reflexivity | simpl in Hfuel; lia |].
    simpl. tauto.
  - cbn [List.map]. rewrite join_cons by discriminate.
    rewrite !append_assoc.
    change ("," +:+ ?a)%string with (String "," a).
    rewrite (Hx f); [| simpl in Hfuel |- *; lia | simpl; tauto].
    change (Ascii.eqb "," ",") with true. cbv iota.
    change (JsonText.print_value y :: List.map JsonText.print_value items)
      with (List.map JsonText.print_value (y :: items)).
    rewrite IH; [reflexivity | discriminate | exact Hall |].
    simpl in Hfuel |- *. lia.
Qed.

(** The members of an object that are written. *)
Definition written (props : list (string * value)) : list (string * value) :=
  List.filter (fun kv => match snd kv with VUndefined => false | _ => true end) props.

Lemma print_members_written (props : list (string * value)) :
  List.flat_map
    (fun kv => JsonText.print_member (fst kv) (snd kv) (JsonText.print_value (snd kv)))
    props
  = List.map
      (fun kv => JsonText.print_string (fst kv) +:+ ":" +:+ JsonText.print_value (snd kv))
      (written props).
Proof.
  induction props as [| [k x] props IH]; [reflexivity |].
  cbn [List.flat_map written List.filter fst snd]. fold (written props).
  rewrite IH. destruct x; reflexivity.
Qed.

Lemma jsonImage_members_written (props : list (string * value)) :
  List.flat_map
    (fun kv => jsonMember (fst kv) (snd kv) (jsonImage (snd kv))) props
  = List.map (fun kv => (fst kv, jsonImage (snd kv))) (written props).
Proof.
  induction props as [| [k x] props IH]; [reflexivity |].
  cbn [List.flat_map written List.filter fst snd]. fold (written props).
  rewrite IH. destruct x; reflexivity.
Qed.

Lemma weight_members_written (props : list (string * value)) :
  list_sum (List.map (fun kv => memberWeight (snd kv) (weight (snd kv))) props)
  = list_sum (List.map (fun kv => S (weight (snd kv))) (written props)).
Proof.
  induction props as [| [k x] props IH]; [reflexivity |].
  unfold written. cbn [List.map List.filter fst snd]. fold (written props).
  destruct x; cbn [List.map fst snd memberWeight];
    change (list_sum (?a :: ?l)) with (a + list_sum l)%nat;
    rewrite IH; reflexivity.
Qed.

(** The members of an object, after its opening brace. *)
Lemma read_members_print (members : list (string * value)) :
  members <> [] ->
  List.Forall
    (fun kv => forall fuel rest,
       (weight (snd kv) <= fuel)%nat -> delimited rest ->
       JsonText.read_value fuel (JsonText.print_value (snd kv) +:+ rest)
       = Some (jsonImage (snd kv), rest))
    members ->
  forall fuel rest,
    (list_sum (List.map (fun kv => S (weight (snd kv))) members) <= fuel)%nat ->
    JsonText.read_members fuel
      (JsonText.join
         (List.map
            (fun kv => JsonText.print_string (fst kv) +:+ ":" +:+ JsonText.print_value (snd kv))
            members) +:+ String "}" rest)
    = Some (List.map (fun kv => (fst kv, jsonImage (snd kv))) members, rest).
Proof.
  induction members as [| [k x] members IH]; [contradiction |].
  intros _ Hall fuel rest Hfuel.
  apply List.Forall_cons_iff in Hall. destruct Hall as [Hx Hall].
  cbn [List.map list_sum fst snd] in Hfuel, Hx |- *.
  destruct fuel as [| f]; [simpl in Hfuel; lia |].
  destruct members as [| m members].
  - cbn [List.map]. unfold JsonText.join. cbn [String.concat].
    rewrite !append_assoc, print_string_append.
    rewrite read_members_step.
    change (Ascii.eqb JsonText.quote JsonText.quote) with true. cbv iota.
    rewrite read_string_print.
    change (":" +:+ ?a)%string with (String ":" a).
    change (Ascii.eqb ":" ":") with true. cbv iota.
    rewrite (Hx f (String "}" rest)); [reflexivity | simpl in Hfuel; lia |].
    simpl. tauto.
  - cbn [List.map]. rewrite join_cons by discriminate.
    rewrite !append_assoc, print_string_append.
    rewrite read_members_step.
    change (Ascii.eqb JsonText.quote JsonText.quote) with true. cbv iota.
    rewrite read_string_print.
    change (":" +:+ ?a)%string with (String ":" a).
    change (Ascii.eqb ":" ":") with true. cbv iota.
    change ("," +:+ ?a)%string with (String "," a).
    rewrite (Hx f); [| simpl in Hfuel |- *; lia | simpl; tauto].
    change (Ascii.eqb "," ",") with true. cbv iota.
    match goal with
    | |- context [JsonText.join (?a :: List.map ?g members)] =>
        change (a :: List.map g members) with (List.map g (m :: members))
    end.
    rewrite IH; [reflexivity | discriminate | exact Hall |].
    simpl in Hfuel |- *. lia.
Qed.

Lemma Forall_written (P : string * value -> Prop) (props : list (string * value)) :
  List.Forall P props -> List.Forall P (written props).
Proof.
  intros H. apply List.Forall_forall. intros kv Hin.
  apply List.filter_In in Hin. destruct Hin as [Hin _].
  exact (proj1 (List.Forall_forall _ _) H kv Hin).
Qed.

(** Reading a written value gives what JSON keeps of it. *)
Lemma read_value_print (v : value) :
  forall fuel rest,
    (weight v <= fuel)%nat -> delimited rest ->
    JsonText.read_value fuel (JsonText.print_value v +:+ rest)
    = Some (jsonImage v, rest).
Proof.
  induction v as [| | b | x | s | items IH | props IH] using value_induction;
    intros fuel rest Hfuel Hrest;
    (destruct fuel as [| f]; [simpl in Hfuel; lia |]).
  - reflexivity.
  - reflexivity.
  - destruct b; reflexivity.
  - cbn [JsonText.print_value jsonImage].
    destruct (Number_isFinite x) eqn:Hfin.
    + destruct (print_number_head x rest Hfin) as (c & r & Hhead & Hc).
      destruct (read_number_print x rest Hfin (delimited_numberEnds rest Hrest))
        as (y & Hy & Hread).
      rewrite Hy. rewrite Hhead in Hread |- *.
      rewrite read_value_step.
      destruct (startsNumber_dispatch c Hc)
        as (-> & -> & -> & -> & -> & -> & _ & _).
      rewrite Hread. reflexivity.
    + unfold Number_isFinite in Hfin. unfold JsonText.print_number, jsonNumber.
      destruct (Prim2SF x); try discriminate; reflexivity.
  - cbn [JsonText.print_value jsonImage].
    rewrite print_string_append, read_value_step.
    change (Ascii.eqb JsonText.quote JsonText.quote) with true. cbv iota.
    rewrite read_string_print. reflexivity.
  - cbn [JsonText.print_value jsonImage weight] in *.
    rewrite !append_assoc.
    change ("[" +:+ ?a)%string with (String "[" a).
    change ("]" +:+ rest)%string with (String "]" rest).
    rewrite read_value_step.
    change (Ascii.eqb "[" JsonText.quote) with false.
    change (Ascii.eqb "[" "[") with true. cbv iota.
    destruct items as [| x items]; [reflexivity |].
    destruct (print_value_head x
                ("," +:+ JsonText.join (List.map JsonText.print_value items)
                 +:+ String "]" rest)%string) as (c & r & Hhead & Hc & _).
    assert (Htext : exists c r,
              (JsonText.join (List.map JsonText.print_value (x :: items))
               +:+ String "]" rest)%string = String c r /\
              Ascii.eqb c "]" = false).
    { destruct items as [| y items].
      - destruct (print_value_head x (String "]" rest)) as (c0 & r0 & H0 & Hc0 & _).
        exists c0, r0. split; [exact H0 | exact Hc0].
      - cbn [List.map]. rewrite join_cons by discriminate.
        rewrite !append_assoc.
        destruct (print_value_head x
                    ("," +:+ JsonText.join (JsonText.print_value y
                                             :: List.map JsonText.print_value items)
                     +:+ String "]" rest)%string) as (c0 & r0 & H0 & Hc0 & _).
        exists c0, r0. split; [exact H0 | exact Hc0]. }
    destruct Htext as (c0 & r0 & Htext & Hc0).
    pose proof (read_elements_print (x :: items) ltac:(discriminate) IH f rest
                  ltac:(lia)) as Hread.
    rewrite Htext in Hread |- *. rewrite Hc0, Hread. reflexivity.
  - cbn [JsonText.print_value jsonImage weight] in *.
    rewrite print_members_written, jsonImage_members_written.
    rewrite weight_members_written in Hfuel.
    apply Forall_written in IH.
    rewrite !append_assoc.
    change ("{" +:+ ?a)%string with (String "{" a).
    change ("}" +:+ rest)%string with (String "}" rest).
    rewrite read_value_step.
    change (Ascii.eqb "{" JsonText.quote) with false.
    change (Ascii.eqb "{" "[") with false.
    change (Ascii.eqb "{" "{") with true. cbv iota.
    destruct (written props) as [| [k x] members]; [reflexivity |].
    pose proof (read_members_print ((k, x) :: members) ltac:(discriminate) IH f rest
                  ltac:(lia)) as Hread.
    assert (Htext : exists r,
              (JsonText.join
                 (List.map
                    (fun kv => JsonText.print_string (fst kv) +:+ ":"
                               +:+ JsonText.print_value (snd kv))
                    ((k, x) :: members)) +:+ String "}" rest)%string
              = String JsonText.quote r).
    { destruct members as [| m members].
      - cbn [List.map fst snd]. unfold JsonText.join. cbn [String.concat].
        rewrite !append_assoc, print_string_append. eexists. reflexivity.
      - cbn [List.map fst snd]. rewrite join_cons by discriminate.
        rewrite !append_assoc, print_string_append. eexists. reflexivity. }
    destruct Htext as (r0 & Htext).
    rewrite Htext in Hread |- *.
    change (Ascii.eqb JsonText.quote "}") with false. cbv iota.
    rewrite Hread. reflexivity.
Qed.

Lemma join_length (A : Type) (text : A -> string) (w : A -> nat) (l : list A) :
  List.Forall (fun a => (w a <= String.length (text a))%nat) l ->
  (list_sum (List.map (fun a => S (w a)) l)
   <= String.length (JsonText.join (List.map text l)) + 1)%nat.
Proof.
  induction l as [| a l IH]; intros Hall; [simpl; lia |].
  apply List.Forall_cons_iff in Hall. destruct Hall as [Ha Hall].
  specialize (IH Hall).
  cbn [List.map]. change (list_sum (?x :: ?r)) with (x + list_sum r)%nat.
  destruct l as [| b l].
  - unfold JsonText.join. cbn [List.map String.concat].
    change (list_sum []) with 0%nat. lia.
  - cbn [List.map] in IH |- *. rewrite join_cons by discriminate.
    rewrite !length_append.
    change (String.length ",") with 1%nat. lia.
Qed.

Lemma weight_le_length (v : value) :
  (weight v <= String.length (JsonText.print_value v))%nat.
Proof.
  induction v as [| | b | x | s | items IH | props IH] using value_induction.
  - simpl. lia.
  - simpl. lia.
  - destruct b; simpl; lia.
  - cbn [weight JsonText.print_value].
    destruct (Number_isFinite x) eqn:Hfin.
    + destruct (print_number_head x "" Hfin) as (c & r & Hhead & _).
      rewrite append_empty in Hhead. rewrite Hhead. simpl. lia.
    + unfold Number_isFinite in Hfin. unfold JsonText.print_number.
      destruct (Prim2SF x); try discriminate; simpl; lia.
  - cbn [weight JsonText.print_value]. unfold JsonText.print_string.
    simpl String.length. lia.
  - cbn [weight JsonText.print_value].
    rewrite !length_append. simpl String.length.
    pose proof (join_length value JsonText.print_value weight items IH). lia.
  - cbn [weight JsonText.print_value].
    rewrite print_members_written, weight_members_written.
    rewrite !length_append. simpl String.length.
    apply Forall_written in IH.
    pose proof (join_length (string * value)
                  (fun kv => JsonText.print_string (fst kv) +:+ ":"
                             +:+ JsonText.print_value (snd kv))
                  (fun kv => weight (snd kv)) (written props)) as H.
    cbv beta in H.
    assert (Hall : List.Forall
                     (fun a : string * value =>
                        (weight (snd a)
                         <= String.length
                              (JsonText.print_string (fst a) +:+ ":"
                               +:+ JsonText.print_value (snd a)))%nat)
                     (written props)).
    { eapply List.Forall_impl; [| exact IH].
      intros kv Hkv. cbv beta in Hkv |- *. rewrite !length_append. lia. }
    specialize (H Hall). lia.
Qed.

(** The text codec reads every written value back as what JSON keeps of
    it. *)
Lemma JsonText_roundtrip (v : value) :
  JsonText.JSON_parse (JsonText.JSON_stringify v) = Normal (jsonImage v).
Proof.
  unfold JsonText.JSON_parse, JsonText.JSON_stringify.
  pose proof (read_value_print v (S (String.length (JsonText.print_value v)))
                EmptyString) as H.
  rewrite append_empty in H. rewrite H; [reflexivity | | exact I].
  pose proof (weight_le_length v). lia.
Qed.

(* ------------------------------------------------------------------------- *)
(** ** Properties of the persistence adapter and of the import *)
(* ------------------------------------------------------------------------- *)

Lemma defaultState_value (w : World) :
  defaultState w
  = (Normal (BudgetState_toValue (defaultDataset (randomIds w))), afterDraws 7 w).
Proof. reflexivity. Qed.

(** *** What JSON keeps of a state *)

Lemma jsonNumber_fixed (x : float) :
  jsonNumber x = VNumber x <-> storable x = true.
Proof.
  unfold jsonNumber, storable.
  destruct (Prim2SF x) as [s | s | | s m e] eqn:Hx.
  - split.
    + intros H. injection H as H. rewrite <- H in Hx.
      change (Prim2SF 0%float) with (S754_zero false) in Hx.
      injection Hx as <-. reflexivity.
    + destruct s; [discriminate |]. intros _. f_equal.
      apply Prim2SF_inj. rewrite Hx. reflexivity.
  - split; discriminate.
  - split; discriminate.
  - split; reflexivity.
Qed.

(** A number is kept as a number or replaced by [null]. *)
Lemma jsonNumber_cases (x : float) :
  (Number_isFinite x = true /\ exists y, jsonNumber x = VNumber y) \/
  (Number_isFinite x = false /\ jsonNumber x = VNull).
Proof.
  unfold jsonNumber, Number_isFinite.
  destruct (Prim2SF x); [left | right | right | left]; split; eauto.
Qed.

Lemma jsonImage_Expense (e : Expense) :
  jsonImage (Expense_toValue e)
  = VObject [ ("id", VString (id e));
              ("name", VString (name e));
              ("amount", jsonNumber (amount e));
              ("dueDay", jsonNumber (Z_to_float (dueDay e)));
              ("category", VString (category e)) ]%string.
Proof. reflexivity. Qed.

Lemma jsonImage_IncomeConfig (i : IncomeConfig) :
  jsonImage (IncomeConfig_toValue i)
  = VObject [ ("paycheckDays",
               VArray [ jsonNumber (Z_to_float (fst (paycheckDays i)));
                        jsonNumber (Z_to_float (snd (paycheckDays i))) ]);
              ("netPerPaycheck", jsonNumber (netPerPaycheck i));
              ("extras", jsonNumber (extras i)) ]%string.
Proof. reflexivity. Qed.

Lemma jsonImage_BudgetState (s : BudgetState) :
  jsonImage (BudgetState_toValue s)
  = VObject [ ("income", jsonImage (IncomeConfig_toValue (income s)));
              ("expenses",
               VArray (List.map (fun e => jsonImage (Expense_toValue e))
                         (expenses s))) ]%string.
Proof.
  unfold BudgetState_toValue. cbn [jsonImage List.flat_map fst snd jsonMember app].
  rewrite List.map_map. reflexivity.
Qed.

(** What JSON keeps of a state has the shape of a state. *)
Lemma jsonImage_state_shape (s : BudgetState) :
  hasRequiredShape (jsonImage (BudgetState_toValue s)) = true.
Proof. rewrite jsonImage_BudgetState. reflexivity. Qed.

(** JSON keeps all of a state exactly when its numbers are finite and none
    is the negative zero. *)
Lemma jsonImage_state_fixed (s : BudgetState) :
  jsonImage (BudgetState_toValue s) = BudgetState_toValue s <-> storableState s.
Proof.
  rewrite jsonImage_BudgetState, jsonImage_IncomeConfig.
  unfold BudgetState_toValue, IncomeConfig_toValue, storableState.
  assert (Hlist : List.map (fun e => jsonImage (Expense_toValue e)) (expenses s)
                  = List.map Expense_toValue (expenses s)
                  <-> List.Forall
                        (fun e => storable (amount e) = true /\
                                  storable (Z_to_float (dueDay e)) = true)
                        (expenses s)).
  { induction (expenses s) as [| e rest IH]; [split; [constructor | reflexivity] |].
    cbn [List.map]. rewrite List.Forall_cons_iff, <- IH, jsonImage_Expense.
    rewrite <- !jsonNumber_fixed.
    unfold Expense_toValue. split.
    - intros H. injection H as Ha Hd Hrest. auto.
    - intros [[Ha Hd] Hrest]. rewrite Ha, Hd, Hrest. reflexivity. }
  rewrite <- Hlist, <- !jsonNumber_fixed.
  split.
  - intros H. injection H as H1 H2 H3 H4 H5. auto.
  - intros [(H1 & H2 & H3 & H4) H5].
    rewrite H1, H2, H3, H4, H5. reflexivity.
Qed.

(** The days of a month, as numbers, are kept. *)
Lemma storable_day (z : Z) : 1 <= z <= 31 -> storable (Z_to_float z) = true.
Proof.
  intros Hz.
  assert (Hc : z = 1 \/ z = 2 \/ z = 3 \/ z = 4 \/ z = 5 \/ z = 6 \/ z = 7
               \/ z = 8 \/ z = 9 \/ z = 10 \/ z = 11 \/ z = 12 \/ z = 13
               \/ z = 14 \/ z = 15 \/ z = 16 \/ z = 17 \/ z = 18 \/ z = 19
               \/ z = 20 \/ z = 21 \/ z = 22 \/ z = 23 \/ z = 24 \/ z = 25
               \/ z = 26 \/ z = 27 \/ z = 28 \/ z = 29 \/ z = 30 \/ z = 31)
    by lia.
  repeat (destruct Hc as [-> | Hc]); try subst z; reflexivity.
Qed.

Section PersistenceProperties.

Variable JSON_parse : string -> completion value.
Variable JSON_stringify : value -> string.

(** [JSON.parse("")] throws a SyntaxError. *)
Hypothesis JSON_parse_empty : exists m, JSON_parse "" = Throw m.

(** The [try] block of [loadState] on a stored text. *)
Lemma loadState_stored (w : World) (raw : string) :
  localStorage w !! STORAGE_KEY = Some raw ->
  loadState JSON_parse w
  = match JSON_parse raw with
    | Normal p => if hasRequiredShape p then (Normal p, w) else defaultState w
    | Throw _ => defaultState w
    end.
Proof.
  intros Hraw.
  unfold loadState, try_catch, bind, localStorage_getItem, lift.
  rewrite Hraw. simpl.
  destruct (String.eqb_spec raw "") as [-> | _].
  - destruct JSON_parse_empty as [m ->]. reflexivity.
  - destruct (JSON_parse raw) as [p | m]; [| reflexivity].
    unfold readProp, hasRequiredShape.
    destruct p as [| | b | x | s | items | props]; simpl; try reflexivity.
    destruct (truthy (lookupProp "income" props)); simpl; [| reflexivity].
    destruct (Array_isArray (lookupProp "expenses" props)); reflexivity.
Qed.

(** C6.  [loadState] never raises.  When the storage key is absent, when
    its text does not parse, and when the parsed value lacks a truthy
    [income] or an array [expenses], it returns the default dataset (the
    object literal of its [catch] branch, with freshly drawn ids); when the
    text parses to a value with a truthy [income] and an array [expenses],
    it returns that value and changes nothing. *)
Theorem loadState_fallback (w : World) :
  (exists v w', loadState JSON_parse w = (Normal v, w')) /\
  (localStorage w !! STORAGE_KEY = None ->
   loadState JSON_parse w = defaultState w) /\
  (forall raw m,
     localStorage w !! STORAGE_KEY = Some raw -> JSON_parse raw = Throw m ->
     loadState JSON_parse w = defaultState w) /\
  (forall raw p,
     localStorage w !! STORAGE_KEY = Some raw -> JSON_parse raw = Normal p ->
     hasRequiredShape p = false ->
     loadState JSON_parse w = defaultState w) /\
  (forall raw p,
     localStorage w !! STORAGE_KEY = Some raw -> JSON_parse raw = Normal p ->
     hasRequiredShape p = true ->
     loadState JSON_parse w = (Normal p, w)) /\
  defaultState w
  = (Normal (BudgetState_toValue (defaultDataset (randomIds w))), afterDraws 7 w).
Proof.
  assert (Habsent : localStorage w !! STORAGE_KEY = None ->
                    loadState JSON_parse w = defaultState w).
  { intros Hnone.
    unfold loadState, try_catch, bind, localStorage_getItem.
    rewrite Hnone. reflexivity. }
  repeat split.
  - destruct (localStorage w !! STORAGE_KEY) as [raw |] eqn:Hraw.
    + rewrite (loadState_stored w raw Hraw).
      destruct (JSON_parse raw) as [p | m];
        [destruct (hasRequiredShape p) |]; eauto.
    + rewrite (Habsent eq_refl). eauto.
  - exact Habsent.
  - intros raw m Hraw Hparse.
    rewrite (loadState_stored w raw Hraw), Hparse. reflexivity.
  - intros raw p Hraw Hparse Hshape.
    rewrite (loadState_stored w raw Hraw), Hparse, Hshape. reflexivity.
  - intros raw p Hraw Hparse Hshape.
    rewrite (loadState_stored w raw Hraw), Hparse, Hshape. reflexivity.
Qed.

(** The [try] block of the import handler on a text. *)
Lemma onImport_text (text : string) (state : value) (w : World) :
  onImport JSON_parse (Some text) state w
  = match JSON_parse text with
    | Normal p =>
        if hasRequiredShape p then (Normal p, w)
        else (Normal state, afterAlert "Import failed: Invalid file" w)
    | Throw m =>
        (Normal state,
         afterAlert ("Import failed: "
                     +:+ (if String.eqb m "" then "Invalid file" else m)) w)
    end.
Proof.
  unfold onImport, try_catch, bind, lift.
  destruct (JSON_parse text) as [p | m]; [| reflexivity].
  unfold readProp, hasRequiredShape.
  destruct p as [| | b | x | s | items | props]; simpl; try reflexivity.
  - destruct b; reflexivity.
  - destruct (Prim2SF x); reflexivity.
  - destruct (String.eqb s ""); reflexivity.
  - destruct (truthy (lookupProp "income" props)); simpl; [| reflexivity].
    destruct (Array_isArray (lookupProp "expenses" props)); reflexivity.
Qed.

(** C7.  Import is all-or-nothing: a text that does not parse, or that
    parses to a value without a truthy [income] or without an array
    [expenses], is rejected with an alert and the state stays what it was;
    a text that parses to a value of that shape replaces the whole state. *)
Theorem onImport_all_or_nothing (text : string) (state : value) (w : World) :
  (forall m, JSON_parse text = Throw m ->
     exists message,
       onImport JSON_parse (Some text) state w = (Normal state, afterAlert message w)) /\
  (forall p, JSON_parse text = Normal p -> hasRequiredShape p = false ->
     onImport JSON_parse (Some text) state w
     = (Normal state, afterAlert "Import failed: Invalid file" w)) /\
  (forall p, JSON_parse text = Normal p -> hasRequiredShape p = true ->
     onImport JSON_parse (Some text) state w = (Normal p, w)).
Proof.
  rewrite onImport_text. repeat split.
  - intros m ->. eauto.
  - intros p -> ->. reflexivity.
  - intros p -> ->. reflexivity.
Qed.

(** What [loadState] finds after [saveState(state)]. *)
Lemma loadState_after_saveState (state : value) (w : World) :
  saveState JSON_stringify state w = (Normal tt, afterStore (JSON_stringify state) w) /\
  loadState JSON_parse (afterStore (JSON_stringify state) w)
  = match JSON_parse (JSON_stringify state) with
    | Normal p =>
        if hasRequiredShape p
        then (Normal p, afterStore (JSON_stringify state) w)
        else defaultState (afterStore (JSON_stringify state) w)
    | Throw _ => defaultState (afterStore (JSON_stringify state) w)
    end.
Proof.
  split; [reflexivity |].
  apply loadState_stored. unfold afterStore. simpl.
  apply lookup_insert_eq.
Qed.

(** The platform's codec on the documents of states: [JSON.parse] reads the
    text that [JSON.stringify] writes for a state back as what JSON keeps of
    the state (ECMAScript's [SerializeJSONProperty] writes [null] for a
    number that is not finite and [0] for the negative zero, and reading a
    written finite number gives the number). *)
Hypothesis JSON_documents :
  forall s : BudgetState,
    JSON_parse (JSON_stringify (BudgetState_toValue s))
    = Normal (jsonImage (BudgetState_toValue s)).

(** C8, amended.  Loading after saving returns what JSON keeps of the
    state, the store being left as [saveState] wrote it: the state with
    every number that is not finite replaced by [null] and every negative
    zero by [0].  So the round trip gives the state back exactly when all
    its numbers are finite and none is the negative zero. *)
Theorem loadState_saveState_roundtrip (s : BudgetState) (w : World) :
  let doc := BudgetState_toValue s in
  let w' := afterStore (JSON_stringify doc) w in
  saveState JSON_stringify doc w = (Normal tt, w') /\
  loadState JSON_parse w' = (Normal (jsonImage doc), w') /\
  (jsonImage doc = doc <-> storableState s).
Proof.
  intros doc w'.
  destruct (loadState_after_saveState doc w) as [Hsave Hload].
  fold w' in Hsave, Hload.
  split; [exact Hsave |]. split.
  - rewrite Hload. unfold doc. rewrite JSON_documents.
    rewrite jsonImage_state_shape. reflexivity.
  - apply jsonImage_state_fixed.
Qed.

End PersistenceProperties.

Lemma JsonText_parse_empty : exists m, JsonText.JSON_parse "" = Throw m.
Proof. eexists. reflexivity. Qed.

(** The text codec has the property asked of the platform's. *)
Lemma JsonText_documents (s : BudgetState) :
  JsonText.JSON_parse (JsonText.JSON_stringify (BudgetState_toValue s))
  = Normal (jsonImage (BudgetState_toValue s)).
Proof. apply JsonText_roundtrip. Qed.

Lemma JsonText_roundtrip_sample :
  JsonText.JSON_parse (JsonText.JSON_stringify (BudgetState_toValue sampleState))
  = Normal (BudgetState_toValue sampleState).
Proof. vm_compute. reflexivity. Qed.

(** C8, as stated, fails for a state that holds a number JSON cannot
    write: [JSON.stringify] writes an infinite amount as [null], and that is
    what [loadState] returns in its place. *)
Lemma loadState_saveState_infinity_counterexample :
  expenseInvariant (expenses overflowState) /\
  exists w' v,
    saveState JsonText.JSON_stringify (BudgetState_toValue overflowState) freshWorld
    = (Normal tt, w') /\
    loadState JsonText.JSON_parse w' = (Normal v, w') /\
    getProp v "expenses"
    = Some (VArray [VObject [ ("id", VString "k3x9p1a");
                              ("name", VString "Rent");
                              ("amount", VNull);
                              ("dueDay", VNumber 1);
                              ("category", VString "fixed") ]%string]) /\
    v <> BudgetState_toValue overflowState.
Proof.
  split.
  - split.
    + constructor; [| constructor]. simpl. split; [reflexivity | lia].
    + simpl. constructor; [intros [] | constructor].
  - destruct (loadState_after_saveState JsonText.JSON_parse JsonText.JSON_stringify
                JsonText_parse_empty (BudgetState_toValue overflowState) freshWorld)
      as [Hsave Hload].
    eexists _, _. split; [exact Hsave |]. split; [| split].
    + rewrite Hload. vm_compute. reflexivity.
    + vm_compute. reflexivity.
    + intros H. vm_compute in H. discriminate H.
Qed.

Lemma loadState_fallback_witness :
  let stored := JsonText.JSON_stringify (BudgetState_toValue sampleState) in
  (exists m, JsonText.JSON_parse "" = Throw m) /\
  loadState JsonText.JSON_parse freshWorld = defaultState freshWorld /\
  loadState JsonText.JSON_parse (afterStore stored freshWorld)
  = (Normal (BudgetState_toValue sampleState), afterStore stored freshWorld).
Proof.
  intros stored.
  split; [exact JsonText_parse_empty |]. split.
  - destruct (loadState_fallback JsonText.JSON_parse JsonText_parse_empty
                freshWorld) as (_ & Habsent & _).
    apply Habsent. reflexivity.
  - destruct (loadState_fallback JsonText.JSON_parse JsonText_parse_empty
                (afterStore stored freshWorld)) as (_ & _ & _ & _ & Hgood & _).
    apply (Hgood stored).
    + apply lookup_insert_eq.
    + exact JsonText_roundtrip_sample.
    + reflexivity.
Defined.

Lemma loadState_saveState_roundtrip_witness :
  let doc := BudgetState_toValue sampleState in
  let w' := afterStore (JsonText.JSON_stringify doc) freshWorld in
  ((exists m, JsonText.JSON_parse "" = Throw m) /\
   (forall s : BudgetState,
      JsonText.JSON_parse (JsonText.JSON_stringify (BudgetState_toValue s))
      = Normal (jsonImage (BudgetState_toValue s)))) /\
  saveState JsonText.JSON_stringify doc freshWorld = (Normal tt, w') /\
  loadState JsonText.JSON_parse w' = (Normal (jsonImage doc), w') /\
  (jsonImage doc = doc <-> storableState sampleState) /\
  storableState sampleState.
Proof.
  intros doc w'.
  split; [split; [exact JsonText_parse_empty | exact JsonText_documents] |].
  destruct (loadState_saveState_roundtrip JsonText.JSON_parse
              JsonText.JSON_stringify JsonText_parse_empty JsonText_documents
              sampleState freshWorld) as (Hsave & Hload & Hiff).
  split; [exact Hsave |]. split; [exact Hload |]. split; [exact Hiff |].
  split; [repeat split |].
  repeat constructor.
Defined.

(* ------------------------------------------------------------------------- *)
(** ** Properties of the add-expense path *)
(* ------------------------------------------------------------------------- *)

(** A finite number that is not [<= 0] is [> 0]. *)
Lemma finite_not_le_zero (a : float) :
  Number_isFinite a = true -> (a <=? 0)%float = false -> (0 <? a)%float = true.
Proof.
  unfold Number_isFinite.
  rewrite FloatAxioms.leb_spec, FloatAxioms.ltb_spec.
  change (Prim2SF 0%float) with (S754_zero false).
  destruct (Prim2SF a) as [s | s | | s m e]; simpl; try discriminate.
  destruct s; simpl; [discriminate | reflexivity].
Qed.

(** What [submit] does, by the outcome of its validation. *)
Lemma submit_cases (Number : string -> float) (st : AddExpenseDialog.State)
    (w : World) :
  let n := trim (AddExpenseDialog.name st) in
  let a := Number (AddExpenseDialog.amount st) in
  let d := Number (AddExpenseDialog.dueDay st) in
  AddExpenseDialog.submit Number st w = (Normal (st, None), w) \/
  (exists z,
     n <> "" /\ Number_isFinite a = true /\ (0 <? a)%float = true /\
     integerValue d = Some z /\
     AddExpenseDialog.submit Number st w
     = (Normal (AddExpenseDialog.cleared,
                Some (mkExpense (randomIds w 0%nat) n a z
                        (AddExpenseDialog.category st))),
        afterDraws 1 w)).
Proof.
  intros n a d. unfold AddExpenseDialog.submit. fold n a d.
  destruct (String.eqb_spec n "") as [Hn | Hn]; simpl; [left; reflexivity |].
  destruct (Number_isFinite a) eqn:Hfin; simpl; [| left; reflexivity].
  destruct (a <=? 0)%float eqn:Hle; simpl; [left; reflexivity |].
  unfold Number_isInteger.
  destruct (integerValue d) as [z |] eqn:Hint; simpl; [| left; reflexivity].
  right. exists z.
  repeat split; try assumption.
  apply finite_not_le_zero; assumption.
Qed.

(** C9, as stated, fails.  The validation lets any integer due day
    through: from an empty collection, entering name Gym, amount 500 and due
    day 45 adds an expense whose due day is 45.  And nothing compares the
    string that [uid()] draws with the ids in use: when it draws the id of
    the stored expense again, two expenses share it. *)
Lemma saveClicked_invariant_counterexample :
  let st := AddExpenseDialog.mkState true "Gym" "500" "45" "fixed" in
  let s := mkBudgetState (mkIncomeConfig (1, 16) 20000 0) [] in
  let st2 := AddExpenseDialog.mkState true "Water" "600" "10" "fixed" in
  let s2 := mkBudgetState (mkIncomeConfig (1, 16) 20000 0)
              [mkExpense "k3x9p1a" "Rent" 10000 1 "fixed"] in
  (expenseInvariant (expenses s) /\
   exists st' s' w',
     saveClicked decimalNumber st s freshWorld = (Normal (st', s'), w') /\
     expenses s' = [mkExpense "0" "Gym" 500 45 "fixed"] /\
     ~ expenseInvariant (expenses s')) /\
  (expenseInvariant (expenses s2) /\
   exists st' s' w',
     saveClicked decimalNumber st2 s2 (stuckWorld "k3x9p1a")
     = (Normal (st', s'), w') /\
     expenses s' = [mkExpense "k3x9p1a" "Rent" 10000 1 "fixed";
                    mkExpense "k3x9p1a" "Water" 600 10 "fixed"] /\
     ~ expenseInvariant (expenses s')).
Proof.
  intros st s st2 s2. split; split.
  - split; constructor.
  - exists AddExpenseDialog.cleared,
      (mkBudgetState (income s) [mkExpense "0" "Gym" 500 45 "fixed"]),
      (afterDraws 1 freshWorld).
    split; [vm_compute; reflexivity | split; [reflexivity |]].
    intros [Hall _]. apply List.Forall_inv in Hall. simpl in Hall. lia.
  - split.
    + constructor; [| constructor]. simpl. split; [reflexivity | lia].
    + simpl. constructor; [intros [] | constructor].
  - exists AddExpenseDialog.cleared,
      (mkBudgetState (income s2)
         [mkExpense "k3x9p1a" "Rent" 10000 1 "fixed";
          mkExpense "k3x9p1a" "Water" 600 10 "fixed"]),
      (afterDraws 1 (stuckWorld "k3x9p1a")).
    split; [vm_compute; reflexivity | split; [reflexivity |]].
    intros [_ Hnodup]. simpl in Hnodup.
    apply List.NoDup_cons_iff in Hnodup. destruct Hnodup as [Hnotin _].
    apply Hnotin. left. reflexivity.
Qed.

(** C9, amended.  Clicking Save never raises.  It either leaves the state
    as it was or appends one expense, with a non-empty name, a finite amount
    above 0 and the id drawn by [uid()].  From a state that satisfies the
    invariant it leaves every stored amount positive, and the state
    satisfies the whole invariant again whenever the entered due day, if an
    integer, lies in 1..31 and the id drawn is not in use. *)
Theorem saveClicked_preserves_invariant (Number : string -> float)
    (st : AddExpenseDialog.State) (s : BudgetState) (w : World) :
  expenseInvariant (expenses s) ->
  exists st' s' w',
    saveClicked Number st s w = (Normal (st', s'), w') /\
    (s' = s \/
     exists e, s' = addExpense e s /\ name e <> "" /\
               Number_isFinite (amount e) = true /\
               (0 <? amount e)%float = true /\ id e = randomIds w 0%nat) /\
    Forall (fun e => (0 <? amount e)%float = true) (expenses s') /\
    ((forall z, integerValue (Number (AddExpenseDialog.dueDay st)) = Some z ->
                1 <= z <= 31) ->
     ~ In (randomIds w 0%nat) (List.map id (expenses s)) ->
     expenseInvariant (expenses s')).
Proof.
  intros [Hall Hnodup].
  assert (Hpos : Forall (fun e => (0 <? amount e)%float = true) (expenses s)).
  { eapply List.Forall_impl; [| exact Hall]. intros e [He _]. exact He. }
  unfold saveClicked, bind.
  destruct (submit_cases Number st w) as [-> | (z & Hn & Hfin & Ha & Hz & ->)].
  - eexists _, _, _. split; [reflexivity |]. simpl.
    split; [left; reflexivity |].
    split; [exact Hpos |]. intros _ _. split; assumption.
  - eexists _, _, _. split; [reflexivity |]. simpl.
    split; [right; eexists; repeat split; assumption |].
    split.
    + apply List.Forall_app. split; [exact Hpos |].
      constructor; [exact Ha | constructor].
    + intros Hday Hfresh. split.
      * apply List.Forall_app. split; [exact Hall |].
        constructor; [| constructor]. simpl. split; [exact Ha | exact (Hday z Hz)].
      * rewrite List.map_app. simpl.
        apply List.NoDup_app; [exact Hnodup | repeat constructor; intros [] |].
        intros i Hi [<- | []]. exact (Hfresh Hi).
Qed.

Lemma saveClicked_preserves_invariant_witness :
  let st := AddExpenseDialog.mkState true " Water " "600.5" "10" "fixed" in
  let s := mkBudgetState (mkIncomeConfig (1, 16) 20000 0)
             [mkExpense "k3x9p1a" "Rent" 10000 1 "fixed"] in
  expenseInvariant (expenses s) /\
  exists st' s' w',
    saveClicked decimalNumber st s freshWorld = (Normal (st', s'), w') /\
    (s' = s \/
     exists e, s' = addExpense e s /\ name e <> "" /\
               Number_isFinite (amount e) = true /\
               (0 <? amount e)%float = true /\ id e = randomIds freshWorld 0%nat) /\
    Forall (fun e => (0 <? amount e)%float = true) (expenses s') /\
    ((forall z, integerValue (decimalNumber (AddExpenseDialog.dueDay st)) = Some z ->
                1 <= z <= 31) ->
     ~ In (randomIds freshWorld 0%nat) (List.map id (expenses s)) ->
     expenseInvariant (expenses s')).
Proof.
  intros st s.
  assert (H : expenseInvariant (expenses s)).
  { split.
    - constructor; [| constructor]. simpl. split; [reflexivity | lia].
    - simpl. constructor; [intros [] | constructor]. }
  split; [exact H |].
  exact (saveClicked_preserves_invariant decimalNumber st s freshWorld H).
Defined.

(* ------------------------------------------------------------------------- *)
(** ** The expense store: [deleteExpense] and [addExpense] together *)
(* ------------------------------------------------------------------------- *)

Lemma deleteExpense_expenses (i : string) (s : BudgetState) :
  expenses (deleteExpense i s)
  = List.filter (fun e => negb (String.eqb (id e) i)) (expenses s).
Proof. reflexivity. Qed.

Lemma filter_other_ids_absent (i : string) (exps : list Expense) :
  ~ In i (List.map id exps) ->
  List.filter (fun e => negb (String.eqb (id e) i)) exps = exps.
Proof.
  induction exps as [| e rest IH]; intros Habsent; [reflexivity |].
  simpl in *. destruct (String.eqb_spec (id e) i) as [Heq | Hne]; simpl.
  - exfalso. apply Habsent. left. exact Heq.
  - f_equal. apply IH. intros Hin. apply Habsent. right. exact Hin.
Qed.

Lemma NoDup_map_filter {A B : Type} (f : A -> B) (p : A -> bool) (l : list A) :
  List.NoDup (List.map f l) -> List.NoDup (List.map f (List.filter p l)).
Proof.
  induction l as [| a rest IH]; intros Hnd; [constructor |].
  simpl in *. apply List.NoDup_cons_iff in Hnd. destruct Hnd as [Hnotin Hnd].
  destruct (p a); simpl; [| exact (IH Hnd)].
  constructor; [| exact (IH Hnd)].
  intros Hin. apply Hnotin.
  apply List.in_map_iff in Hin. destruct Hin as (x & Hfx & Hx).
  apply List.filter_In in Hx. destruct Hx as [Hx _].
  apply List.in_map_iff. exists x. split; assumption.
Qed.

Lemma filter_sublist {A : Type} (p : A -> bool) (l : list A) :
  sublist (List.filter p l) l.
Proof.
  induction l as [| a rest IH]; [constructor |].
  simpl. destruct (p a); [apply sublist_skip | apply sublist_cons]; exact IH.
Qed.

Lemma filter_length_split {A : Type} (p : A -> bool) (l : list A) :
  (length (List.filter (fun a => negb (p a)) l) + length (List.filter p l)
   = length l)%nat.
Proof.
  induction l as [| a rest IH]; [reflexivity |].
  simpl. destruct (p a); simpl; lia.
Qed.

(** [deleteExpense(id)] removes the expenses that carry the id, all of them
    and nothing else, and keeps the others in their order: what is left is
    the expense list with some entries struck out, it holds no expense with
    the id, and it is shorter by the number of expenses that carried the id.
    The delete leaves the income alone, changes nothing when no expense
    carries the id, and keeps the invariant of the collection. *)
Theorem deleteExpense_removes (i : string) (s : BudgetState) :
  sublist (expenses (deleteExpense i s)) (expenses s) /\
  ~ In i (List.map id (expenses (deleteExpense i s))) /\
  (length (expenses (deleteExpense i s))
   + length (List.filter (fun e => String.eqb (id e) i) (expenses s))
   = length (expenses s))%nat /\
  (forall e, In e (expenses (deleteExpense i s)) <->
             In e (expenses s) /\ id e <> i) /\
  income (deleteExpense i s) = income s /\
  (~ In i (List.map id (expenses s)) -> deleteExpense i s = s) /\
  (expenseInvariant (expenses s) ->
   expenseInvariant (expenses (deleteExpense i s))).
Proof.
  assert (Hmem : forall e, In e (expenses (deleteExpense i s)) <->
                           In e (expenses s) /\ id e <> i).
  { intros e. rewrite deleteExpense_expenses, List.filter_In.
    destruct (String.eqb_spec (id e) i); simpl; intuition congruence. }
  split; [rewrite deleteExpense_expenses; apply filter_sublist |].
  split; [| split; [| split; [exact Hmem | split; [reflexivity | split]]]].
  - intros Hin. apply List.in_map_iff in Hin. destruct Hin as (e & Hid & He).
    apply Hmem in He. destruct He as [_ Hne]. exact (Hne Hid).
  - rewrite deleteExpense_expenses.
    apply (filter_length_split (fun e => String.eqb (id e) i)).
  - intros Habsent. destruct s as [inc exps]. unfold deleteExpense. simpl in *.
    f_equal. apply filter_other_ids_absent. exact Habsent.
  - intros [Hall Hnd]. rewrite deleteExpense_expenses. split.
    + apply List.Forall_forall. intros e He.
      apply List.filter_In in He. destruct He as [He _].
      exact (proj1 (List.Forall_forall _ _) Hall e He).
    + apply NoDup_map_filter. exact Hnd.
Qed.

(** Deleting an expense that was just added, under an id no other expense
    carries, gives back the state from before the add. *)
Theorem deleteExpense_addExpense (e : Expense) (s : BudgetState) :
  ~ In (id e) (List.map id (expenses s)) ->
  deleteExpense (id e) (addExpense e s) = s.
Proof.
  intros Hfresh. destruct s as [inc exps]. unfold deleteExpense, addExpense.
  simpl in *. f_equal.
  rewrite List.filter_app, (filter_other_ids_absent _ _ Hfresh). simpl.
  rewrite String.eqb_refl. simpl. apply List.app_nil_r.
Qed.

Lemma deleteExpense_addExpense_witness :
  ~ In (id (mkExpense "b7q2m4z" "Water" 600 10 "fixed"))
       (List.map id (expenses (defaultDataset (randomIds freshWorld)))) /\
  deleteExpense (id (mkExpense "b7q2m4z" "Water" 600 10 "fixed"))
    (addExpense (mkExpense "b7q2m4z" "Water" 600 10 "fixed")
       (defaultDataset (randomIds freshWorld)))
  = defaultDataset (randomIds freshWorld).
Proof.
  assert (H : ~ In (id (mkExpense "b7q2m4z" "Water" 600 10 "fixed"))
                (List.map id (expenses (defaultDataset (randomIds freshWorld))))).
  { vm_compute. intros H. repeat (destruct H as [H | H]; [discriminate H |]).
    exact H. }
  split; [exact H |].
  exact (deleteExpense_addExpense (mkExpense "b7q2m4z" "Water" 600 10 "fixed")
           (defaultDataset (randomIds freshWorld)) H).
Defined.

(** When the id is already in use, the same delete takes the older expense
    away too: the tables key their rows and their delete buttons by id. *)
Theorem deleteExpense_shared_id (e : Expense) (s : BudgetState) :
  In (id e) (List.map id (expenses s)) ->
  (length (expenses (deleteExpense (id e) (addExpense e s)))
   < length (expenses s))%nat.
Proof.
  intros Hused. destruct s as [inc exps]. unfold deleteExpense, addExpense.
  simpl in *. rewrite List.filter_app. simpl.
  rewrite String.eqb_refl. simpl. rewrite List.app_nil_r.
  induction exps as [| x rest IH]; [destruct Hused |].
  simpl in *. destruct (String.eqb_spec (id x) (id e)) as [Heq | Hne]; simpl.
  - pose proof (List.filter_length_le
                  (fun e0 => negb (String.eqb (id e0) (id e))) rest). lia.
  - destruct Hused as [Hx | Hrest]; [contradiction |].
    specialize (IH Hrest). lia.
Qed.

Lemma deleteExpense_shared_id_witness :
  In (id (mkExpense "k3x9p1a" "Water" 600 10 "fixed"))
     (List.map id (expenses sampleState)) /\
  (length (expenses (deleteExpense (id (mkExpense "k3x9p1a" "Water" 600 10 "fixed"))
                       (addExpense (mkExpense "k3x9p1a" "Water" 600 10 "fixed")
                          sampleState)))
   < length (expenses sampleState))%nat.
Proof.
  assert (H : In (id (mkExpense "k3x9p1a" "Water" 600 10 "fixed"))
                 (List.map id (expenses sampleState))).
  { left. reflexivity. }
  split; [exact H |].
  exact (deleteExpense_shared_id (mkExpense "k3x9p1a" "Water" 600 10 "fixed")
           sampleState H).
Defined.

(* ------------------------------------------------------------------------- *)
(** ** The plan tab: tables, payday badges and the month grid *)
(* ------------------------------------------------------------------------- *)

(** The badge numbers of "This Month at a Glance":
    [paycheckDaysClamped[0] <= paycheckDaysClamped[1] ? 1 : 2] beside the
    first payday and [... ? 2 : 1] beside the second. *)
Definition badgeOfFirstPayday (pdc : dayNumber * dayNumber) : Z :=
  if DayNumber.leb (fst pdc) (snd pdc) then 1 else 2.

Definition badgeOfSecondPayday (pdc : dayNumber * dayNumber) : Z :=
  if DayNumber.leb (fst pdc) (snd pdc) then 2 else 1.

(** [days]: [Array.from({ length: dim }, (_, i) => i + 1)]. *)
Definition days (year monthIndex : Z) : list Z :=
  let dim := DateFns.getDaysInMonth (DateFns.new_Date year monthIndex 1) in
  List.map (fun i => Z.of_nat i + 1) (List.seq 0 (DayNumber.ToLength dim)).

(** The background of a cell of the month grid. *)
Inductive CellColour : Type :=
| PaydayOneColour     (* bg-emerald-500/20, legend "Payday #1" *)
| PaydayTwoColour     (* bg-blue-500/20, legend "Payday #2" *)
| BillColour          (* bg-muted, legend "Bill due" *)
| NoColour.           (* bg-transparent *)

(** [isP1 ? ... : isP2 ? ... : hasBill ? ... : ...] for the cell of day [d]. *)
Definition cellColour (pdc : dayNumber * dayNumber)
    (asg : list AssignedExpense) (d : Z) : CellColour :=
  let isP1 := DayNumber.eqb (Day d) (fst pdc) in
  let isP2 := DayNumber.eqb (Day d) (snd pdc) in
  let hasBill := List.existsb (fun e => dueDay (expense e) =? d) asg in
  if isP1 then PaydayOneColour
  else if isP2 then PaydayTwoColour
  else if hasBill then BillColour
  else NoColour.

(** The cells of the grid, in the order drawn. *)
Definition monthGrid (exps : list Expense) (inc : IncomeConfig)
    (year monthIndex : Z) : list (Z * CellColour) :=
  List.map
    (fun d => (d, cellColour (paycheckDaysClamped inc year monthIndex)
                    (assigned exps inc year monthIndex) d))
    (days year monthIndex).

(** Whether a due day lies in period one of a pair of paydays,
    [(first, second]], and whether it lies in period two, after [second] or
    up to [first]. *)
Definition dueInPeriodOne (pdc : dayNumber * dayNumber) (e : Expense) : bool :=
  DayNumber.ltb (DayNumber.Math_min (fst pdc) (snd pdc)) (Day (dueDay e))
  && DayNumber.leb (Day (dueDay e)) (DayNumber.Math_max (fst pdc) (snd pdc)).

Definition dueInPeriodTwo (pdc : dayNumber * dayNumber) (e : Expense) : bool :=
  DayNumber.ltb (DayNumber.Math_max (fst pdc) (snd pdc)) (Day (dueDay e))
  || DayNumber.leb (Day (dueDay e)) (DayNumber.Math_min (fst pdc) (snd pdc)).

(** The day that carries badge number [n]. *)
Definition dayWithBadge (n : Z) (pdc : dayNumber * dayNumber) : dayNumber :=
  if badgeOfFirstPayday pdc =? n then fst pdc else snd pdc.

(** The clamped paydays are two days of the month, or both [NaN]. *)
Lemma paycheckDaysClamped_cases (inc : IncomeConfig) (year monthIndex : Z) :
  (validMonth year monthIndex /\
   exists dim, daysInMonth year monthIndex = Day dim /\ 28 <= dim <= 31 /\
     paycheckDaysClamped inc year monthIndex
     = (Day (Z.min (Z.max 1 (fst (paycheckDays inc))) dim),
        Day (Z.min (Z.max 1 (snd (paycheckDays inc))) dim))) \/
  (~ validMonth year monthIndex /\ daysInMonth year monthIndex = NaN /\
   paycheckDaysClamped inc year monthIndex = (NaN, NaN)).
Proof.
  unfold paycheckDaysClamped.
  destruct (daysInMonth_cases year monthIndex)
    as [(Hv & dim & Hdim & Hrange) | (Hv & Hnan)]; [left | right].
  - split; [exact Hv |]. exists dim.
    rewrite !(clampDay_Day _ _ _ dim Hdim). auto.
  - rewrite !(clampDay_NaN _ year monthIndex) by (right; exact Hnan). auto.
Qed.

Lemma label_of_assigned (inc : IncomeConfig) (year monthIndex : Z) (e : Expense) :
  let pdc := paycheckDaysClamped inc year monthIndex in
  assignToPaycheck (Day (dueDay e)) (fst pdc) (snd pdc) year monthIndex
  = if dueInPeriodOne pdc e then Some 1
    else if dueInPeriodTwo pdc e then Some 2 else None.
Proof.
  intros pdc. unfold assignToPaycheck, dueInPeriodOne, dueInPeriodTwo.
  subst pdc. unfold paycheckDaysClamped. cbn [fst snd].
  rewrite !clampDay_idempotent. reflexivity.
Qed.

(** Period two is what period one leaves of a month that has a length, and
    both periods are empty on a month that has none. *)
Lemma periods_complement (inc : IncomeConfig) (year monthIndex : Z) (e : Expense) :
  let pdc := paycheckDaysClamped inc year monthIndex in
  (validMonth year monthIndex ->
   dueInPeriodTwo pdc e = negb (dueInPeriodOne pdc e)) /\
  (~ validMonth year monthIndex ->
   dueInPeriodOne pdc e = false /\ dueInPeriodTwo pdc e = false).
Proof.
  intros pdc. subst pdc. unfold dueInPeriodOne, dueInPeriodTwo.
  destruct (paycheckDaysClamped_cases inc year monthIndex)
    as [(Hv & dim & _ & _ & ->) | (Hv & _ & ->)];
    (split; [| intros; try contradiction]); try (intros; contradiction).
  - intros _. cbn [fst snd DayNumber.Math_min DayNumber.Math_max
                   DayNumber.ltb DayNumber.leb].
    match goal with
    | |- (Z.max ?a ?b <? ?d) || (?d <=? Z.min ?a ?b)
         = negb ((Z.min ?a ?b <? ?d) && (?d <=? Z.max ?a ?b)) =>
        destruct (Z.ltb_spec (Z.max a b) d), (Z.leb_spec d (Z.min a b)),
          (Z.ltb_spec (Z.min a b) d), (Z.leb_spec d (Z.max a b));
          cbn [andb orb negb]; solve [reflexivity | lia]
    end.
  - split; reflexivity.
Qed.

Lemma map_filter_tagged {A B : Type} (g : A -> B) (proj : B -> A)
    (p : B -> bool) (l : list A) :
  (forall a, proj (g a) = a) ->
  List.map proj (List.filter p (List.map g l))
  = List.filter (fun a => p (g a)) l.
Proof.
  intros Hproj. induction l as [| a rest IH]; [reflexivity |].
  cbn [List.map List.filter]. destruct (p (g a)); cbn [List.map];
    rewrite IH; [rewrite Hproj |]; reflexivity.
Qed.

(** One period cannot hold together with the other. *)
Lemma periods_disjoint (pdc : dayNumber * dayNumber) (e : Expense) :
  dueInPeriodOne pdc e = true -> dueInPeriodTwo pdc e = false.
Proof.
  unfold dueInPeriodOne, dueInPeriodTwo.
  destruct pdc as [[| a] [| b]]; cbn [fst snd DayNumber.Math_min
    DayNumber.Math_max DayNumber.ltb DayNumber.leb]; try discriminate.
  intros H. apply andb_prop in H. destruct H as [H1 H2].
  apply Z.ltb_lt in H1. apply Z.leb_le in H2.
  destruct (Z.ltb_spec (Z.max a b) (dueDay e)), (Z.leb_spec (dueDay e) (Z.min a b));
    cbn [orb]; solve [reflexivity | lia].
Qed.

Lemma paycheck_is_assigned (inc : IncomeConfig) (year monthIndex : Z) (e : Expense) :
  let pdc := paycheckDaysClamped inc year monthIndex in
  let a := mkAssigned e (assignToPaycheck (Day (dueDay e)) (fst pdc) (snd pdc)
                           year monthIndex) in
  paycheck_is 1 a = dueInPeriodOne pdc e /\
  paycheck_is 2 a = dueInPeriodTwo pdc e.
Proof.
  cbv zeta. unfold paycheck_is. cbn [paycheck].
  rewrite (label_of_assigned inc year monthIndex e).
  destruct (dueInPeriodOne (paycheckDaysClamped inc year monthIndex) e) eqn:H1.
  - rewrite (periods_disjoint _ _ H1). split; reflexivity.
  - destruct (dueInPeriodTwo (paycheckDaysClamped inc year monthIndex) e);
      split; reflexivity.
Qed.

(** Each of the two tables of the plan tab lists, in the order of the
    expense list, the expenses of its period: those due in
    [(min payday, max payday]] of the clamped paydays, and those due after
    the later or up to the earlier payday.  On a month that a [Date] can
    hold the second table lists exactly the expenses that the first one does
    not, so that no expense is dropped and none is listed twice; on any other
    month both tables are empty. *)
Theorem tables_by_interval (exps : list Expense) (inc : IncomeConfig)
    (year monthIndex : Z) :
  let pdc := paycheckDaysClamped inc year monthIndex in
  let asg := assigned exps inc year monthIndex in
  List.map expense (p1Items asg) = List.filter (dueInPeriodOne pdc) exps /\
  List.map expense (p2Items asg) = List.filter (dueInPeriodTwo pdc) exps /\
  (validMonth year monthIndex ->
   List.map expense (p2Items asg)
   = List.filter (fun e => negb (dueInPeriodOne pdc e)) exps) /\
  (~ validMonth year monthIndex -> p1Items asg = [] /\ p2Items asg = []).
Proof.
  intros pdc asg.
  assert (H1 : List.map expense (p1Items asg) = List.filter (dueInPeriodOne pdc) exps).
  { subst pdc asg. unfold assigned, p1Items. cbv zeta.
    rewrite map_filter_tagged by reflexivity.
    apply List.filter_ext. intros e.
    apply (paycheck_is_assigned inc year monthIndex e). }
  assert (H2 : List.map expense (p2Items asg) = List.filter (dueInPeriodTwo pdc) exps).
  { subst pdc asg. unfold assigned, p2Items. cbv zeta.
    rewrite map_filter_tagged by reflexivity.
    apply List.filter_ext. intros e.
    apply (paycheck_is_assigned inc year monthIndex e). }
  split; [exact H1 |]. split; [exact H2 |]. split.
  - intros Hv. rewrite H2. apply List.filter_ext. intros e.
    apply (periods_complement inc year monthIndex e). exact Hv.
  - intros Hv. apply unlabelled_tables_empty.
    apply assigned_unlabelled.
    destruct (daysInMonth_cases year monthIndex) as [[Hv' _] | [_ Hnan]];
      [contradiction | exact Hnan].
Qed.

Lemma tables_by_interval_witness :
  let inc := mkIncomeConfig (1, 16) 20000 0 in
  let exps := expenses (defaultDataset (randomIds freshWorld)) in
  (validMonth 2025 1 /\ ~ validMonth 300000 0) /\
  List.map expense (p2Items (assigned exps inc 2025 1))
  = List.filter
      (fun e => negb (dueInPeriodOne (paycheckDaysClamped inc 2025 1) e)) exps /\
  p1Items (assigned exps inc 300000 0) = [] /\
  p2Items (assigned exps inc 300000 0) = [].
Proof.
  intros inc exps.
  assert (H : validMonth 2025 1 /\ ~ validMonth 300000 0).
  { unfold validMonth. vm_compute. split; [split; discriminate |].
    intros [_ H]. apply H. reflexivity. }
  split; [exact H |]. destruct H as [Hv Hnv]. split.
  - exact (proj1 (proj2 (proj2 (tables_by_interval exps inc 2025 1))) Hv).
  - exact (proj2 (proj2 (proj2 (tables_by_interval exps inc 300000 0))) Hnv).
Defined.

(** On a month that a [Date] can hold, a due day that the month does not
    have (it is larger than the month is long), and likewise day 1 and
    anything below, always falls to paycheck 2, whatever the paydays: only
    the paydays are clamped, the due day is compared as stored.  On any
    other month every due day is left without a label. *)
Theorem assignToPaycheck_outside_month (dueDay p1 p2 year monthIndex : Z) :
  (validMonth year monthIndex ->
   dueDay <= 1 \/ DayNumber.lt (daysInMonth year monthIndex) (Day dueDay) ->
   assignToPaycheck (Day dueDay) (Day p1) (Day p2) year monthIndex = Some 2) /\
  (~ validMonth year monthIndex ->
   assignToPaycheck (Day dueDay) (Day p1) (Day p2) year monthIndex = None).
Proof.
  destruct (daysInMonth_cases year monthIndex)
    as [(Hv & dim & Hdim & Hrange) | (Hv & Hnan)]; split;
    try (intros; contradiction).
  - intros _ Hout. rewrite Hdim in Hout. unfold DayNumber.lt in Hout.
    cbn [DayNumber.ltb] in Hout. rewrite Z.ltb_lt in Hout.
    destruct (assignToPaycheck_Day dueDay p1 p2 year monthIndex dim Hdim)
      as [[Hin _] | [_ Heq]]; [lia | exact Heq].
  - intros _. apply assignToPaycheck_NaN. exact Hnan.
Qed.

Lemma assignToPaycheck_outside_month_witness :
  (validMonth 2025 3 /\
   (31 <= 1 \/ DayNumber.lt (daysInMonth 2025 3) (Day 31)) /\
   ~ validMonth 300000 0) /\
  assignToPaycheck (Day 31) (Day 15) (Day 30) 2025 3 = Some 2 /\
  assignToPaycheck (Day 0) (Day 1) (Day 16) 300000 0 = None.
Proof.
  assert (H : validMonth 2025 3 /\
              (31 <= 1 \/ DayNumber.lt (daysInMonth 2025 3) (Day 31)) /\
              ~ validMonth 300000 0).
  { unfold validMonth. split; [vm_compute; split; discriminate |].
    split; [right; reflexivity |].
    vm_compute. intros [_ H]. apply H. reflexivity. }
  split; [exact H |]. destruct H as (Hv & Hout & Hnv). split.
  - exact (proj1 (assignToPaycheck_outside_month 31 15 30 2025 3) Hv Hout).
  - exact (proj2 (assignToPaycheck_outside_month 0 1 16 300000 0) Hnv).
Defined.

(** The badges number the paydays by date: badge 1 stands beside the earlier
    clamped payday and badge 2 beside the later one, and an expense is listed
    under "Bills After Payday #1" exactly when it is due after the day with
    badge 1 and no later than the day with badge 2. *)
Theorem payday_badges_by_date (exps : list Expense) (inc : IncomeConfig)
    (year monthIndex : Z) :
  let pdc := paycheckDaysClamped inc year monthIndex in
  (badgeOfFirstPayday pdc = 1 /\ badgeOfSecondPayday pdc = 2 \/
   badgeOfFirstPayday pdc = 2 /\ badgeOfSecondPayday pdc = 1) /\
  dayWithBadge 1 pdc = DayNumber.Math_min (fst pdc) (snd pdc) /\
  dayWithBadge 2 pdc = DayNumber.Math_max (fst pdc) (snd pdc) /\
  (forall e,
     In e (List.map expense (p1Items (assigned exps inc year monthIndex))) <->
     In e exps /\
     DayNumber.lt (dayWithBadge 1 pdc) (Day (dueDay e)) /\
     DayNumber.le (Day (dueDay e)) (dayWithBadge 2 pdc)).
Proof.
  intros pdc.
  assert (Hmin : dayWithBadge 1 pdc = DayNumber.Math_min (fst pdc) (snd pdc)).
  { unfold dayWithBadge, badgeOfFirstPayday. subst pdc.
    destruct (paycheckDaysClamped_cases inc year monthIndex)
      as [(_ & dim & _ & _ & ->) | (_ & _ & ->)]; [| reflexivity].
    cbn [fst snd DayNumber.leb DayNumber.Math_min].
    match goal with
    | |- context [?a <=? ?b] => destruct (Z.leb_spec a b)
    end; cbn [Z.eqb Pos.eqb]; f_equal; lia. }
  assert (Hmax : dayWithBadge 2 pdc = DayNumber.Math_max (fst pdc) (snd pdc)).
  { unfold dayWithBadge, badgeOfFirstPayday. subst pdc.
    destruct (paycheckDaysClamped_cases inc year monthIndex)
      as [(_ & dim & _ & _ & ->) | (_ & _ & ->)]; [| reflexivity].
    cbn [fst snd DayNumber.leb DayNumber.Math_max].
    match goal with
    | |- context [?a <=? ?b] => destruct (Z.leb_spec a b)
    end; cbn [Z.eqb Pos.eqb]; f_equal; lia. }
  split; [| split; [exact Hmin | split; [exact Hmax |]]].
  - unfold badgeOfFirstPayday, badgeOfSecondPayday.
    destruct (DayNumber.leb (fst pdc) (snd pdc)); [left | right]; split; reflexivity.
  - intros e. unfold p1Items, assigned. cbv zeta.
    rewrite map_filter_tagged by reflexivity.
    rewrite List.filter_In, Hmin, Hmax.
    rewrite (proj1 (paycheck_is_assigned inc year monthIndex e)).
    fold pdc. unfold dueInPeriodOne, DayNumber.lt, DayNumber.le.
    rewrite Bool.andb_true_iff. reflexivity.
Qed.

Lemma In_days (year monthIndex d dim : Z) :
  daysInMonth year monthIndex = Day dim ->
  In d (days year monthIndex) <-> 1 <= d <= dim.
Proof.
  intros Hdim. unfold days. fold (daysInMonth year monthIndex). rewrite Hdim.
  pose proof (daysInMonth_range _ _ _ Hdim) as Hrange.
  cbn [DayNumber.ToLength].
  rewrite List.in_map_iff. split.
  - intros (i & <- & Hi). apply List.in_seq in Hi. lia.
  - intros Hd. exists (Z.to_nat (d - 1)). split; [lia |].
    apply List.in_seq. lia.
Qed.


Lemma In_monthGrid (exps : list Expense) (inc : IncomeConfig)
    (year monthIndex d : Z) (c : CellColour) :
  In (d, c) (monthGrid exps inc year monthIndex) <->
  In d (days year monthIndex) /\
  c = cellColour (paycheckDaysClamped inc year monthIndex)
        (assigned exps inc year monthIndex) d.
Proof.
  unfold monthGrid. rewrite List.in_map_iff. split.
  - intros (x & Hx & Hin). injection Hx as <- <-.
    split; [exact Hin | reflexivity].
  - intros [Hd ->]. exists d. split; [reflexivity | exact Hd].
Qed.




(** The colours of the grid follow the order of the two payday fields, the
    badges the order of the dates: the cell in the colour that the legend
    calls "Payday #1" is the day with badge 1 exactly when the first payday
    field does not clamp to a later day than the second. *)
Theorem monthGrid_legend_against_badges (exps : list Expense)
    (inc : IncomeConfig) (year monthIndex : Z) :
  let pdc := paycheckDaysClamped inc year monthIndex in
  (exists d, dayWithBadge 1 pdc = Day d /\
             In (d, PaydayOneColour) (monthGrid exps inc year monthIndex))
  <-> DayNumber.le (fst pdc) (snd pdc).
Proof.
  intros pdc. subst pdc. unfold DayNumber.le.
  destruct (paycheckDaysClamped_cases inc year monthIndex)
    as [(Hv & dim & Hdim & Hrange & Hpdc) | (Hv & Hnan & Hpdc)].
  - set (p1 := Z.min (Z.max 1 (fst (paycheckDays inc))) dim) in *.
    set (p2 := Z.min (Z.max 1 (snd (paycheckDays inc))) dim) in *.
    assert (H1 : 1 <= p1 <= dim) by (subst p1; lia).
    assert (H2 : 1 <= p2 <= dim) by (subst p2; lia).
    rewrite Hpdc. unfold dayWithBadge, badgeOfFirstPayday.
    cbn [fst snd DayNumber.leb].
    destruct (Z.leb_spec p1 p2) as [Hle | Hgt]; cbn [Z.eqb Pos.eqb].
    + split; [reflexivity |]. intros _. exists p1. split; [reflexivity |].
      apply In_monthGrid. split; [apply (In_days _ _ _ dim Hdim); exact H1 |].
      rewrite Hpdc. unfold cellColour. cbn [fst snd DayNumber.eqb].
      rewrite Z.eqb_refl. reflexivity.
    + split; [| discriminate]. intros (d & Hd & Hin).
      injection Hd as <-. apply In_monthGrid in Hin. destruct Hin as [_ Hc].
      rewrite Hpdc in Hc. unfold cellColour in Hc.
      cbn [fst snd DayNumber.eqb] in Hc.
      destruct (Z.eqb_spec p2 p1); [lia |].
      rewrite Z.eqb_refl in Hc. discriminate Hc.
  - rewrite Hpdc. cbn [fst snd DayNumber.leb]. split; [| discriminate].
    intros (d & Hd & _). discriminate Hd.
Qed.

(* ------------------------------------------------------------------------- *)
(** ** The reports tab: [CategoryBreakdown] *)
(* ------------------------------------------------------------------------- *)

(** [CATEGORIES]: the ids with their labels. *)
Definition CATEGORIES : list (string * string) :=
  [ ("fixed", "Fixed"); ("variable", "Variable");
    ("savings", "Savings/Goals"); ("debt", "Debt") ]%string.

(** [CATEGORIES.find((c) => c.id === k)?.label || k]. *)
Definition categoryLabel (k : string) : string :=
  match List.find (fun c => String.eqb (fst c) k) CATEGORIES with
  | Some c => if String.eqb (snd c) "" then k else snd c
  | None => k
  end.

(** A JavaScript [Map] from strings to numbers: its entries in insertion
    order; [set] on a key that is present keeps the key's place. *)
Module JsMap.

Fixpoint get (k : string) (m : list (string * float)) : option float :=
  match m with
  | [] => None
  | (k', v) :: rest => if String.eqb k' k then Some v else get k rest
  end.

Fixpoint set (k : string) (v : float) (m : list (string * float))
  : list (string * float) :=
  match m with
  | [] => [(k, v)]
  | (k', v') :: rest =>
      if String.eqb k' k then (k, v) :: rest else (k', v') :: set k v rest
  end.

End JsMap.

(** [m.get(k) || 0]. *)
Definition orZero (v : option float) : float :=
  match v with
  | Some x => if truthy (VNumber x) then x else 0%float
  | None => 0%float
  end.

(** The loop of [byCat]:
    [m.set(e.category, (m.get(e.category) || 0) + e.amount)]. *)
Definition byCatMap (exps : list Expense) : list (string * float) :=
  List.fold_left
    (fun m e =>
       JsMap.set (category e)
         (orZero (JsMap.get (category e) m) + amount e)%float m)
    exps [].

(** [byCat]: the entries of the map as [{ name, value }]. *)
Definition byCat (exps : list Expense) : list (string * float) :=
  List.map (fun kv => (categoryLabel (fst kv), snd kv)) (byCatMap exps).

(** The distinct elements of a list in the order of their first
    occurrence, after those already [seen]. *)
Fixpoint firstSeen (seen : list string) (l : list string) : list string :=
  match l with
  | [] => []
  | x :: rest =>
      if List.existsb (String.eqb x) seen then firstSeen seen rest
      else x :: firstSeen (seen ++ [x]) rest
  end.

(** One step of a category's running total: [(total || 0) + amount]. *)
Definition addToTotal (total : option float) (e : Expense) : option float :=
  Some (orZero total + amount e)%float.

Lemma JsMap_get_set_same (k : string) (v : float) (m : list (string * float)) :
  JsMap.get k (JsMap.set k v m) = Some v.
Proof.
  induction m as [| [k' v'] rest IH]; simpl.
  - rewrite String.eqb_refl. reflexivity.
  - destruct (String.eqb k' k) eqn:Hk; simpl.
    + rewrite String.eqb_refl. reflexivity.
    + rewrite Hk. exact IH.
Qed.

Lemma JsMap_get_set_other (k c : string) (v : float) (m : list (string * float)) :
  k <> c -> JsMap.get c (JsMap.set k v m) = JsMap.get c m.
Proof.
  intros Hne. induction m as [| [k' v'] rest IH]; simpl.
  - destruct (String.eqb_spec k c); [contradiction | reflexivity].
  - destruct (String.eqb_spec k' k) as [-> | Hk]; simpl.
    + destruct (String.eqb_spec k c); [contradiction | reflexivity].
    + destruct (String.eqb k' c); [reflexivity | exact IH].
Qed.

Lemma JsMap_keys_set (k : string) (v : float) (m : list (string * float)) :
  List.map fst (JsMap.set k v m)
  = if List.existsb (String.eqb k) (List.map fst m)
    then List.map fst m else List.map fst m ++ [k].
Proof.
  induction m as [| [k' v'] rest IH]; simpl; [reflexivity |].
  rewrite (String.eqb_sym k k').
  destruct (String.eqb_spec k' k) as [-> | Hk]; simpl; [reflexivity |].
  rewrite IH. destruct (List.existsb (String.eqb k) (List.map fst rest));
    reflexivity.
Qed.

Lemma byCat_fold_get (c : string) (exps : list Expense)
    (m : list (string * float)) :
  JsMap.get c
    (List.fold_left
       (fun m e =>
          JsMap.set (category e)
            (orZero (JsMap.get (category e) m) + amount e)%float m)
       exps m)
  = List.fold_left addToTotal
      (List.filter (fun e => String.eqb (category e) c) exps)
      (JsMap.get c m).
Proof.
  revert m. induction exps as [| e rest IH]; intros m; [reflexivity |].
  cbn [List.fold_left List.filter]. rewrite IH.
  destruct (String.eqb_spec (category e) c) as [<- | Hne].
  - cbn [List.fold_left]. rewrite JsMap_get_set_same. reflexivity.
  - rewrite JsMap_get_set_other by exact Hne. reflexivity.
Qed.

Lemma byCat_fold_keys (exps : list Expense) (m : list (string * float)) :
  List.map fst
    (List.fold_left
       (fun m e =>
          JsMap.set (category e)
            (orZero (JsMap.get (category e) m) + amount e)%float m)
       exps m)
  = List.map fst m ++ firstSeen (List.map fst m) (List.map category exps).
Proof.
  revert m. induction exps as [| e rest IH]; intros m.
  - simpl. rewrite List.app_nil_r. reflexivity.
  - cbn [List.fold_left List.map firstSeen]. rewrite IH, JsMap_keys_set.
    destruct (List.existsb (String.eqb (category e)) (List.map fst m));
      [reflexivity |].
    rewrite <- List.app_assoc. reflexivity.
Qed.

Lemma firstSeen_fresh (l seen : list string) :
  List.NoDup seen ->
  List.NoDup (seen ++ firstSeen seen l) /\
  (forall c, In c (seen ++ firstSeen seen l) <-> In c seen \/ In c l).
Proof.
  revert seen. induction l as [| x rest IH]; intros seen Hnd.
  - simpl. rewrite List.app_nil_r. split; [exact Hnd | tauto].
  - cbn [firstSeen].
    destruct (List.existsb (String.eqb x) seen) eqn:Hx.
    + destruct (IH seen Hnd) as [IHnd IHin]. split; [exact IHnd |].
      intros c. rewrite IHin. simpl.
      apply List.existsb_exists in Hx. destruct Hx as (y & Hy & Hxy).
      apply String.eqb_eq in Hxy. subst y.
      split; [tauto | intros [H | [<- | H]]; tauto].
    + assert (Hnotin : ~ In x seen).
      { intros Hin. apply Bool.not_true_iff_false in Hx. apply Hx.
        apply List.existsb_exists. exists x. split; [exact Hin |].
        apply String.eqb_refl. }
      assert (Hnd' : List.NoDup (seen ++ [x])).
      { apply List.NoDup_app; [exact Hnd | repeat constructor; intros [] |].
        intros a Ha [<- | []]. exact (Hnotin Ha). }
      destruct (IH (seen ++ [x]) Hnd') as [IHnd IHin].
      rewrite <- List.app_assoc in IHnd, IHin. simpl in IHnd, IHin.
      split; [exact IHnd |].
      intros c. rewrite IHin, List.in_app_iff. simpl. tauto.
Qed.

(** The category breakdown has one slice for each category that occurs, in
    the order of first occurrence and without repeats; it is empty exactly
    when there are no expenses. *)
Theorem byCat_categories (exps : list Expense) :
  List.map fst (byCatMap exps) = firstSeen [] (List.map category exps) /\
  List.NoDup (List.map fst (byCatMap exps)) /\
  (forall c, In c (List.map fst (byCatMap exps)) <->
             In c (List.map category exps)) /\
  (byCat exps = [] <-> exps = []) /\
  length (byCat exps) = length (byCatMap exps).
Proof.
  assert (Hkeys : List.map fst (byCatMap exps)
                  = firstSeen [] (List.map category exps)).
  { unfold byCatMap. rewrite byCat_fold_keys. reflexivity. }
  destruct (firstSeen_fresh (List.map category exps) [] (List.NoDup_nil _))
    as [Hnd Hin]. simpl in Hnd, Hin.
  split; [exact Hkeys |].
  split; [rewrite Hkeys; exact Hnd |].
  split; [intros c; rewrite Hkeys, Hin; tauto |].
  split; [| unfold byCat; apply List.length_map].
  unfold byCat. split.
  - intros Hnil. apply List.map_eq_nil in Hnil.
    apply (f_equal (List.map fst)) in Hnil. rewrite Hkeys in Hnil.
    destruct exps as [| e rest]; [reflexivity |]. discriminate Hnil.
  - intros ->. reflexivity.
Qed.

(** The value of a category's slice is the running total of that
    category's amounts in the order of the expense list, each step being
    [(total || 0) + amount]: a total that has become [NaN] or 0 starts again
    from 0.  The values are passed to the chart unchanged. *)
Theorem byCat_totals (exps : list Expense) (c : string) :
  JsMap.get c (byCatMap exps)
  = List.fold_left addToTotal
      (List.filter (fun e => String.eqb (category e) c) exps) None /\
  List.map snd (byCat exps) = List.map snd (byCatMap exps).
Proof.
  split.
  - unfold byCatMap. rewrite byCat_fold_get. reflexivity.
  - unfold byCat. rewrite List.map_map. reflexivity.
Qed.

(** A slice, like a badge of the expense tables, is named by the label of
    its category when the category is one of [CATEGORIES], and by the
    category itself otherwise. *)
Theorem categoryLabel_known_or_raw (exps : list Expense) :
  (forall c, In c CATEGORIES -> categoryLabel (fst c) = snd c) /\
  (forall k, ~ In k (List.map fst CATEGORIES) -> categoryLabel k = k) /\
  List.map fst (byCat exps)
  = List.map categoryLabel (List.map fst (byCatMap exps)).
Proof.
  split; [| split].
  - intros c Hc. repeat (destruct Hc as [<- | Hc]; [reflexivity |]).
    destruct Hc.
  - intros k Hk. unfold categoryLabel.
    destruct (List.find _ CATEGORIES) as [c |] eqn:Hfind; [| reflexivity].
    apply List.find_some in Hfind. destruct Hfind as [Hc Heq].
    apply String.eqb_eq in Heq. exfalso. apply Hk. rewrite <- Heq.
    apply List.in_map. exact Hc.
  - unfold byCat. rewrite !List.map_map. reflexivity.
Qed.

(* ------------------------------------------------------------------------- *)
(** ** The shape of the state, and the Reset button *)
(* ------------------------------------------------------------------------- *)

(** [{ ...props, key: v }] on the properties of an object: the key keeps
    its place when it is present and goes last when it is not. *)
Fixpoint setProp (key : string) (v : value) (props : list (string * value))
  : list (string * value) :=
  match props with
  | [] => [(key, v)]
  | (k, x) :: rest =>
      if String.eqb k key then (key, v) :: rest else (k, x) :: setProp key v rest
  end.

(** The two surrogates that JavaScript holds for a character of four bytes,
    each written in three bytes. *)
Definition surrogatePair (c1 c2 c3 c4 : ascii) : string * string :=
  let point := ((N_of_ascii c1 mod 8) * 262144 + (N_of_ascii c2 mod 64) * 4096
                + (N_of_ascii c3 mod 64) * 64 + N_of_ascii c4 mod 64)%N in
  let v := (point - 65536)%N in
  let unit := fun u : N =>
    String (ascii_of_N (224 + u / 4096))
      (String (ascii_of_N (128 + (u / 64) mod 64))
         (String (ascii_of_N (128 + u mod 64)) EmptyString)) in
  (unit (55296 + v / 1024)%N, unit (56320 + v mod 1024)%N).

(** The code units of a string, as one-unit strings: a character of one to
    three bytes is one unit, a character of four bytes is two. *)
Fixpoint characters (s : string) : list value :=
  match s with
  | EmptyString => []
  | String c1 r1 =>
      if (nat_of_ascii c1 <? 192)%nat
      then VString (String c1 EmptyString) :: characters r1
      else
        match r1 with
        | String c2 r2 =>
            if (nat_of_ascii c1 <? 224)%nat
            then VString (String c1 (String c2 EmptyString)) :: characters r2
            else
              match r2 with
              | String c3 r3 =>
                  if (nat_of_ascii c1 <? 240)%nat
                  then VString (String c1 (String c2 (String c3 EmptyString)))
                       :: characters r3
                  else
                    match r3 with
                    | String c4 r4 =>
                        VString (fst (surrogatePair c1 c2 c3 c4))
                        :: VString (snd (surrogatePair c1 c2 c3 c4))
                        :: characters r4
                    | EmptyString => [VString s]
                    end
              | EmptyString => [VString s]
              end
        | EmptyString => [VString s]
        end
  end.

(** [items] under the keys ["from"], ["from + 1"], ... *)
Fixpoint indexedFrom (from : nat) (items : list value) : list (string * value) :=
  match items with
  | [] => []
  | x :: rest => (JsonText.decimal (Z.of_nat from), x) :: indexedFrom (S from) rest
  end.

(** The own enumerable properties that an object spread [{ ...v }] copies:
    those of an object, the elements of an array and the characters of a
    string under their indices, nothing for the other values. *)
Definition ownProps (v : value) : list (string * value) :=
  match v with
  | VObject props => props
  | VArray items => indexedFrom 0 items
  | VString s => indexedFrom 0 (characters s)
  | _ => []
  end.

Section ResetButton.

Variable JSON_parse : string -> completion value.

Local Open Scope js_scope.

(** The Reset button: [if (confirm("Reset all data?")) { const fresh =
    loadState(); setState({ ...fresh, expenses: [] }); }], [confirmed] being
    the answer to the dialog and the result the state afterwards. *)
Definition resetClicked (confirmed : bool) (state : value) : JS value :=
  if confirmed then
    fresh <- loadState JSON_parse ;;
    ret (VObject (setProp "expenses" (VArray []) (ownProps fresh)))
  else ret state.

Local Close Scope js_scope.

End ResetButton.

Lemma lookupProp_setProp_same (key : string) (v : value)
    (props : list (string * value)) :
  lookupProp key (setProp key v props) = v.
Proof.
  induction props as [| [k x] rest IH]; simpl.
  - rewrite String.eqb_refl. reflexivity.
  - destruct (String.eqb k key) eqn:Hk; simpl.
    + rewrite String.eqb_refl. reflexivity.
    + rewrite Hk. exact IH.
Qed.

Lemma lookupProp_setProp_other (key other : string) (v : value)
    (props : list (string * value)) :
  key <> other ->
  lookupProp other (setProp key v props) = lookupProp other props.
Proof.
  intros Hne. induction props as [| [k x] rest IH]; simpl.
  - destruct (String.eqb_spec key other); [contradiction | reflexivity].
  - destruct (String.eqb_spec k key) as [-> | Hk]; simpl.
    + destruct (String.eqb_spec key other); [contradiction | reflexivity].
    + destruct (String.eqb k other); [reflexivity | exact IH].
Qed.

Lemma hasRequiredShape_object (v : value) :
  hasRequiredShape v = true ->
  exists props, v = VObject props /\
                truthy (lookupProp "income" props) = true /\
                Array_isArray (lookupProp "expenses" props) = true.
Proof.
  destruct v as [| | b | x | s | items | props]; try discriminate.
  unfold hasRequiredShape. simpl. intros H.
  apply Bool.andb_true_iff in H. exists props. split; [reflexivity | exact H].
Qed.

Lemma defaultState_shape (w : World) :
  exists v, defaultState w = (Normal v, afterDraws 7 w) /\
            hasRequiredShape v = true.
Proof. eexists. split; reflexivity. Qed.

(** [loadState] by the content of the store, with no assumption on the
    parser. *)
Lemma loadState_cases (JSON_parse : string -> completion value) (w : World) :
  loadState JSON_parse w
  = match localStorage w !! STORAGE_KEY with
    | None => defaultState w
    | Some raw =>
        if String.eqb raw "" then defaultState w
        else match JSON_parse raw with
             | Normal p =>
                 if hasRequiredShape p then (Normal p, w) else defaultState w
             | Throw _ => defaultState w
             end
    end.
Proof.
  unfold loadState, try_catch, bind, localStorage_getItem, lift.
  destruct (localStorage w !! STORAGE_KEY) as [raw |]; [| reflexivity].
  simpl. destruct (String.eqb raw ""); [reflexivity |].
  destruct (JSON_parse raw) as [p | m]; [| reflexivity].
  unfold readProp, hasRequiredShape.
  destruct p as [| | b | x | s | items | props]; simpl; try reflexivity.
  destruct (truthy (lookupProp "income" props)); simpl; [| reflexivity].
  destruct (Array_isArray (lookupProp "expenses" props)); reflexivity.
Qed.

Lemma loadState_result (JSON_parse : string -> completion value) (w : World) :
  exists v w',
    loadState JSON_parse w = (Normal v, w') /\
    hasRequiredShape v = true /\
    (w' = w \/ w' = afterDraws 7 w).
Proof.
  rewrite loadState_cases.
  destruct (defaultState_shape w) as (dv & Hd & Hshape).
  destruct (localStorage w !! STORAGE_KEY) as [raw |];
    [| exists dv, (afterDraws 7 w); auto].
  destruct (String.eqb raw ""); [exists dv, (afterDraws 7 w); auto |].
  destruct (JSON_parse raw) as [p | m]; [| exists dv, (afterDraws 7 w); auto].
  destruct (hasRequiredShape p) eqn:Hp; [| exists dv, (afterDraws 7 w); auto].
  exists p, w. auto.
Qed.

(** The state always has the shape the component destructures: whatever the
    store holds and whatever the parser does, [loadState] returns an object
    with a truthy [income] and an array [expenses], without touching the
    store or alerting; and the import handler, which never raises, hands
    back a state of that shape whenever the state before had it. *)
Theorem state_shape_kept (JSON_parse : string -> completion value)
    (file : option string) (state : value) (w : World) :
  (exists v w',
     loadState JSON_parse w = (Normal v, w') /\
     hasRequiredShape v = true /\
     localStorage w' = localStorage w /\ alerts w' = alerts w) /\
  (exists v w',
     onImport JSON_parse file state w = (Normal v, w') /\
     (hasRequiredShape state = true -> hasRequiredShape v = true) /\
     (v = state \/ w' = w) /\
     localStorage w' = localStorage w).
Proof.
  split.
  - destruct (loadState_result JSON_parse w) as (v & w' & Hload & Hshape & Hw).
    exists v, w'. split; [exact Hload | split; [exact Hshape |]].
    destruct Hw as [-> | ->]; split; reflexivity.
  - destruct file as [text |]; [| exists state, w; simpl; auto].
    rewrite onImport_text.
    destruct (JSON_parse text) as [p | m].
    + destruct (hasRequiredShape p) eqn:Hp.
      * exists p, w. auto.
      * eexists _, _. split; [reflexivity |]. simpl. auto.
    + eexists _, _. split; [reflexivity |]. simpl. auto.
Qed.

(** Reset never raises.  Declined, it changes nothing.  Confirmed, it
    empties the expenses of what [loadState] returns and keeps that value's
    income: the income in the store when the store holds a readable state,
    the default income (and seven discarded ids) otherwise.  The result has
    the shape of a state and the store is not written. *)
Theorem resetClicked_keeps_stored_income
    (JSON_parse : string -> completion value) (state : value) (w : World) :
  resetClicked JSON_parse false state w = (Normal state, w) /\
  exists fresh v w',
    loadState JSON_parse w = (Normal fresh, w') /\
    resetClicked JSON_parse true state w = (Normal v, w') /\
    getProp v "expenses" = Some (VArray []) /\
    getProp v "income" = getProp fresh "income" /\
    hasRequiredShape v = true /\
    localStorage w' = localStorage w /\
    (forall raw p,
       localStorage w !! STORAGE_KEY = Some raw -> raw <> "" ->
       JSON_parse raw = Normal p -> hasRequiredShape p = true ->
       fresh = p /\ w' = w) /\
    (localStorage w !! STORAGE_KEY = None ->
     getProp v "income"
     = Some (IncomeConfig_toValue (mkIncomeConfig (1, 16) 20000 0)) /\
     w' = afterDraws 7 w).
Proof.
  split; [reflexivity |].
  destruct (loadState_result JSON_parse w) as (fresh & w' & Hload & Hshape & Hw).
  destruct (hasRequiredShape_object fresh Hshape) as (props & -> & Hinc & Harr).
  exists (VObject props),
         (VObject (setProp "expenses" (VArray []) props)), w'.
  split; [exact Hload |].
  split; [unfold resetClicked, bind; rewrite Hload; reflexivity |].
  assert (Hexp : lookupProp "expenses" (setProp "expenses" (VArray []) props)
                 = VArray []) by apply lookupProp_setProp_same.
  assert (Hsame : lookupProp "income" (setProp "expenses" (VArray []) props)
                  = lookupProp "income" props).
  { apply lookupProp_setProp_other. discriminate. }
  split; [simpl; rewrite Hexp; reflexivity |].
  split; [simpl; rewrite Hsame; reflexivity |].
  split; [unfold hasRequiredShape; simpl; rewrite Hexp, Hsame, Hinc; reflexivity |].
  split; [destruct Hw as [-> | ->]; reflexivity |].
  split.
  - intros raw p Hraw Hne Hparse Hp.
    rewrite loadState_cases, Hraw in Hload.
    destruct (String.eqb_spec raw ""); [contradiction |].
    rewrite Hparse, Hp in Hload. injection Hload as <- <-. split; reflexivity.
  - intros Hnone. rewrite loadState_cases, Hnone, defaultState_value in Hload.
    assert (Heq : VObject props
                  = BudgetState_toValue (defaultDataset (randomIds w))
                  /\ w' = afterDraws 7 w) by (split; congruence).
    destruct Heq as [Heq ->]. split; [| reflexivity].
    simpl. rewrite Hsame. injection Heq as ->. reflexivity.
Qed.

Lemma resetClicked_keeps_stored_income_witness :
  let stored := JsonText.JSON_stringify (BudgetState_toValue sampleState) in
  let w := afterStore stored freshWorld in
  exists fresh v w',
    loadState JsonText.JSON_parse w = (Normal fresh, w') /\
    resetClicked JsonText.JSON_parse true VNull w = (Normal v, w') /\
    getProp v "expenses" = Some (VArray []) /\
    getProp v "income"
    = Some (IncomeConfig_toValue (income sampleState)) /\
    fresh = BudgetState_toValue sampleState /\ w' = w.
Proof.
  intros stored w.
  destruct (resetClicked_keeps_stored_income JsonText.JSON_parse VNull w)
    as (_ & fresh & v & w' & Hload & Hreset & Hexp & Hinc & _ & _ & Hstored & _).
  destruct (Hstored stored (BudgetState_toValue sampleState))
    as [Hfresh Hw].
  - apply lookup_insert_eq.
  - vm_compute. discriminate.
  - exact JsonText_roundtrip_sample.
  - reflexivity.
  - exists fresh, v, w'. repeat split; try assumption.
    rewrite Hinc, Hfresh. reflexivity.
Defined.

(** Whatever [loadState] returned, and any imported state, is found again
    after [saveState]: for a value of the required shape on which the
    platform's [JSON.parse] inverts [JSON.stringify], loading after saving
    returns the value and leaves the store as written, so that the ids drawn
    for the default dataset are drawn once.  A value without that shape is
    replaced by the default dataset at the next load. *)
Theorem saved_state_reloads (JSON_parse : string -> completion value)
    (JSON_stringify : value -> string) (v : value) (w : World) :
  (exists m, JSON_parse "" = Throw m) ->
  JSON_parse (JSON_stringify v) = Normal v ->
  let w' := afterStore (JSON_stringify v) w in
  saveState JSON_stringify v w = (Normal tt, w') /\
  (hasRequiredShape v = true -> loadState JSON_parse w' = (Normal v, w')) /\
  (forall w0, loadState JSON_parse w0 = (Normal v, w) ->
              loadState JSON_parse w' = (Normal v, w')) /\
  (hasRequiredShape v = false -> loadState JSON_parse w' = defaultState w').
Proof.
  intros Hempty Hcodec w'.
  destruct (loadState_after_saveState JSON_parse JSON_stringify Hempty v w)
    as [Hsave Hload].
  fold w' in Hsave, Hload. rewrite Hcodec in Hload.
  split; [exact Hsave |].
  split; [intros Hshape; rewrite Hload, Hshape; reflexivity |].
  split; [| intros Hshape; rewrite Hload, Hshape; reflexivity].
  intros w0 Hw0.
  destruct (loadState_result JSON_parse w0) as (v0 & w1 & Hl & Hshape & _).
  rewrite Hw0 in Hl. injection Hl as <- <-.
  rewrite Hload, Hshape. reflexivity.
Qed.

Lemma saved_state_reloads_witness :
  let v := BudgetState_toValue sampleState in
  let w' := afterStore (JsonText.JSON_stringify v) freshWorld in
  ((exists m, JsonText.JSON_parse "" = Throw m) /\
   JsonText.JSON_parse (JsonText.JSON_stringify v) = Normal v) /\
  saveState JsonText.JSON_stringify v freshWorld = (Normal tt, w') /\
  (hasRequiredShape v = true -> loadState JsonText.JSON_parse w' = (Normal v, w')) /\
  (forall w0, loadState JsonText.JSON_parse w0 = (Normal v, freshWorld) ->
              loadState JsonText.JSON_parse w' = (Normal v, w')) /\
  (hasRequiredShape v = false ->
   loadState JsonText.JSON_parse w' = defaultState w').
Proof.
  intros v w'.
  split; [split; [exact JsonText_parse_empty | exact JsonText_roundtrip_sample] |].
  exact (saved_state_reloads JsonText.JSON_parse JsonText.JSON_stringify v
           freshWorld JsonText_parse_empty JsonText_roundtrip_sample).
Defined.

(* ------------------------------------------------------------------------- *)
(** ** The add-expense dialog: what [submit] accepts *)
(* ------------------------------------------------------------------------- *)

(** The three functions on white space, by the first character. *)
Lemma allWhiteSpace_step (s : string) :
  allWhiteSpace s
  = match s with
    | EmptyString => true
    | String _ _ =>
        match afterWhiteSpace s with
        | Some rest => allWhiteSpace rest
        | None => false
        end
    end.
Proof.
  destruct s as [| c1 [| c2 [| c3 r3]]]; cbn [allWhiteSpace afterWhiteSpace];
    try reflexivity.
  - destruct (isWhiteSpace c1); reflexivity.
  - destruct (isWhiteSpace c1); [reflexivity |].
    destruct (isWhiteSpace2 c1 c2); reflexivity.
  - destruct (isWhiteSpace c1); [reflexivity |].
    destruct (isWhiteSpace2 c1 c2); [reflexivity |].
    destruct (isWhiteSpace3 c1 c2 c3); reflexivity.
Qed.

Lemma trimStart_step (s : string) :
  trimStart s
  = match afterWhiteSpace s with
    | Some rest => trimStart rest
    | None => s
    end.
Proof.
  destruct s as [| c1 [| c2 [| c3 r3]]]; cbn [trimStart afterWhiteSpace];
    try reflexivity.
  - destruct (isWhiteSpace c1); reflexivity.
  - destruct (isWhiteSpace c1); [reflexivity |].
    destruct (isWhiteSpace2 c1 c2); reflexivity.
  - destruct (isWhiteSpace c1); [reflexivity |].
    destruct (isWhiteSpace2 c1 c2); [reflexivity |].
    destruct (isWhiteSpace3 c1 c2 c3); reflexivity.
Qed.

Lemma trimEnd_step (c : ascii) (rest : string) :
  trimEnd (String c rest)
  = if allWhiteSpace (String c rest) then EmptyString
    else String c (trimEnd rest).
Proof. reflexivity. Qed.

(** A leading white-space character is one to three bytes of the text. *)
Lemma afterWhiteSpace_split (s rest : string) :
  afterWhiteSpace s = Some rest ->
  exists w, s = w +:+ rest /\ afterWhiteSpace w = Some EmptyString /\
            (String.length rest < String.length s)%nat.
Proof.
  destruct s as [| c1 [| c2 [| c3 r3]]]; cbn [afterWhiteSpace]; try discriminate.
  - destruct (isWhiteSpace c1) eqn:H1; [| discriminate].
    intros [= <-]. exists (String c1 ""). cbn [afterWhiteSpace]. rewrite H1.
    repeat split. simpl. lia.
  - destruct (isWhiteSpace c1) eqn:H1.
    + intros [= <-]. exists (String c1 ""). cbn [afterWhiteSpace]. rewrite H1.
      repeat split. simpl. lia.
    + destruct (isWhiteSpace2 c1 c2) eqn:H2; [| discriminate].
      intros [= <-]. exists (String c1 (String c2 "")).
      cbn [afterWhiteSpace]. rewrite H1, H2. repeat split. simpl. lia.
  - destruct (isWhiteSpace c1) eqn:H1.
    + intros [= <-]. exists (String c1 ""). cbn [afterWhiteSpace]. rewrite H1.
      repeat split. simpl. lia.
    + destruct (isWhiteSpace2 c1 c2) eqn:H2.
      * intros [= <-]. exists (String c1 (String c2 "")).
        cbn [afterWhiteSpace]. rewrite H1, H2. repeat split. simpl. lia.
      * destruct (isWhiteSpace3 c1 c2 c3) eqn:H3; [| discriminate].
        intros [= <-]. exists (String c1 (String c2 (String c3 ""))).
        cbn [afterWhiteSpace]. rewrite H1, H2, H3. repeat split. simpl. lia.
Qed.

Lemma afterWhiteSpace_app (s rest more : string) :
  afterWhiteSpace s = Some rest ->
  afterWhiteSpace (s +:+ more) = Some (rest +:+ more).
Proof.
  destruct s as [| c1 [| c2 [| c3 r3]]]; cbn [afterWhiteSpace]; try discriminate;
    rewrite ?append_cons; cbn [afterWhiteSpace].
  - destruct (isWhiteSpace c1); [| discriminate]. intros [= <-]. reflexivity.
  - destruct (isWhiteSpace c1); [intros [= <-]; reflexivity |].
    destruct (isWhiteSpace2 c1 c2); [| discriminate]. intros [= <-].
    destruct more; reflexivity.
  - destruct (isWhiteSpace c1); [intros [= <-]; reflexivity |].
    destruct (isWhiteSpace2 c1 c2); [intros [= <-]; reflexivity |].
    destruct (isWhiteSpace3 c1 c2 c3); [| discriminate]. intros [= <-].
    reflexivity.
Qed.

Lemma allWhiteSpace_bounded (n : nat) (a b : string) :
  (String.length a <= n)%nat ->
  allWhiteSpace a = true ->
  allWhiteSpace (a +:+ b) = allWhiteSpace b.
Proof.
  revert a. induction n as [| n IH]; intros a Hlen Ha.
  - destruct a; [reflexivity | simpl in Hlen; lia].
  - destruct a as [| c a']; [reflexivity |].
    rewrite allWhiteSpace_step in Ha.
    destruct (afterWhiteSpace (String c a')) as [rest |] eqn:Hafter;
      [| discriminate].
    destruct (afterWhiteSpace_split _ _ Hafter) as (_ & _ & _ & Hshort).
    rewrite allWhiteSpace_step, append_cons, <- append_cons.
    rewrite (afterWhiteSpace_app _ _ b Hafter).
    apply IH; [lia | exact Ha].
Qed.

(** White space before a text does not change whether it is white space. *)
Lemma allWhiteSpace_app (a b : string) :
  allWhiteSpace a = true -> allWhiteSpace (a +:+ b) = allWhiteSpace b.
Proof. apply (allWhiteSpace_bounded (String.length a)). lia. Qed.

(** A text that does not start with white space has no white-space
    prefix. *)
Lemma no_white_prefix (n : string) :
  afterWhiteSpace n = None ->
  forall w r, n = w +:+ r -> allWhiteSpace w = true -> w = EmptyString.
Proof.
  intros Hnone w r -> Hw.
  destruct w as [| c w']; [reflexivity |].
  rewrite allWhiteSpace_step in Hw.
  destruct (afterWhiteSpace (String c w')) as [rest |] eqn:Hafter;
    [| discriminate].
  rewrite (afterWhiteSpace_app _ _ r Hafter) in Hnone. discriminate Hnone.
Qed.

Lemma trimStart_bounded (n : nat) (s : string) :
  (String.length s <= n)%nat ->
  exists l, s = l +:+ trimStart s /\ allWhiteSpace l = true /\
            afterWhiteSpace (trimStart s) = None.
Proof.
  revert s. induction n as [| n IH]; intros s Hlen.
  - destruct s; [exists EmptyString; repeat split | simpl in Hlen; lia].
  - rewrite trimStart_step.
    destruct (afterWhiteSpace s) as [rest |] eqn:Hafter.
    + destruct (afterWhiteSpace_split _ _ Hafter) as (w & Hs & Hw & Hshort).
      destruct (IH rest ltac:(lia)) as (l & Hrest & Hl & Hnone).
      exists (w +:+ l). split; [| split; [| exact Hnone]].
      * rewrite append_assoc, <- Hrest. exact Hs.
      * rewrite allWhiteSpace_app; [exact Hl |].
        rewrite allWhiteSpace_step. destruct w; [discriminate Hw |].
        rewrite Hw. reflexivity.
    + exists EmptyString. repeat split. exact Hafter.
Qed.

(** [trimStart] cuts off a white-space prefix and leaves a text that does
    not start with white space. *)
Lemma trimStart_spec (s : string) :
  exists l, s = l +:+ trimStart s /\ allWhiteSpace l = true /\
            afterWhiteSpace (trimStart s) = None.
Proof. apply (trimStart_bounded (String.length s)). lia. Qed.

(** [trimEnd] cuts off a white-space suffix and leaves a text that has no
    white-space suffix. *)
Lemma trimEnd_spec (s : string) :
  exists r, s = trimEnd s +:+ r /\ allWhiteSpace r = true /\
            forall p w, trimEnd s = p +:+ w -> allWhiteSpace w = true ->
                        w = EmptyString.
Proof.
  induction s as [| c rest (r & Heq & Hr & Hsuffix)].
  - exists EmptyString. repeat split.
    intros p w Hpw _. destruct p; [symmetry; exact Hpw | discriminate Hpw].
  - rewrite trimEnd_step.
    destruct (allWhiteSpace (String c rest)) eqn:Hall.
    + exists (String c rest). repeat split; [exact Hall |].
      intros p w Hpw _. destruct p; [symmetry; exact Hpw | discriminate Hpw].
    + exists r. split; [rewrite append_cons, <- Heq; reflexivity |].
      split; [exact Hr |].
      intros p w Hpw Hw. destruct p as [| c' p'].
      * change (EmptyString +:+ w) with w in Hpw. subst w.
        rewrite <- (allWhiteSpace_app _ r Hw) in Hr.
        rewrite append_cons, <- Heq in Hr. congruence.
      * rewrite append_cons in Hpw. injection Hpw as _ Hpw.
        exact (Hsuffix p' w Hpw Hw).
Qed.

(** [trim] cuts white space off both ends and nothing else. *)
Lemma trim_spec (s : string) :
  (exists l r, s = l +:+ trim s +:+ r /\
               allWhiteSpace l = true /\ allWhiteSpace r = true) /\
  (forall w r, trim s = w +:+ r -> allWhiteSpace w = true -> w = EmptyString) /\
  (forall p w, trim s = p +:+ w -> allWhiteSpace w = true -> w = EmptyString) /\
  (trim s = EmptyString <-> allWhiteSpace s = true).
Proof.
  unfold trim.
  destruct (trimStart_spec s) as (l & Hs & Hl & Hnone).
  destruct (trimEnd_spec (trimStart s)) as (r & Ht & Hr & Hsuffix).
  assert (Hdec : s = l +:+ trimEnd (trimStart s) +:+ r).
  { rewrite <- Ht. exact Hs. }
  split; [exists l, r; auto |].
  split; [| split; [exact Hsuffix |]].
  - intros w r' Hw. apply (no_white_prefix _ Hnone w (r' +:+ r)).
    rewrite <- append_assoc, <- Hw. exact Ht.
  - split.
    + intros Hnil. rewrite Hdec, Hnil.
      rewrite (allWhiteSpace_app _ _ Hl). exact Hr.
    + intros Hall. rewrite Hs, (allWhiteSpace_app _ _ Hl) in Hall.
      destruct (trimStart s) as [| c t] eqn:Hstart; [reflexivity |].
      rewrite allWhiteSpace_step, Hnone in Hall. discriminate Hall.
Qed.

(** For a finite number, [a <= 0] is the negation of [0 < a]. *)
Lemma finite_le_zero (a : float) :
  Number_isFinite a = true -> (a <=? 0)%float = negb (0 <? a)%float.
Proof.
  unfold Number_isFinite.
  rewrite FloatAxioms.leb_spec, FloatAxioms.ltb_spec.
  change (Prim2SF 0%float) with (S754_zero false).
  destruct (Prim2SF a) as [s | s | | s m e]; simpl; try discriminate;
    try reflexivity.
  destruct s; reflexivity.
Qed.

Lemma trimmed_name_empty (s : string) :
  String.eqb (trim s) "" = allWhiteSpace s.
Proof.
  destruct (trim_spec s) as (_ & _ & _ & Hnil).
  destruct (String.eqb_spec (trim s) "") as [Ht | Ht].
  - symmetry. apply Hnil. exact Ht.
  - destruct (allWhiteSpace s); [| reflexivity].
    exfalso. apply Ht. apply Hnil. reflexivity.
Qed.

(** [submit] adds an expense exactly when the name is not only white space
    (of any kind that [trim] knows: the ASCII blanks and line ends, the
    no-break space, the byte-order mark, the line and paragraph separators
    and the other Unicode spaces), the amount is a finite number above 0 and
    the due day is an integer.  Refused, it changes nothing: the dialog
    keeps what was typed and no id is drawn.  Accepted, it hands on one
    expense that carries the next id drawn, the name without the white space
    around it, the amount, the integer the due day denotes and the category
    chosen, and the dialog is cleared and closed. *)
Theorem submit_accepts (Number : string -> float) (st : AddExpenseDialog.State)
    (w : World) :
  let n := trim (AddExpenseDialog.name st) in
  let a := Number (AddExpenseDialog.amount st) in
  let d := Number (AddExpenseDialog.dueDay st) in
  let accepted :=
    negb (allWhiteSpace (AddExpenseDialog.name st))
    && Number_isFinite a && (0 <? a)%float && Number_isInteger d in
  (accepted = false ->
   AddExpenseDialog.submit Number st w = (Normal (st, None), w)) /\
  (accepted = true ->
   exists z,
     integerValue d = Some z /\
     AddExpenseDialog.submit Number st w
     = (Normal (AddExpenseDialog.cleared,
                Some (mkExpense (randomIds w 0%nat) n a z
                        (AddExpenseDialog.category st))),
        afterDraws 1 w)) /\
  (exists l r, AddExpenseDialog.name st = l +:+ n +:+ r /\
               allWhiteSpace l = true /\ allWhiteSpace r = true) /\
  (forall l r, n = l +:+ r -> allWhiteSpace l = true -> l = EmptyString) /\
  (forall l r, n = l +:+ r -> allWhiteSpace r = true -> r = EmptyString).
Proof.
  intros n a d accepted.
  destruct (trim_spec (AddExpenseDialog.name st))
    as (Hdec & Hprefix & Hsuffix & _).
  fold n in Hdec, Hprefix, Hsuffix.
  assert (Hcond : String.eqb n "" || negb (Number_isFinite a)
                  || (a <=? 0)%float || negb (Number_isInteger d)
                  = negb accepted).
  { subst accepted n. rewrite trimmed_name_empty.
    destruct (allWhiteSpace (AddExpenseDialog.name st)); [reflexivity |].
    destruct (Number_isFinite a) eqn:Hfin; [| reflexivity].
    rewrite (finite_le_zero a Hfin).
    destruct (0 <? a)%float; [| reflexivity].
    destruct (Number_isInteger d); reflexivity. }
  split; [| split; [| split; [exact Hdec | split; assumption]]].
  - intros Hacc. unfold AddExpenseDialog.submit. fold n a d.
    rewrite Hcond, Hacc. reflexivity.
  - intros Hacc.
    assert (Hint : Number_isInteger d = true).
    { subst accepted. apply Bool.andb_true_iff in Hacc. tauto. }
    unfold Number_isInteger in Hint.
    destruct (integerValue d) as [z |] eqn:Hz; [| discriminate Hint].
    exists z. split; [reflexivity |].
    unfold AddExpenseDialog.submit. fold n a d.
    rewrite Hcond, Hacc, Hz. reflexivity.
Qed.

(** A name between a no-break space and an ideographic space is accepted
    without them; a name that is a no-break space alone is refused. *)
Lemma submit_accepts_witness :
  let nbsp := String "194" (String "160" EmptyString) in
  let wide := String "227" (String "128" (String "128" EmptyString)) in
  let st := AddExpenseDialog.mkState true (nbsp +:+ " Water" +:+ wide)
              "600.5" "10" "fixed" in
  let blank := AddExpenseDialog.mkState true nbsp "600.5" "10" "fixed" in
  ((negb (allWhiteSpace (AddExpenseDialog.name st))
    && Number_isFinite (decimalNumber (AddExpenseDialog.amount st))
    && (0 <? decimalNumber (AddExpenseDialog.amount st))%float
    && Number_isInteger (decimalNumber (AddExpenseDialog.dueDay st)) = true) /\
   (negb (allWhiteSpace (AddExpenseDialog.name blank))
    && Number_isFinite (decimalNumber (AddExpenseDialog.amount blank))
    && (0 <? decimalNumber (AddExpenseDialog.amount blank))%float
    && Number_isInteger (decimalNumber (AddExpenseDialog.dueDay blank)) = false)) /\
  (exists z,
     integerValue (decimalNumber (AddExpenseDialog.dueDay st)) = Some z /\
     AddExpenseDialog.submit decimalNumber st freshWorld
     = (Normal (AddExpenseDialog.cleared,
                Some (mkExpense (randomIds freshWorld 0%nat)
                        (trim (AddExpenseDialog.name st))
                        (decimalNumber (AddExpenseDialog.amount st)) z
                        (AddExpenseDialog.category st))),
        afterDraws 1 freshWorld)) /\
  trim (AddExpenseDialog.name st) = "Water" /\
  AddExpenseDialog.submit decimalNumber blank freshWorld
  = (Normal (blank, None), freshWorld).
Proof.
  intros nbsp wide st blank.
  assert (H : negb (allWhiteSpace (AddExpenseDialog.name st))
              && Number_isFinite (decimalNumber (AddExpenseDialog.amount st))
              && (0 <? decimalNumber (AddExpenseDialog.amount st))%float
              && Number_isInteger (decimalNumber (AddExpenseDialog.dueDay st))
              = true).
  { vm_compute. reflexivity. }
  assert (H' : negb (allWhiteSpace (AddExpenseDialog.name blank))
               && Number_isFinite (decimalNumber (AddExpenseDialog.amount blank))
               && (0 <? decimalNumber (AddExpenseDialog.amount blank))%float
               && Number_isInteger (decimalNumber (AddExpenseDialog.dueDay blank))
               = false).
  { vm_compute. reflexivity. }
  split; [split; [exact H | exact H'] |].
  split; [exact (proj1 (proj2 (submit_accepts decimalNumber st freshWorld)) H) |].
  split; [vm_compute; reflexivity |].
  exact (proj1 (submit_accepts decimalNumber blank freshWorld) H').
Defined.

(* ------------------------------------------------------------------------- *)
(** ** Income edits, and how an overspent paycheck is shown *)
(* ------------------------------------------------------------------------- *)






(** [Math.max] of two numbers: [NaN] when either is, and [+0] above [-0]. *)
Definition Math_max (a b : float) : float :=
  match Prim2SF a, Prim2SF b with
  | S754_nan, _ | _, S754_nan => nan
  | sa, _ =>
      if (a <? b)%float then b
      else if (b <? a)%float then a
      else match sa with
           | S754_zero true => b
           | _ => a
           end
  end.

(** [PaycheckSummary]: [remaining], and the two tests its box is styled by. *)
Definition remaining (totalIncome totalExpenses : float) : float :=
  (totalIncome - totalExpenses)%float.

(** [remaining >= 0]: the emerald background, rose otherwise. *)
Definition remainingBoxEmerald (r : float) : bool := (0 <=? r)%float.

(** [remaining < 0]: the rose text. *)
Definition remainingTextRose (r : float) : bool := (r <? 0)%float.

(** [DistributionChart]: the four slices of [data]. *)
Definition distributionData (p1Inc p1Exp p2Inc p2Exp : float)
  : list (string * float) :=
  [ ("P1 Bills", p1Exp);
    ("P1 Leftover", Math_max 0 (p1Inc - p1Exp)%float);
    ("P2 Bills", p2Exp);
    ("P2 Leftover", Math_max 0 (p2Inc - p2Exp)%float) ]%string.

Definition isNaN (x : float) : Prop := Prim2SF x = S754_nan.



(** How a number stands against 0, by its sign. *)
Lemma against_zero (r : float) :
  match Prim2SF r with
  | S754_nan =>
      (0 <? r)%float = false /\ (r <? 0)%float = false /\ (0 <=? r)%float = false
  | S754_zero _ =>
      (0 <? r)%float = false /\ (r <? 0)%float = false /\ (0 <=? r)%float = true
  | S754_infinity s | S754_finite s _ _ =>
      (0 <? r)%float = negb s /\ (r <? 0)%float = s /\ (0 <=? r)%float = negb s
  end.
Proof.
  rewrite !FloatAxioms.ltb_spec, FloatAxioms.leb_spec.
  change (Prim2SF 0%float) with (S754_zero false).
  destruct (Prim2SF r) as [s | s | | s m e]; try destruct s; repeat split.
Qed.

(** The chart never gets a negative leftover: the leftover slice is the
    remaining balance when that is above 0, 0 when it is below 0, and [NaN]
    when it is [NaN].  In the summary, the emerald box never has rose text;
    a rose box has rose text except when the remaining balance is [NaN]. *)
Theorem overspend_display (p1Inc p1Exp p2Inc p2Exp : float) :
  let r := remaining p1Inc p1Exp in
  let leftover := Math_max 0 r in
  List.map snd (distributionData p1Inc p1Exp p2Inc p2Exp)
  = [p1Exp; leftover; p2Exp; Math_max 0 (remaining p2Inc p2Exp)] /\
  (leftover <? 0)%float = false /\
  ((0 <? r)%float = true -> leftover = r) /\
  ((r <? 0)%float = true -> leftover = 0%float) /\
  (isNaN r -> isNaN leftover) /\
  (remainingBoxEmerald r = true -> remainingTextRose r = false) /\
  (remainingBoxEmerald r = false /\ remainingTextRose r = false <-> isNaN r).
Proof.
  intros r leftover. split; [reflexivity |].
  subst leftover. clearbody r.
  pose proof (against_zero r) as H.
  unfold Math_max, remainingBoxEmerald, remainingTextRose, isNaN.
  change (Prim2SF 0%float) with (S754_zero false).
  destruct (Prim2SF r) as [s | s | | s m e] eqn:Hr;
    destruct H as (H1 & H2 & H3); rewrite ?H1, ?H2, ?H3.
  - repeat split; try reflexivity; try discriminate; intros [? ?]; discriminate.
  - destruct s; simpl; rewrite ?H2;
      repeat split; try reflexivity; try discriminate;
      intros [? ?]; discriminate.
  - repeat split; try reflexivity; try discriminate.
  - destruct s; simpl; rewrite ?H2;
      repeat split; try reflexivity; try discriminate;
      intros [? ?]; discriminate.
Qed.

(* ------------------------------------------------------------------------- *)
(** ** Paydays that the month merges *)
(* ------------------------------------------------------------------------- *)

(** On a month that a [Date] can hold, clamping keeps the order of the two
    paydays but can merge them: two paydays on or after the last day of the
    month (or both on day 1 or below) clamp to the same day.  When the
    clamped paydays coincide, period one is empty: the first table lists
    nothing and the second lists every expense, in the order of the expense
    list. *)
Theorem merged_paydays_empty_period_one (exps : list Expense)
    (inc : IncomeConfig) (year monthIndex : Z) :
  validMonth year monthIndex ->
  let p1 := fst (paycheckDays inc) in
  let p2 := snd (paycheckDays inc) in
  let asg := assigned exps inc year monthIndex in
  exists dim c1 c2,
    daysInMonth year monthIndex = Day dim /\
    clampDay (Day p1) year monthIndex = Day c1 /\
    clampDay (Day p2) year monthIndex = Day c2 /\
    (p1 <= p2 -> c1 <= c2) /\
    (dim <= p1 /\ dim <= p2 \/ p1 <= 1 /\ p2 <= 1 -> c1 = c2) /\
    (c1 = c2 -> p1Items asg = [] /\ List.map expense (p2Items asg) = exps).
Proof.
  intros Hvalid p1 p2 asg.
  destruct (paycheckDaysClamped_cases inc year monthIndex)
    as [(_ & dim & Hdim & Hrange & Hpdc) | (Hv & _)]; [| contradiction].
  fold p1 p2 in Hpdc.
  exists dim, (Z.min (Z.max 1 p1) dim), (Z.min (Z.max 1 p2) dim).
  split; [exact Hdim |].
  split; [apply clampDay_Day; exact Hdim |].
  split; [apply clampDay_Day; exact Hdim |].
  split; [lia |]. split; [lia |].
  intros Hsame. subst asg. unfold p1Items, p2Items, assigned. cbv zeta.
  assert (Hnone : forall e,
            dueInPeriodOne (paycheckDaysClamped inc year monthIndex) e = false).
  { intros e. rewrite Hpdc, Hsame. unfold dueInPeriodOne.
    cbn [fst snd DayNumber.Math_min DayNumber.Math_max DayNumber.ltb DayNumber.leb].
    rewrite Z.min_id, Z.max_id.
    destruct (Z.ltb_spec (Z.min (Z.max 1 p2) dim) (dueDay e)),
      (Z.leb_spec (dueDay e) (Z.min (Z.max 1 p2) dim));
      cbn [andb]; solve [reflexivity | lia]. }
  assert (Hall : forall e,
            dueInPeriodTwo (paycheckDaysClamped inc year monthIndex) e = true).
  { intros e.
    rewrite (proj1 (periods_complement inc year monthIndex e) Hvalid), Hnone.
    reflexivity. }
  split.
  - induction exps as [| e rest IH]; [reflexivity |].
    cbn [List.map List.filter].
    rewrite (proj1 (paycheck_is_assigned inc year monthIndex e)), Hnone.
    exact IH.
  - rewrite map_filter_tagged by reflexivity.
    induction exps as [| e rest IH]; [reflexivity |].
    cbn [List.filter].
    rewrite (proj2 (paycheck_is_assigned inc year monthIndex e)), Hall.
    rewrite IH. reflexivity.
Qed.

Lemma merged_paydays_empty_period_one_witness :
  let inc := mkIncomeConfig (30, 31) 20000 0 in
  let exps := expenses (defaultDataset (randomIds freshWorld)) in
  validMonth 2025 1 /\
  exists dim c1 c2,
    daysInMonth 2025 1 = Day dim /\
    clampDay (Day 30) 2025 1 = Day c1 /\
    clampDay (Day 31) 2025 1 = Day c2 /\
    (30 <= 31 -> c1 <= c2) /\
    (dim <= 30 /\ dim <= 31 \/ 30 <= 1 /\ 31 <= 1 -> c1 = c2) /\
    (c1 = c2 ->
     p1Items (assigned exps inc 2025 1) = [] /\
     List.map expense (p2Items (assigned exps inc 2025 1)) = exps).
Proof.
  intros inc exps.
  assert (H : validMonth 2025 1).
  { unfold validMonth. vm_compute. split; discriminate. }
  split; [exact H |].
  exact (merged_paydays_empty_period_one exps inc 2025 1 H).
Defined.
